(** * atooms trajectories: the read/write template, the multi-file index
      and the Centered and Unfolded decorators

    A shallow embedding of [atooms/trajectory/base.py] and
    [atooms/trajectory/decorators.py].  A Python object is a record of its
    attributes; a method is a function in a state-and-exception monad over
    that record, so that attribute updates made before a [raise] survive
    it, as they do in Python. *)

From Stdlib Require Import ZArith List String Ascii Bool Lia.
From Stdlib Require Import QArith Qround Lqa.
From Stdlib Require Import Floats.
From Stdlib Require Import Sorted Permutation.
Import ListNotations.

Open Scope Z_scope.

(* ================================================================== *)
(** ** Python values, exceptions and the method monad *)

Module Py.

(** The exceptions raised by the embedded code. *)
Inductive exn : Type :=
| IOError
| ValueError
| IndexError
| TypeError
| AttributeError
| NotImplementedError
| RuntimeError.

Inductive outcome (A : Type) : Type :=
| Return (a : A)
| Raise (e : exn).
Arguments Return {A} a.
Arguments Raise {A} e.

(** A method on an object of type [S]: the object after the call and
    either the returned value or the exception raised. *)
Definition M (S A : Type) : Type := S -> S * outcome A.

Definition ret {S A} (a : A) : M S A := fun s => (s, Return a).

Definition raise {S A} (e : exn) : M S A := fun s => (s, Raise e).

Definition bind {S A B} (m : M S A) (k : A -> M S B) : M S B :=
  fun s =>
    match m s with
    | (s', Return a) => k a s'
    | (s', Raise e) => (s', Raise e)
    end.

Definition get {S} : M S S := fun s => (s, Return s).

Definition modify {S} (f : S -> S) : M S unit := fun s => (f s, Return tt).

(** An outcome that does not touch the object. *)
Definition lift {S A} (o : outcome A) : M S A := fun s => (s, o).

(** [for x in l: body x] *)
Fixpoint for_each {S A} (l : list A) (body : A -> M S unit) : M S unit :=
  match l with
  | [] => ret tt
  | x :: l' => bind (body x) (fun _ => for_each l' body)
  end.

(** [[f x for x in l]] *)
Fixpoint comprehension {S A B} (l : list A) (f : A -> M S B) : M S (list B) :=
  match l with
  | [] => ret []
  | x :: l' => bind (f x) (fun y => bind (comprehension l' f) (fun ys => ret (y :: ys)))
  end.

(** The values that callbacks and their bound arguments are made of.
    A function object is identified by its name: two function objects
    are equal exactly when they are the same object. *)
#[local] Unset Elimination Schemes.
Inductive pyobj : Type :=
| PyNone
| PyInt (z : Z)
| PyStr (s : string)
| PyFunc (name : string)
| PyList (l : list pyobj)
| PyTuple (l : list pyobj)
| PyDict (d : list (string * pyobj)).
#[local] Set Elimination Schemes.

Fixpoint dict_get (k : string) (d : list (string * pyobj)) : option pyobj :=
  match d with
  | [] => None
  | (k', v) :: d' => if String.eqb k k' then Some v else dict_get k d'
  end.

(** Python's [==].  Values of different types are unequal; sequences
    compare elementwise; dictionaries compare as maps. *)
Fixpoint py_eq (a b : pyobj) {struct a} : bool :=
  match a, b with
  | PyNone, PyNone => true
  | PyInt x, PyInt y => Z.eqb x y
  | PyStr x, PyStr y => String.eqb x y
  | PyFunc x, PyFunc y => String.eqb x y
  | PyList l1, PyList l2 =>
      (fix seq_eq (l1 l2 : list pyobj) {struct l1} : bool :=
         match l1, l2 with
         | [], [] => true
         | x :: l1', y :: l2' => py_eq x y && seq_eq l1' l2'
         | _, _ => false
         end) l1 l2
  | PyTuple l1, PyTuple l2 =>
      (fix seq_eq (l1 l2 : list pyobj) {struct l1} : bool :=
         match l1, l2 with
         | [], [] => true
         | x :: l1', y :: l2' => py_eq x y && seq_eq l1' l2'
         | _, _ => false
         end) l1 l2
  | PyDict d1, PyDict d2 =>
      Nat.eqb (List.length d1) (List.length d2) &&
      (fix sub_eq (d : list (string * pyobj)) {struct d} : bool :=
         match d with
         | [] => true
         | (k, v) :: d' =>
             match dict_get k d2 with
             | Some w => py_eq v w
             | None => false
             end && sub_eq d'
         end) d1
  | _, _ => false
  end.

(** [x in l] for a list [l]. *)
Definition py_in (x : pyobj) (l : list pyobj) : bool :=
  existsb (fun e => py_eq e x) l.

(** [x in l] for a list of integers. *)
Definition int_in (x : Z) (l : list Z) : bool :=
  existsb (fun e => Z.eqb e x) l.

(** [len(l)] *)
Definition len {A} (l : list A) : Z := Z.of_nat (List.length l).

(** [range(n)] *)
Definition range (n : Z) : list Z := map Z.of_nat (seq 0 (Z.to_nat n)).

(** [enumerate(l)] *)
Definition enumerate {A} (l : list A) : list (Z * A) :=
  combine (range (len l)) l.

(** [l[-1]] of a non-empty list. *)
Definition last_item {A} (l : list A) : option A :=
  match rev l with
  | [] => None
  | x :: _ => Some x
  end.

End Py.

Import Py.

Declare Scope py_scope.
Delimit Scope py_scope with py.
Notation "x <- m ;; k" := (bind m (fun x => k))
  (at level 61, m at next level, right associativity) : py_scope.
Notation "m ;;; k" := (bind m (fun _ => k))
  (at level 61, right associativity) : py_scope.
Open Scope py_scope.

(* ================================================================== *)
(** ** List slicing, [l[start:stop:step]] *)

Module Slice.

(** Clamp one bound of a slice against the length of the sequence. *)
Definition adjust (length step v : Z) : Z :=
  if v <? 0 then
    (if v + length <? 0 then (if step <? 0 then -1 else 0) else v + length)
  else if v >=? length then (if step <? 0 then length - 1 else length)
  else v.

(** [slice(start, stop, step).indices(length)]; a zero step is refused. *)
Definition indices (start stop step : option Z) (length : Z)
  : outcome (Z * Z * Z) :=
  let step := match step with None => 1 | Some s => s end in
  if step =? 0 then Raise ValueError
  else
    let start := match start with
                 | None => if step <? 0 then length - 1 else 0
                 | Some v => adjust length step v
                 end in
    let stop := match stop with
                | None => if step <? 0 then -1 else length
                | Some v => adjust length step v
                end in
    Return (start, stop, step).

Definition slicelength (start stop step : Z) : Z :=
  if step <? 0 then
    (if stop <? start then (start - stop - 1) / (- step) + 1 else 0)
  else
    (if start <? stop then (stop - start - 1) / step + 1 else 0).

Definition getslice {A} (l : list A) (start stop step : option Z)
  : outcome (list A) :=
  match indices start stop step (len l) with
  | Raise e => Raise e
  | Return (a, b, c) =>
      Return (flat_map
                (fun i => match nth_error l (Z.to_nat (a + i * c)) with
                          | Some x => [x]
                          | None => []
                          end)
                (range (slicelength a b c)))
  end.

End Slice.

(* ================================================================== *)
(** ** The environment of a trajectory *)

(** [os.path.exists] on the file system the program runs on. *)
Class FileSystem : Type := { path_exists : string -> bool }.

(** Calling a registered callback: [cbk(s, *args, **kwargs)] on a frame
    of type [F].  The callbacks are the caller's code. *)
Class Callbacks (F : Type) : Type :=
  { call : pyobj -> F -> pyobj -> pyobj -> outcome F }.

(* ================================================================== *)
(** ** TrajectoryBase *)

Module TrajectoryBase.

(** The attributes set by [TrajectoryBase.__init__], followed by the
    attributes [X] that a subclass or a decorator adds to the object. *)
Record t (X : Type) : Type := Build {
  filename : string;
  mode : string;
  callbacks : list pyobj;
  steps : list Z;
  _initialized_write : bool;
  _initialized_read : bool;
  attrs : X
}.
Arguments Build {X}.
Arguments filename {X}.
Arguments mode {X}.
Arguments callbacks {X}.
Arguments steps {X}.
Arguments _initialized_write {X}.
Arguments _initialized_read {X}.
Arguments attrs {X}.

Definition set_callbacks {X} (v : list pyobj) (self : t X) : t X :=
  Build (filename self) (mode self) v (steps self)
        (_initialized_write self) (_initialized_read self) (attrs self).

Definition set_steps {X} (v : list Z) (self : t X) : t X :=
  Build (filename self) (mode self) (callbacks self) v
        (_initialized_write self) (_initialized_read self) (attrs self).

Definition set_initialized_write {X} (v : bool) (self : t X) : t X :=
  Build (filename self) (mode self) (callbacks self) (steps self)
        v (_initialized_read self) (attrs self).

Definition set_initialized_read {X} (v : bool) (self : t X) : t X :=
  Build (filename self) (mode self) (callbacks self) (steps self)
        (_initialized_write self) v (attrs self).

Definition set_attrs {X Y} (v : Y) (self : t X) : t Y :=
  Build (filename self) (mode self) (callbacks self) (steps self)
        (_initialized_write self) (_initialized_read self) v.

(** The methods that subclasses override; a call [self.read_sample(i)]
    in the template dispatches to the instance of the object's class. *)
Class Methods (X F : Type) : Type := {
  read_init : M (t X) unit;
  write_init : F -> M (t X) unit;
  read_sample : Z -> M (t X) F;
  write_sample : F -> Z -> M (t X) unit
}.

(** The methods of [TrajectoryBase] itself. *)
Definition abstract (X F : Type) : Methods X F := {|
  read_init := ret tt;
  write_init := fun _ => ret tt;
  read_sample := fun _ => raise NotImplementedError;
  write_sample := fun _ _ => raise NotImplementedError
|}.

Definition __init__ {fs : FileSystem} {X} (filename : string) (mode : string)
  (extra : X) : outcome (t X) :=
  if String.eqb mode "r" && negb (path_exists filename)
  then Raise IOError
  else Return (Build filename mode [] [] false false extra).

Definition __len__ {X} (self : t X) : Z := len (steps self).

(** [for cbk, args, kwargs in self.callbacks: s = cbk(s, *args, **kwargs)] *)
Fixpoint apply_callbacks {F} {cb : Callbacks F} (cbks : list pyobj) (s : F)
  : outcome F :=
  match cbks with
  | [] => Return s
  | PyList [cbk; args; kwargs] :: rest =>
      match call cbk s args kwargs with
      | Return s' => apply_callbacks rest s'
      | Raise e => Raise e
      end
  | PyList _ :: _ => Raise ValueError
  | _ :: _ => Raise TypeError
  end.

Definition read {X F} {cb : Callbacks F} {m : Methods X F} (index : Z) : M (t X) F :=
  self <- get ;;
  (if negb (_initialized_read self)
   then read_init ;;; modify (set_initialized_read true)
   else ret tt) ;;;
  s <- read_sample index ;;
  self <- get ;;
  lift (apply_callbacks (callbacks self) s).

Definition write {X F} {m : Methods X F} (system : F) (step : Z)
  : M (t X) unit :=
  self <- get ;;
  if String.eqb (mode self) "r" then raise IOError
  else
    (if negb (_initialized_write self)
     then write_init system ;;; modify (set_initialized_write true)
     else ret tt) ;;;
    write_sample system step ;;;
    self <- get ;;
    if negb (int_in step (steps self))
    then modify (set_steps (steps self ++ [step]))
    else ret tt.

(** [register_callback(cbk, *args, **kwargs)] *)
Definition register_callback {X} (cbk : pyobj) (args : list pyobj)
  (kwargs : list (string * pyobj)) : M (t X) unit :=
  self <- get ;;
  if negb (py_in cbk (callbacks self))
  then modify (set_callbacks
                 (callbacks self ++ [PyList [cbk; PyTuple args; PyDict kwargs]]))
  else ret tt.

(** The key of an indexed access [traj[key]]: an [int], a [slice], or an
    object that is neither. *)
Inductive key : Type :=
| KeyInt (k : Z)
| KeySlice (start stop step : option Z)
| KeyOther (o : pyobj).

(** What [traj[key]] returns: one frame, or a list of frames. *)
Inductive item (F : Type) : Type :=
| Frame (s : F)
| Frames (l : list F).
Arguments Frame {F} s.
Arguments Frames {F} l.

Definition __getitem__ {X F} {cb : Callbacks F} {m : Methods X F} (k : key)
  : M (t X) (item F) :=
  match k with
  | KeySlice start stop step =>
      self <- get ;;
      let frames := range (len (steps self)) in
      idx <- lift (Slice.getslice frames start stop step) ;;
      l <- comprehension idx (fun i => read i) ;;
      ret (Frames l)
  | KeyInt k =>
      self <- get ;;
      let k := if k <? 0 then k + __len__ self else k in
      if k >=? __len__ self then raise IndexError
      else s <- read k ;; ret (Frame s)
  | KeyOther _ => raise TypeError
  end.

End TrajectoryBase.

(* ================================================================== *)
(** ** Paths *)

Module Path.

Definition slash : ascii := "/"%char.

Fixpoint drop_while (p : ascii -> bool) (l : list ascii) : list ascii :=
  match l with
  | [] => []
  | c :: l' => if p c then drop_while p l' else l
  end.

(** [s.rstrip('/')] *)
Definition rstrip_slash (l : list ascii) : list ascii :=
  rev (drop_while (Ascii.eqb slash) (rev l)).

(** [os.path.dirname]: the part up to and including the last slash,
    without its trailing slashes unless it consists of slashes only. *)
Definition dirname (p : string) : string :=
  let head :=
    rev (drop_while (fun c => negb (Ascii.eqb slash c))
                    (rev (list_ascii_of_string p))) in
  string_of_list_ascii
    (if negb (Nat.eqb (List.length head) 0)
        && negb (forallb (Ascii.eqb slash) head)
     then rstrip_slash head
     else head).

(** [list.sort()] on a list of paths: strings in increasing order. *)
Fixpoint insert (x : string) (l : list string) : list string :=
  match l with
  | [] => [x]
  | y :: l' => if String.leb x y then x :: l else y :: insert x l'
  end.

Fixpoint sort (l : list string) : list string :=
  match l with
  | [] => []
  | x :: l' => insert x (sort l')
  end.

(** The order of the sorted paths. *)
Definition path_le (a b : string) : Prop := String.leb a b = true.

End Path.

(* ================================================================== *)
(** ** SuperTrajectory *)

(** What [SuperTrajectory] asks of an open sub-trajectory besides
    indexing: whether its file object has been closed,
    [t.trajectory.closed], and [t.close()]. *)
Class FileHandle (X : Type) : Type := {
  closed : TrajectoryBase.t X -> bool;
  close : M (TrajectoryBase.t X) unit
}.

Module SuperTrajectory.

Import TrajectoryBase.

(** The attributes that [SuperTrajectory.__init__] adds; [X] are the
    attributes of the sub-trajectories. *)
Record attributes (X : Type) : Type := Attributes {
  files : list string;
  _steps_file : list string;
  _steps_frame : list Z;
  _last_trajectory : option (TrajectoryBase.t X)
}.
Arguments Attributes {X}.
Arguments files {X}.
Arguments _steps_file {X}.
Arguments _steps_frame {X}.
Arguments _last_trajectory {X}.

(** [trajectoryclass(f)]: opening one file in read mode gives a
    trajectory object, or fails. *)
Class TrajectoryClass (X : Type) : Type :=
  { trajectoryclass : string -> outcome (TrajectoryBase.t X) }.

Definition set_files {X} (v : list string) (self : t (attributes X))
  : t (attributes X) :=
  set_attrs (Attributes v (_steps_file (attrs self))
                        (_steps_frame (attrs self))
                        (_last_trajectory (attrs self))) self.

(** The three appends of the loop body. *)
Definition record_step {X} (step : Z) (f : string) (j : Z)
  (self : t (attributes X)) : t (attributes X) :=
  set_attrs (Attributes (files (attrs self))
                        (_steps_file (attrs self) ++ [f])
                        (_steps_frame (attrs self) ++ [j])
                        (_last_trajectory (attrs self)))
            (set_steps (steps self ++ [step]) self).

(** The body of [for j, step in enumerate(t.steps)]. *)
Definition index_step {X} (f : string) (entry : Z * Z)
  : M (t (attributes X)) unit :=
  let '(j, step) := entry in
  self <- get ;;
  if (len (steps self) =? 0) || negb (step =? last (steps self) 0)
  then modify (record_step step f j)
  else ret tt.

(** [with enter as t: body t].  [__enter__] returns the trajectory and
    [__exit__] calls [t.close()], whether the body returned or raised;
    [__exit__] returns nothing, so that an error of the body is passed
    on, unless [close] raises an error of its own. *)
Definition with_trajectory {X S A} {fh : FileHandle X}
  (enter : outcome (TrajectoryBase.t X))
  (body : TrajectoryBase.t X -> M S A) : M S A :=
  fun self =>
    match enter with
    | Raise e => (self, Raise e)
    | Return sub =>
        let '(self', r) := body sub self in
        match snd (close sub) with
        | Raise e => (self', Raise e)
        | Return _ => (self', r)
        end
    end.

(** The body of [for f in self.files]. *)
Definition index_file {X} {tc : TrajectoryClass X} {fh : FileHandle X}
  (f : string) : M (t (attributes X)) unit :=
  with_trajectory (trajectoryclass f)
    (fun sub => for_each (enumerate (steps sub)) (index_step f)).

Definition __init__ {fs : FileSystem} {X} {tc : TrajectoryClass X}
  {fh : FileHandle X}
  (files : list string) (mode : string) : outcome (t (attributes X)) :=
  if len files =? 0 then Raise ValueError
  else
    let f := Path.dirname (nth 0 files ""%string) in
    match TrajectoryBase.__init__ f mode (Attributes files [] [] None) with
    | Raise e => Raise e
    | Return self =>
        let self := set_files (Path.sort files) self in
        let self := set_steps [] self in
        match for_each (SuperTrajectory.files (attrs self)) index_file self with
        | (self, Return _) => Return self
        | (_, Raise e) => Raise e
        end
    end.

(** *** The index as the specification words it *)

Definition step_of (e : Z * string * Z) : Z := fst (fst e).
Definition file_of (e : Z * string * Z) : string := snd (fst e).
Definition frame_of (e : Z * string * Z) : Z := snd e.

(** All [(step, file, local frame)] triples of the files, in order. *)
Definition all_entries (steps_of : string -> list Z) (fs : list string)
  : list (Z * string * Z) :=
  flat_map (fun f => map (fun '(j, step) => (step, f, j))
                         (enumerate (steps_of f))) fs.

(** Keep an entry unless its step equals the step of the entry
    recorded immediately before it. *)
Fixpoint dedup_from (prev : option Z) (l : list (Z * string * Z))
  : list (Z * string * Z) :=
  match l with
  | [] => []
  | (step, f, j) :: l' =>
      match prev with
      | Some p => if step =? p then dedup_from prev l'
                  else (step, f, j) :: dedup_from (Some step) l'
      | None => (step, f, j) :: dedup_from (Some step) l'
      end
  end.

(** [self'] is [self] with the entries [D] appended to its index. *)
Definition extended (D : list (Z * string * Z))
  {X} (self self' : t (attributes X)) : Prop :=
  steps self' = steps self ++ map step_of D
  /\ _steps_file (attrs self') = _steps_file (attrs self) ++ map file_of D
  /\ _steps_frame (attrs self') = _steps_frame (attrs self) ++ map frame_of D
  /\ files (attrs self') = files (attrs self).

Definition spec_index (steps_of : string -> list Z) (fs : list string)
  : list (Z * string * Z) :=
  dedup_from None (all_entries steps_of (Path.sort fs)).

End SuperTrajectory.

(* ================================================================== *)
(** ** Numbers and numpy arrays *)

(** The floating-point operations the decorators use, kept abstract:
    [-], [+], [*], [/], [numpy.rint] and the literal [2.0]. *)
Class Arith (R : Type) : Type := {
  fsub : R -> R -> R;
  fadd : R -> R -> R;
  fmul : R -> R -> R;
  fdiv : R -> R -> R;
  rint : R -> R;
  two : R
}.

Module Numpy.

Section Arrays.

Context {R : Type} {a : Arith R}.

(** Arrays of one and of two dimensions; a two-dimensional array is a
    non-empty list of rows of one length. *)
Inductive ndarray : Type :=
| Arr1 (v : list R)
| Arr2 (rows : list (list R)).

Definition shape (a : ndarray) : list nat :=
  match a with
  | Arr1 v => [List.length v]
  | Arr2 rows => [List.length rows; List.length (hd [] rows)]
  end.

Definition same_shape (a b : ndarray) : bool :=
  if list_eq_dec Nat.eq_dec (shape a) (shape b) then true else false.

(** [numpy.array(rows)] of a list of vectors: no row gives the empty
    one-dimensional array; rows of unequal lengths are refused. *)
Definition array (rows : list (list R)) : outcome ndarray :=
  match rows with
  | [] => Return (Arr1 [])
  | r :: rest =>
      if forallb (fun r' => Nat.eqb (List.length r') (List.length r)) rest
      then Return (Arr2 rows)
      else Raise ValueError
  end.

Fixpoint sequence {A} (l : list (option A)) : option (list A) :=
  match l with
  | [] => Some []
  | None :: _ => None
  | Some x :: l' =>
      match sequence l' with
      | Some xs => Some (x :: xs)
      | None => None
      end
  end.

Fixpoint zip_with {A B C} (f : A -> B -> C) (a : list A) (b : list B)
  : list C :=
  match a, b with
  | x :: a', y :: b' => f x y :: zip_with f a' b'
  | _, _ => []
  end.

(** Broadcasting along one axis: equal lengths combine elementwise, an
    axis of length one is stretched, anything else cannot be broadcast. *)
Definition broadcast {A B C} (f : A -> B -> option C)
  (a : list A) (b : list B) : option (list C) :=
  if Nat.eqb (List.length a) (List.length b) then sequence (zip_with f a b)
  else
    match a, b with
    | [x], _ => sequence (map (f x) b)
    | _, [y] => sequence (map (fun x => f x y) a)
    | _, _ => None
    end.

Definition broadcast1 (op : R -> R -> R) (a b : list R) : option (list R) :=
  broadcast (fun x y => Some (op x y)) a b.

Definition broadcast2 (op : R -> R -> R) (a b : list (list R))
  : option (list (list R)) :=
  broadcast (broadcast1 op) a b.

(** A binary operator on arrays, [a op b]. *)
Definition binop (op : R -> R -> R) (a b : ndarray) : outcome ndarray :=
  let r := match a, b with
           | Arr1 x, Arr1 y => option_map Arr1 (broadcast1 op x y)
           | Arr2 x, Arr1 y => option_map Arr2 (broadcast2 op x [y])
           | Arr1 x, Arr2 y => option_map Arr2 (broadcast2 op [x] y)
           | Arr2 x, Arr2 y => option_map Arr2 (broadcast2 op x y)
           end in
  match r with
  | Some c => Return c
  | None => Raise ValueError
  end.

(** An in-place operator, [a op= b]: the result must have the shape
    of [a]. *)
Definition inplace (op : R -> R -> R) (a b : ndarray) : outcome ndarray :=
  match binop op a b with
  | Return c => if same_shape c a then Return c else Raise ValueError
  | Raise e => Raise e
  end.

(** A function applied to every element, as [numpy.rint(a)]. *)
Definition ufunc (f : R -> R) (a : ndarray) : ndarray :=
  match a with
  | Arr1 v => Arr1 (map f v)
  | Arr2 rows => Arr2 (map (map f) rows)
  end.

(** [a[i][:]], a row of a two-dimensional array. *)
Definition row (a : ndarray) (i : nat) : outcome (list R) :=
  match a with
  | Arr1 _ => Raise IndexError
  | Arr2 rows =>
      match nth_error rows i with
      | Some r => Return r
      | None => Raise IndexError
      end
  end.

(** The vector [v / 2.0]. *)
Definition halve (v : list R) : list R := map (fun x => fdiv x two) v.

(** [v -= w] on vectors. *)
Definition isub (v w : list R) : outcome (list R) :=
  match inplace fsub (Arr1 v) (Arr1 w) with
  | Return (Arr1 r) => Return r
  | Return (Arr2 _) => Raise ValueError
  | Raise e => Raise e
  end.

(** [n] rows of [d] elements each. *)
Definition matrix (n d : nat) (rows : list (list R)) : Prop :=
  List.length rows = n /\ Forall (fun r => List.length r = d) rows.

End Arrays.

Arguments ndarray R : clear implicits.

End Numpy.

(* ================================================================== *)
(** ** Systems *)

(** Modelled from the spec: the [Particle] and [System] classes are not
    among the sources; the decorators need a particle list whose members
    have a mutable position, id and mass, and a cell. *)
Record Particle (R : Type) : Type := Build_Particle' {
  position : list R;
  id : Z;
  name : string;
  mass : R
}.
Arguments position {R}.
Arguments id {R}.
Arguments name {R}.
Arguments mass {R}.

Definition set_position {R} (v : list R) (p : Particle R) : Particle R :=
  Build_Particle' R v (id p) (name p) (mass p).

(** [atooms/system/cell.py] *)
Record Cell (R : Type) : Type := Build_Cell' {
  side : list R;
  origin : list R
}.
Arguments side {R}.
Arguments origin {R}.

Record System (R : Type) : Type := Build_System' {
  particle : list (Particle R);
  cell : Cell R
}.
Arguments particle {R}.
Arguments cell {R}.

Definition set_particle {R} (v : list (Particle R)) (s : System R)
  : System R :=
  Build_System' R v (cell s).

(** What [read_sample] returns: a system, or Python's [None]. *)
Definition frame (R : Type) : Type := option (System R).

(* ================================================================== *)
(** ** Decorators *)

(** A decorator instantiates a new subclass of the component's class, so
    a decorated object has the attributes of the component and the
    attributes [Y] of the decorator; [super(D, self).m(...)] runs the
    component's method [m] on the same object. *)
Definition super_call {X Y A} (proj : Y -> X) (inj : X -> Y -> Y)
  (m : M (TrajectoryBase.t X) A) : M (TrajectoryBase.t Y) A :=
  fun self =>
    let '(c, r) := m (TrajectoryBase.set_attrs (proj (TrajectoryBase.attrs self)) self) in
    (TrajectoryBase.set_attrs
       (inj (TrajectoryBase.attrs c) (TrajectoryBase.attrs self)) c, r).

Module Centered.

Import TrajectoryBase.

Record attributes (X : Type) : Type := Attributes {
  component : X;
  _Centered__done : list Z
}.
Arguments Attributes {X}.
Arguments component {X}.
Arguments _Centered__done {X}.

Definition set_component {X} (c : X) (a : attributes X) : attributes X :=
  Attributes c (_Centered__done a).

Definition append_done {X} (sample : Z) (self : t (attributes X))
  : t (attributes X) :=
  set_attrs (Attributes (component (attrs self))
                        (_Centered__done (attrs self) ++ [sample])) self.

Definition super {X A} : M (t X) A -> M (t (attributes X)) A :=
  super_call component set_component.

Definition __init__ {X} (c : t X) : t (attributes X) :=
  set_attrs (Attributes (attrs c) []) c.

(** The object as the methods of the component see it. *)
Definition inner {X} (self : t (attributes X)) : t X :=
  set_attrs (component (attrs self)) self.

(** [for p in s.particle: p.position -= s.cell.side / 2.0] *)
Fixpoint center_particles {R} {a : Arith R} (ps : list (Particle R))
  (L : list R) : outcome (list (Particle R)) :=
  match ps with
  | [] => Return []
  | p :: ps' =>
      match Numpy.isub (position p) (Numpy.halve L) with
      | Raise e => Raise e
      | Return v =>
          match center_particles ps' L with
          | Raise e => Raise e
          | Return ps'' => Return (set_position v p :: ps'')
          end
      end
  end.

Definition read_sample {R} {a : Arith R} {X} {m : Methods X (frame R)}
  (sample : Z) : M (t (attributes X)) (frame R) :=
  self <- get ;;
  if int_in sample (_Centered__done (attrs self)) then ret None
  else
    modify (append_done sample) ;;;
    s <- super (TrajectoryBase.read_sample sample) ;;
    match s with
    | None => raise AttributeError
    | Some s =>
        ps <- lift (center_particles (particle s) (side (cell s))) ;;
        ret (Some (set_particle ps s))
    end.

End Centered.

Module Unfolded.

Import TrajectoryBase.

Record attributes (R X : Type) : Type := Attributes {
  component : X;
  _old : option (Numpy.ndarray R);
  _last_read : option Z
}.
Arguments Attributes {R X}.
Arguments component {R X}.
Arguments _old {R X}.
Arguments _last_read {R X}.

Definition set_component {R X} (c : X) (a : attributes R X)
  : attributes R X :=
  Attributes c (_old a) (_last_read a).

Definition set_old {R X} (v : Numpy.ndarray R) (self : t (attributes R X))
  : t (attributes R X) :=
  set_attrs (Attributes (component (attrs self)) (Some v)
                        (_last_read (attrs self))) self.

Definition set_last_read {R X} (v : Z) (self : t (attributes R X))
  : t (attributes R X) :=
  set_attrs (Attributes (component (attrs self)) (_old (attrs self))
                        (Some v)) self.

Definition super {R X A} : M (t X) A -> M (t (attributes R X)) A :=
  super_call component set_component.

Definition __init__ {R X} (c : t X) : t (attributes R X) :=
  set_initialized_read false (set_attrs (Attributes (attrs c) None None) c).

(** The object as the methods of the component see it. *)
Definition inner {R X} (self : t (attributes R X)) : t X :=
  set_attrs (component (attrs self)) self.

(** [numpy.array([p.position for p in s.particle])] *)
Definition positions {R} {a : Arith R} (s : System R)
  : outcome (Numpy.ndarray R) :=
  Numpy.array (map position (particle s)).

Definition read_init {R} {a : Arith R} {X} {m : Methods X (frame R)}
  : M (t (attributes R X)) unit :=
  super TrajectoryBase.read_init ;;;
  s <- super (TrajectoryBase.read_sample 0) ;;
  match s with
  | None => raise AttributeError
  | Some s =>
      old <- lift (positions s) ;;
      modify (set_old old) ;;;
      modify (set_last_read 0)
  end.

(** [for i in xrange(len(pos)): s.particle[i].position = self._old[i][:]],
    from particle [i] on.  A basic slice of a numpy array is a view: the
    position that a particle receives is row [i] of [self._old] itself,
    not a copy.  This function gives the particles with the values that
    the rows hold when they are assigned; [shown], below, gives what the
    same particles hold after [self._old] has been updated in place. *)
Fixpoint assign_positions {R} {a : Arith R} (ps : list (Particle R)) (i : nat)
  (old : Numpy.ndarray R) : outcome (list (Particle R)) :=
  match ps with
  | [] => Return []
  | p :: ps' =>
      match Numpy.row old i with
      | Raise e => Raise e
      | Return r =>
          match assign_positions ps' (S i) old with
          | Raise e => Raise e
          | Return ps'' => Return (set_position r p :: ps'')
          end
      end
  end.

(** The unfolding step of [read_sample], after the frame has been read. *)
Definition unfold {R} {a : Arith R} {X} (s : System R)
  : M (t (attributes R X)) (frame R) :=
  let L := Numpy.Arr1 (side (cell s)) in
  pos <- lift (positions s) ;;
  self <- get ;;
  match _old (attrs self) with
  | None => raise AttributeError
  | Some old =>
      dif <- lift (Numpy.binop fsub pos old) ;;
      q <- lift (Numpy.binop fdiv dif L) ;;
      m <- lift (Numpy.binop fmul (Numpy.ufunc rint q) L) ;;
      dif <- lift (Numpy.binop fsub dif m) ;;
      old <- lift (Numpy.inplace fadd old dif) ;;
      modify (set_old old) ;;;
      ps <- lift (assign_positions (particle s) 0 old) ;;
      ret (Some (set_particle ps s))
  end.


(** [read_sample] calls itself for the frames it skips; [depth] bounds
    the nesting of these calls, as the interpreter's recursion limit
    does. *)
Fixpoint read_sample_rec {R} {a : Arith R} {X} {m : Methods X (frame R)}
  (depth : nat) (sample : Z) : M (t (attributes R X)) (frame R) :=
  match depth with
  | O => raise RuntimeError
  | S depth =>
      if sample =? 0 then super (TrajectoryBase.read_sample sample)
      else
        self <- get ;;
        match _last_read (attrs self) with
        | None => raise AttributeError
        | Some last =>
            let delta := sample - last in
            if delta <? 0 then raise ValueError
            else
              (if delta >? 1
               then for_each (range (delta - 1))
                      (fun _ =>
                         self <- get ;;
                         match _last_read (attrs self) with
                         | None => raise AttributeError
                         | Some last =>
                             read_sample_rec depth (last + 1) ;;; ret tt
                         end)
               else ret tt) ;;;
              s <- super (TrajectoryBase.read_sample sample) ;;
              modify (set_last_read sample) ;;;
              match s with
              | None => raise AttributeError
              | Some s => unfold s
              end
        end
  end.

Definition recursion_limit : nat := 1000.

Definition read_sample {R} {a : Arith R} {X} {m : Methods X (frame R)}
  : Z -> M (t (attributes R X)) (frame R) :=
  read_sample_rec recursion_limit.

(** The methods of the decorated object: [read_init] and [read_sample]
    are the decorator's, the others are inherited. *)
Definition methods {R} {a : Arith R} {X} {m : Methods X (frame R)}
  : Methods (attributes R X) (frame R) := {|
  TrajectoryBase.read_init := read_init;
  TrajectoryBase.write_init := fun s => super (TrajectoryBase.write_init s);
  TrajectoryBase.read_sample := read_sample;
  TrajectoryBase.write_sample :=
    fun s step => super (TrajectoryBase.write_sample s step)
|}.

End Unfolded.

(* ================================================================== *)
(** ** Sequences of calls *)

(** A caller writing the frames [ws] one after the other, going on after
    a write that raised. *)
Fixpoint writes {X F} {m : TrajectoryBase.Methods X F} (ws : list (F * Z))
  (self : TrajectoryBase.t X) : TrajectoryBase.t X :=
  match ws with
  | [] => self
  | (system, step) :: ws' =>
      writes ws' (fst (TrajectoryBase.write system step self))
  end.

(** A caller reading the frames [keys] one after the other through the
    template, going on after a read that raised. *)
Fixpoint reads {X F} {cb : Callbacks F} {m : TrajectoryBase.Methods X F}
  (keys : list Z) (self : TrajectoryBase.t X) : TrajectoryBase.t X :=
  match keys with
  | [] => self
  | k :: keys' => reads keys' (fst (TrajectoryBase.read k self))
  end.

(** A caller of [Centered.read_sample] asking for the frames [keys] one
    after the other, going on after a read that raised. *)
Fixpoint centered_reads {R} {a : Arith R} {X}
  {m : TrajectoryBase.Methods X (frame R)} (keys : list Z)
  (self : TrajectoryBase.t (Centered.attributes X))
  : TrajectoryBase.t (Centered.attributes X) :=
  match keys with
  | [] => self
  | k :: keys' => centered_reads keys' (fst (Centered.read_sample k self))
  end.

(** The unfolding formula as the specification words it, for one
    Cartesian component: [o] the previous unfolded position, [p] the raw
    position, [L] the cell side. *)
Definition unfold_component {R} {a : Arith R} (o p L : R) : R :=
  let delta := fsub p o in
  let delta := fsub delta (fmul (rint (fdiv delta L)) L) in
  fadd o delta.

(** A format that leaves the step index to the template: its
    [write_init] and [write_sample] do not assign [self.steps]. *)
Class KeepsSteps {X F} (m : TrajectoryBase.Methods X F) : Prop := {
  write_init_steps : forall system self,
    TrajectoryBase.steps (fst (TrajectoryBase.write_init system self))
    = TrajectoryBase.steps self;
  write_sample_steps : forall system step self,
    TrajectoryBase.steps (fst (TrajectoryBase.write_sample system step self))
    = TrajectoryBase.steps self
}.

(* ================================================================== *)
(** ** Exact arithmetic *)

(** Round to the nearest integer, halves to the even one, as
    [numpy.rint] does. *)
Definition Qrint (q : Q) : Q :=
  let f := Qfloor q in
  match Qcompare (q - inject_Z f) (1 # 2) with
  | Lt => inject_Z f
  | Gt => inject_Z (f + 1)
  | Eq => if Z.even f then inject_Z f else inject_Z (f + 1)
  end.

(** The operations on rationals: the arithmetic without rounding. *)
Definition exact : Arith Q := {|
  fsub := Qminus;
  fadd := Qplus;
  fmul := Qmult;
  fdiv := Qdiv;
  rint := Qrint;
  two := 2 # 1
|}.

(* ================================================================== *)
(** ** Binary64 arithmetic *)

(** [numpy.rint] on a binary64 number.  Below 2^52 in absolute value,
    adding and subtracting 2^52 rounds to the nearest integer, halves to
    the even one, as the additions themselves round; a zero result takes
    the sign of the argument.  From 2^52 on every number is an integer,
    and infinities and NaN are returned as they are. *)
Definition rint64 (x : float) : float :=
  let big := 0x1p52%float in
  if PrimFloat.ltb (PrimFloat.abs x) big
  then
    let r := if PrimFloat.ltb x 0%float
             then PrimFloat.add (PrimFloat.sub x big) big
             else PrimFloat.sub (PrimFloat.add x big) big in
    if PrimFloat.eqb r 0%float then PrimFloat.mul x 0%float else r
  else x.

(** The operations on Python floats and on numpy arrays of float64. *)
Definition binary64 : Arith float := {|
  fsub := PrimFloat.sub;
  fadd := PrimFloat.add;
  fmul := PrimFloat.mul;
  fdiv := PrimFloat.div;
  rint := rint64;
  two := 2%float
|}.

(* ================================================================== *)
(** ** A format held in memory, for the examples *)

Module Memory.

Import TrajectoryBase.

(** The frames of the file, each with its step. *)
Definition store (F : Type) : Type := list (Z * F).

Definition read_sample {F} (index : Z) : M (t (store F)) F :=
  self <- get ;;
  if index <? 0 then raise IndexError
  else
    match nth_error (attrs self) (Z.to_nat index) with
    | Some (_, s) => ret s
    | None => raise IndexError
    end.

Definition write_sample {F} (system : F) (step : Z) : M (t (store F)) unit :=
  modify (fun self => set_attrs (attrs self ++ [(step, system)]) self).

#[global] Instance methods (F : Type) : Methods (store F) F := {|
  TrajectoryBase.read_init := ret tt;
  TrajectoryBase.write_init := fun _ => ret tt;
  TrajectoryBase.read_sample := read_sample;
  TrajectoryBase.write_sample := write_sample
|}.

(** Opening a stored trajectory for reading. *)
Definition open {F} (filename : string) (frames : store F) : t (store F) :=
  Build filename "r" [] (map fst frames) false false frames.

(** No callback is registered in the examples. *)
Definition no_callbacks (F : Type) : Callbacks F :=
  {| call := fun _ _ _ _ => Raise TypeError |}.

(** A file system on which every path exists. *)
Definition any_path : FileSystem := {| path_exists := fun _ => true |}.

(** Two particles in a cubic cell of side 2; between the two frames the
    first particle leaves through the upper face along x and comes back
    in through the lower one. *)
Definition particle_at (x y z : Q) (i : Z) (n : string) : Particle Q :=
  Build_Particle' Q [x; y; z] i n 1%Q.

Definition cube : Cell Q := Build_Cell' Q [2; 2; 2]%Q [0; 0; 0]%Q.

Definition frame0 : System Q :=
  Build_System' Q [particle_at (7 # 4) 1%Q 1%Q 1 "A"; particle_at (1 # 2) (1 # 2) (1 # 2) 2 "B"] cube.

Definition frame1 : System Q :=
  Build_System' Q [particle_at (1 # 4) 1%Q 1%Q 1 "A"; particle_at (1 # 2) (1 # 2) (1 # 2) 2 "B"] cube.

Definition frame2 : System Q :=
  Build_System' Q [particle_at (3 # 4) 1%Q 1%Q 1 "A"; particle_at (1 # 2) (1 # 2) (1 # 2) 2 "B"] cube.

Definition three_frames : t (store (frame Q)) :=
  open "traj.xyz" [(0, Some frame0); (10, Some frame1); (20, Some frame2)].

(** The first particle at [x] along the first axis. *)
Definition frame_at (x : Q) : System Q :=
  Build_System' Q
    [particle_at x 1%Q 1%Q 1 "A"; particle_at (1 # 2) (1 # 2) (1 # 2) 2 "B"]
    cube.

(** Five frames in which the first particle moves up along x by 1/2,
    3/4, 3/4 and 1/2: it leaves through the upper face of the cell, of
    side 2, between frames 0 and 1 and again between frames 3 and 4. *)
Definition two_crossings : t (store (frame Q)) :=
  open "twice.xyz"
    [(0, Some (frame_at (7 # 4))); (10, Some (frame_at (1 # 4)));
     (20, Some (frame_at 1%Q)); (30, Some (frame_at (7 # 4)));
     (40, Some (frame_at (1 # 4)))].

(** Two frames of float64 positions in a cell of side 1: the first
    particle goes from x = 0.58 to x = 0.07, having left through the
    upper face. *)
Definition frame64_at (x : float) : System float :=
  Build_System' float
    [Build_Particle' float [x; 0.5; 0.5]%float 1 "A" 1%float;
     Build_Particle' float [0.25; 0.25; 0.25]%float 2 "B" 1%float]
    (Build_Cell' float [1; 1; 1]%float [0; 0; 0]%float).

Definition crossing64 : t (store (frame float)) :=
  open "float.xyz"
    [(0, Some (frame64_at 0x1.28f5c28f5c28fp-1%float));
     (10, Some (frame64_at 0x1.1eb851eb851ecp-4%float))].

(** A stored trajectory holds no file: [close] is the [pass] of
    [TrajectoryBase.close], and nothing is ever closed. *)
Definition file_handle (F : Type) : FileHandle (store F) :=
  {| closed := fun _ => false; close := ret tt |}.

(** Three files of one frame each, the last two at the same step. *)
Definition one_frame_files : SuperTrajectory.TrajectoryClass (store (frame Q)) :=
  {| SuperTrajectory.trajectoryclass := fun f =>
       if String.eqb f "run/a.xyz" then Return (open f [(0, Some frame0)])
       else if String.eqb f "run/b.xyz" then Return (open f [(10, Some frame1)])
       else if String.eqb f "run/c.xyz" then Return (open f [(10, Some frame1)])
       else Raise IOError |}.

End Memory.

(* ================================================================== *)
(** ** Indexing a list, [l[i]] *)

Module PyList.

(** [l[i]]: an index below zero counts from the end; an index outside
    the list raises [IndexError]. *)
Definition getitem {A} (l : list A) (i : Z) : outcome A :=
  let i := if i <? 0 then i + len l else i in
  if (i <? 0) || (i >=? len l) then Raise IndexError
  else
    match nth_error l (Z.to_nat i) with
    | Some x => Return x
    | None => Raise IndexError
    end.

End PyList.

(* ================================================================== *)
(** ** Iterating over a trajectory *)

Module Iteration.

Import TrajectoryBase.

(** [list(traj)]: the frames that [__iter__] yields when it is run to
    its end.  The bound [len(self.steps)] is taken once, when the
    iteration starts. *)
Definition __iter__ {X F} {cb : Callbacks F} {m : Methods X F}
  : M (t X) (list F) :=
  self <- get ;;
  comprehension (range (len (steps self))) (fun i => read i).

(** The steps written by a sequence of [write] calls that all return:
    each step at its first occurrence, unless it is in [seen]. *)
Fixpoint first_occurrences (seen : list Z) (l : list Z) : list Z :=
  match l with
  | [] => []
  | x :: l' =>
      if int_in x seen then first_occurrences seen l'
      else x :: first_occurrences (seen ++ [x]) l'
  end.

(** Every [write] of the sequence returns. *)
Fixpoint all_return {X F} {m : Methods X F} (ws : list (F * Z))
  (self : t X) : Prop :=
  match ws with
  | [] => True
  | (system, step) :: ws' =>
      snd (write system step self) = Return tt
      /\ all_return ws' (fst (write system step self))
  end.

End Iteration.

(* ================================================================== *)
(** ** The callbacks of [decorators.py] *)

Definition set_id {R} (v : Z) (p : Particle R) : Particle R :=
  Build_Particle' R (position p) v (name p) (mass p).

Module Callback.

(** [center(system)] *)
Definition center {R} {a : Arith R} (system : System R)
  : outcome (System R) :=
  match Centered.center_particles (particle system) (side (cell system)) with
  | Raise e => Raise e
  | Return ps => Return (set_particle ps system)
  end.

(** The order of the sort key. *)
Definition id_le {R} (p q : Particle R) : Prop := id p <= id q.

(** Stable insertion into a list of particles in increasing id order. *)
Fixpoint insert_by_id {R} (p : Particle R) (l : list (Particle R))
  : list (Particle R) :=
  match l with
  | [] => [p]
  | q :: l' => if id p <=? id q then p :: l else q :: insert_by_id p l'
  end.

(** [sorted(l, key=lambda a: a.id)]: a stable sort by id. *)
Fixpoint sorted_by_id {R} (l : list (Particle R)) : list (Particle R) :=
  match l with
  | [] => []
  | p :: l' => insert_by_id p (sorted_by_id l')
  end.

(** [sort(system)]; it returns the list of particles. *)
Definition sort {R} (system : System R) : list (Particle R) :=
  sorted_by_id (particle system).

(** [filter_id(system, species)] *)
Definition filter_id {R} (system : System R) (species : Z) : System R :=
  set_particle (filter (fun p => id p =? species) (particle system)) system.

End Callback.

(* ================================================================== *)
(** ** The decorators Sliced, MatrixFix, NormalizeId and Sorted *)

Module Sliced.

Import TrajectoryBase.

Record attributes (X : Type) : Type := Attributes {
  component : X;
  _sliced_samples : list Z
}.
Arguments Attributes {X}.
Arguments component {X}.
Arguments _sliced_samples {X}.

Definition set_component {X} (c : X) (a : attributes X) : attributes X :=
  Attributes c (_sliced_samples a).

Definition super {X A} : M (t X) A -> M (t (attributes X)) A :=
  super_call component set_component.

(** The object as the methods of the component see it. *)
Definition inner {X} (self : t (attributes X)) : t X :=
  set_attrs (component (attrs self)) self.

(** [Sliced(component, uslice)] for a slice [start:stop:step]. *)
Definition __init__ {X} (c : t X) (start stop step : option Z)
  : outcome (t (attributes X)) :=
  match Slice.getslice (range (len (steps c))) start stop step with
  | Raise e => Raise e
  | Return samples =>
      match Slice.getslice (steps c) start stop step with
      | Raise e => Raise e
      | Return sliced =>
          Return (set_steps sliced (set_attrs (Attributes (attrs c) samples) c))
      end
  end.

Definition read_sample {X F} {m : Methods X F} (sample : Z)
  : M (t (attributes X)) F :=
  self <- get ;;
  i <- lift (PyList.getitem (_sliced_samples (attrs self)) sample) ;;
  super (TrajectoryBase.read_sample i).

End Sliced.

Module MatrixFix.

Import TrajectoryBase.

Record attributes (X : Type) : Type := Attributes {
  component : X;
  matrix_species : list Z
}.
Arguments Attributes {X}.
Arguments component {X}.
Arguments matrix_species {X}.

Definition set_component {X} (c : X) (a : attributes X) : attributes X :=
  Attributes c (matrix_species a).

Definition super {X A} : M (t X) A -> M (t (attributes X)) A :=
  super_call component set_component.

Definition inner {X} (self : t (attributes X)) : t X :=
  set_attrs (component (attrs self)) self.

Definition __init__ {X} (c : t X) (matrix_species : list Z)
  : t (attributes X) :=
  set_attrs (Attributes (attrs c) matrix_species) c.

(** [[p for p in particle if p.id not in matrix_species]] *)
Definition fluid {R} (matrix_species : list Z) (ps : list (Particle R))
  : list (Particle R) :=
  filter (fun p => negb (int_in (id p) matrix_species)) ps.

Definition read_sample {R X} {m : Methods X (frame R)} (sample : Z)
  : M (t (attributes X)) (frame R) :=
  s <- super (TrajectoryBase.read_sample sample) ;;
  self <- get ;;
  match s with
  | None => raise AttributeError
  | Some s =>
      ret (Some (set_particle
                   (fluid (matrix_species (attrs self)) (particle s)) s))
  end.

End MatrixFix.

Module NormalizeId.

Import TrajectoryBase.

(** [numpy.min] of a non-empty list of integers, from its head on. *)
Definition minimum (x : Z) (l : list Z) : Z := fold_left Z.min l x.

(** [_normalize(pl)]: [numpy.min] refuses an empty list. *)
Definition _normalize {R} (pl : list (Particle R))
  : outcome (list (Particle R)) :=
  match map id pl with
  | [] => Raise ValueError
  | x :: pid =>
      let id_min := minimum x pid in
      if id_min =? 0
      then Return (map (fun p => set_id (id p + 1) p) pl)
      else Return pl
  end.

(** The decorator adds no attribute to the object. *)
Definition read_sample {R X} {m : Methods X (frame R)} (sample : Z)
  : M (t X) (frame R) :=
  s <- TrajectoryBase.read_sample sample ;;
  match s with
  | None => raise AttributeError
  | Some s =>
      pl <- lift (_normalize (particle s)) ;;
      ret (Some (set_particle pl s))
  end.

End NormalizeId.

Module Sorted.

Import TrajectoryBase.

(** The decorator adds no attribute to the object;
    [s.particle.sort(key=lambda a: a.id)] is a stable sort by id. *)
Definition read_sample {R X} {m : Methods X (frame R)} (sample : Z)
  : M (t X) (frame R) :=
  s <- TrajectoryBase.read_sample sample ;;
  match s with
  | None => raise AttributeError
  | Some s => ret (Some (set_particle (Callback.sorted_by_id (particle s)) s))
  end.

End Sorted.

(* ================================================================== *)
(** ** Reading through a SuperTrajectory *)

Module SuperRead.

Import TrajectoryBase SuperTrajectory.

Definition set_last_trajectory {X} (v : option (TrajectoryBase.t X))
  (self : t (attributes X)) : t (attributes X) :=
  set_attrs (Attributes (files (attrs self)) (_steps_file (attrs self))
                        (_steps_frame (attrs self)) v) self.

(** [self._last_trajectory.close(); self._last_trajectory = ...(f)]:
    the cached object is the one that [close] acts on. *)
Definition reopen {X} {tc : TrajectoryClass X} {fh : FileHandle X}
  (last : TrajectoryBase.t X) (f : string) : M (t (attributes X)) unit :=
  match close last with
  | (last', Raise e) =>
      modify (set_last_trajectory (Some last')) ;;; raise e
  | (last', Return _) =>
      modify (set_last_trajectory (Some last')) ;;;
      sub <- lift (trajectoryclass f) ;;
      modify (set_last_trajectory (Some sub))
  end.

(** The index lists have one length, and [cache] is the cached
    sub-trajectory. *)
Definition index_invariant {X} (cache : option (TrajectoryBase.t X))
  (self : t (attributes X)) : Prop :=
  len (_steps_file (attrs self)) = len (steps self)
  /\ len (_steps_frame (attrs self)) = len (steps self)
  /\ _last_trajectory (attrs self) = cache.

(** [SuperTrajectory.read_sample(frame)]; it returns [t[j]]. *)
Definition read_sample {X F} {cb : Callbacks F} {m : Methods X F}
  {tc : TrajectoryClass X} {fh : FileHandle X} (frame : Z)
  : M (t (attributes X)) (item F) :=
  self <- get ;;
  f <- lift (PyList.getitem (_steps_file (attrs self)) frame) ;;
  j <- lift (PyList.getitem (_steps_frame (attrs self)) frame) ;;
  (match _last_trajectory (attrs self) with
   | None =>
       sub <- lift (trajectoryclass f) ;;
       modify (set_last_trajectory (Some sub))
   | Some last =>
       if negb (String.eqb (filename last) f) || closed last
       then reopen last f
       else ret tt
   end) ;;;
  self <- get ;;
  match _last_trajectory (attrs self) with
  | None => raise TypeError
  | Some t =>
      let '(t', r) := __getitem__ (KeyInt j) t in
      modify (set_last_trajectory (Some t')) ;;; lift r
  end.

(** [SuperTrajectory.close()] *)
Definition close {X} {fh : FileHandle X} : M (t (attributes X)) unit :=
  self <- get ;;
  match _last_trajectory (attrs self) with
  | None => ret tt
  | Some last =>
      match close last with
      | (last', Raise e) =>
          modify (set_last_trajectory (Some last')) ;;; raise e
      | (_, Return _) => modify (set_last_trajectory None)
      end
  end.

End SuperRead.

(* ================================================================== *)
(** ** The parts of [Unfolded.read_sample] *)

Module Skip.

Import TrajectoryBase.

(** What [read_sample] does once the skipped frames have been read:
    lines 147 to 164. *)
Definition after_skip {R} {a : Arith R} {X} {m : Methods X (frame R)}
  (sample : Z) : M (t (Unfolded.attributes R X)) (frame R) :=
  s <- Unfolded.super (TrajectoryBase.read_sample sample) ;;
  modify (Unfolded.set_last_read sample) ;;;
  match s with
  | Some s => Unfolded.unfold s
  | None => raise AttributeError
  end.

(** The frames [first], [first + 1], ... below [sample]. *)
Definition frames_between (first sample : Z) : list Z :=
  map (fun i => first + i) (range (sample - first)).

End Skip.

(* ================================================================== *)
(** * Properties *)

(** ** Membership and the monad *)

Lemma int_in_true (x : Z) (l : list Z) : int_in x l = true <-> In x l.
Proof.
  unfold int_in. rewrite existsb_exists. split.
  - intros (y & Hy & E). apply Z.eqb_eq in E. now subst.
  - intros Hx. exists x. split; [assumption | apply Z.eqb_refl].
Qed.

Lemma int_in_false (x : Z) (l : list Z) : int_in x l = false <-> ~ In x l.
Proof.
  rewrite <- int_in_true. destruct (int_in x l); split; congruence.
Qed.

Lemma int_in_app (x : Z) (l l' : list Z) :
  int_in x (l ++ l') = int_in x l || int_in x l'.
Proof. unfold int_in. apply existsb_app. Qed.

Lemma len_app {A} (l l' : list A) : len (l ++ l') = len l + len l'.
Proof. unfold len. rewrite length_app. lia. Qed.

Lemma len_nonneg {A} (l : list A) : 0 <= len l.
Proof. unfold len. lia. Qed.

(** ** TrajectoryBase.write *)

Section Write.

Import TrajectoryBase.

Context {X F : Type} {m : Methods X F} {K : KeepsSteps m}.

(** What follows the initialisation in [write]. *)
Lemma write_epilogue_run (system : F) (step : Z) (self self1 : t X) :
  steps self1 = steps self ->
  exists self' o,
    (write_sample system step ;;;
     self <- get ;;
     if negb (int_in step (steps self))
     then modify (set_steps (steps self ++ [step]))
     else ret tt) self1 = (self', o)
    /\ ((exists e, o = Raise e /\ steps self' = steps self)
        \/ (o = Return tt /\ In step (steps self)
            /\ steps self' = steps self)
        \/ (o = Return tt /\ ~ In step (steps self)
            /\ steps self' = steps self ++ [step])).
Proof.
  intros P. unfold bind, get, ret, modify.
  pose proof (write_sample_steps system step self1) as Q.
  destruct (write_sample system step self1) as [self2 [[]|e]]; cbn in Q.
  - rewrite Q, P. destruct (int_in step (steps self)) eqn:E; cbn.
    + apply int_in_true in E. do 2 eexists. split; [reflexivity|].
      right. left. repeat split; congruence.
    + apply int_in_false in E. do 2 eexists. split; [reflexivity|].
      right. right. repeat split; cbn; congruence.
  - do 2 eexists. split; [reflexivity|]. left. exists e. split; congruence.
Qed.

Lemma write_run (system : F) (step : Z) (self : t X) :
  exists self' o,
    write system step self = (self', o)
    /\ ((exists e, o = Raise e /\ steps self' = steps self)
        \/ (o = Return tt /\ In step (steps self)
            /\ steps self' = steps self)
        \/ (o = Return tt /\ ~ In step (steps self)
            /\ steps self' = steps self ++ [step])).
Proof.
  unfold write, bind at 1, get.
  destruct (String.eqb (mode self) "r").
  { do 2 eexists. split; [reflexivity|]. left. now exists IOError. }
  unfold bind at 1.
  destruct (_initialized_write self); cbn [negb].
  - exact (write_epilogue_run system step self self eq_refl).
  - unfold bind at 1.
    pose proof (write_init_steps system self) as E.
    destruct (write_init system self) as [self1 [[]|e]]; cbn in E.
    + exact (write_epilogue_run system step self
               (set_initialized_write true self1) E).
    + do 2 eexists. split; [reflexivity|]. left. now exists e.
Qed.

(** One [write]: it raises and the step index is untouched, or it
    returns and the step was there already, or it returns and has
    appended the step, which was not there. *)
Lemma write_cases (system : F) (step : Z) (self : t X) :
  (exists e, snd (write system step self) = Raise e
             /\ steps (fst (write system step self)) = steps self)
  \/ (snd (write system step self) = Return tt
      /\ In step (steps self)
      /\ steps (fst (write system step self)) = steps self)
  \/ (snd (write system step self) = Return tt
      /\ ~ In step (steps self)
      /\ steps (fst (write system step self)) = steps self ++ [step]).
Proof.
  destruct (write_run system step self) as (self' & o & -> & C). exact C.
Qed.

Lemma write_NoDup (system : F) (step : Z) (self : t X) :
  NoDup (steps self) -> NoDup (steps (fst (write system step self))).
Proof.
  intros N.
  destruct (write_cases system step self)
    as [(e & _ & E) | [(_ & _ & E) | (_ & NI & E)]];
    rewrite E; try assumption.
  apply NoDup_app; [assumption | repeat constructor; intros [] | ].
  intros x Hx [<- | []]. contradiction.
Qed.

Lemma writes_NoDup (ws : list (F * Z)) (self : t X) :
  NoDup (steps self) -> NoDup (steps (writes ws self)).
Proof.
  revert self. induction ws as [| [system step] ws IH]; intros self N; cbn.
  - assumption.
  - apply IH, write_NoDup, N.
Qed.

Lemma write_present (system : F) (step : Z) (self : t X) :
  In step (steps self) -> steps (fst (write system step self)) = steps self.
Proof.
  intros I.
  destruct (write_cases system step self)
    as [(e & _ & E) | [(_ & _ & E) | (_ & NI & E)]];
    try assumption; contradiction.
Qed.

Lemma write_returned_present (system : F) (step : Z) (self : t X) :
  snd (write system step self) = Return tt ->
  In step (steps (fst (write system step self))).
Proof.
  intros R.
  destruct (write_cases system step self)
    as [(e & Re & _) | [(_ & I & E) | (_ & _ & E)]].
  - congruence.
  - now rewrite E.
  - rewrite E. apply in_or_app. right. now left.
Qed.

Lemma write_raised_steps (system : F) (step : Z) (self : t X) (e : exn) :
  snd (write system step self) = Raise e ->
  steps (fst (write system step self)) = steps self.
Proof.
  intros R.
  destruct (write_cases system step self)
    as [(e' & _ & E) | [(R' & _ & _) | (R' & _ & _)]];
    [assumption | congruence | congruence].
Qed.

End Write.

(** C1: a [write] at a step that is already in [steps] appends nothing.
    From the object made by [__init__], and from any object whose
    [steps] has no repetition, every sequence of [write] calls leaves
    [steps] without repetition; a [write] at a step that is present
    leaves [steps] as it is; and once a [write] at a step has returned,
    a second [write] at that step leaves [steps], and so [len(steps)],
    unchanged.  The format's [write_init] and [write_sample] are taken
    not to assign [steps]. *)
Theorem write_never_duplicates_a_step {X F : Type}
  (m : TrajectoryBase.Methods X F) (K : KeepsSteps m) :
  (forall (fs : FileSystem) filename mode extra self ws,
      TrajectoryBase.__init__ filename mode extra = Return self ->
      NoDup (TrajectoryBase.steps (writes ws self)))
  /\ (forall self ws,
        NoDup (TrajectoryBase.steps self) ->
        NoDup (TrajectoryBase.steps (writes ws self)))
  /\ (forall self system step,
        In step (TrajectoryBase.steps self) ->
        TrajectoryBase.steps (fst (TrajectoryBase.write system step self))
        = TrajectoryBase.steps self)
  /\ (forall self system1 system2 step,
        snd (TrajectoryBase.write system1 step self) = Return tt ->
        let self1 := fst (TrajectoryBase.write system1 step self) in
        let self2 := fst (TrajectoryBase.write system2 step self1) in
        In step (TrajectoryBase.steps self1)
        /\ TrajectoryBase.steps self2 = TrajectoryBase.steps self1
        /\ len (TrajectoryBase.steps self2) = len (TrajectoryBase.steps self1)).
Proof.
  split; [|split; [|split]].
  - intros fs filename mode extra self ws I.
    apply writes_NoDup. unfold TrajectoryBase.__init__ in I.
    destruct (_ && _); [discriminate|]. injection I as <-. constructor.
  - intros self ws N. now apply writes_NoDup.
  - intros self system step I. now apply write_present.
  - intros self system1 system2 step R self1 self2.
    pose proof (write_returned_present system1 step self R) as I.
    pose proof (write_present system2 step _ I) as E.
    subst self1 self2. rewrite E. auto.
Qed.

(** The format held in memory does not assign [steps]. *)
Lemma memory_keeps_steps (F : Type) : KeepsSteps (Memory.methods F).
Proof. split; reflexivity. Defined.

Lemma write_never_duplicates_a_step_witness :
  let self := TrajectoryBase.Build "out.xyz" "w" [] [10] false false
                ([] : Memory.store (frame Q)) in
  let self1 :=
    fst (TrajectoryBase.write (Some Memory.frame0) 20 self) in
  (forall self0 : TrajectoryBase.t (Memory.store (frame Q)),
      TrajectoryBase.__init__ (fs := Memory.any_path) "out.xyz" "w" []
      = Return self0 ->
      NoDup (TrajectoryBase.steps
               (writes [(Some Memory.frame0, 5); (Some Memory.frame1, 5)]
                       self0)))
  /\ NoDup (TrajectoryBase.steps
           (writes [(Some Memory.frame0, 0); (Some Memory.frame1, 10);
                    (Some Memory.frame2, 10); (Some Memory.frame2, 0)] self))
  /\ TrajectoryBase.steps
       (fst (TrajectoryBase.write (Some Memory.frame1) 10 self)) = [10]
  /\ len (TrajectoryBase.steps
            (fst (TrajectoryBase.write (Some Memory.frame1) 20 self1)))
     = len (TrajectoryBase.steps self1).
Proof.
  intros self self1.
  pose proof (write_never_duplicates_a_step
                (Memory.methods (frame Q)) (memory_keeps_steps (frame Q)))
    as (H1 & H2 & H3 & H4).
  split; [|split; [|split]].
  - intros self0 I.
    exact (H1 Memory.any_path "out.xyz"%string "w"%string [] self0 _ I).
  - apply H2. repeat constructor. intros [].
  - apply (H3 self). now left.
  - apply (H4 self (Some Memory.frame0) (Some Memory.frame1) 20). reflexivity.
Defined.

(** C8: a [write] that raises leaves [steps] as it was.  In particular,
    when [write_sample] raises in the state in which [write] calls it,
    [write] raises that error and [steps] is unchanged; and [steps]
    changes only in a [write] that returns, by the append of the step,
    which comes after [write_sample].  The format's [write_init] and
    [write_sample] are taken not to assign [steps]. *)
Theorem write_failure_keeps_steps {X F : Type}
  (m : TrajectoryBase.Methods X F) (K : KeepsSteps m) :
  (forall self system step e,
      snd (TrajectoryBase.write system step self) = Raise e ->
      TrajectoryBase.steps (fst (TrajectoryBase.write system step self))
      = TrajectoryBase.steps self)
  /\ (forall self self1 system step e,
        TrajectoryBase.mode self <> "r"%string ->
        (if negb (TrajectoryBase._initialized_write self)
         then TrajectoryBase.write_init system ;;;
              modify (TrajectoryBase.set_initialized_write true)
         else ret tt) self = (self1, Return tt) ->
        snd (TrajectoryBase.write_sample system step self1) = Raise e ->
        TrajectoryBase.write system step self
        = (fst (TrajectoryBase.write_sample system step self1), Raise e)
        /\ TrajectoryBase.steps (fst (TrajectoryBase.write system step self))
           = TrajectoryBase.steps self)
  /\ (forall self system step,
        TrajectoryBase.steps (fst (TrajectoryBase.write system step self))
        <> TrajectoryBase.steps self ->
        snd (TrajectoryBase.write system step self) = Return tt
        /\ TrajectoryBase.steps (fst (TrajectoryBase.write system step self))
           = TrajectoryBase.steps self ++ [step]).
Proof.
  split; [|split].
  - intros self system step e R. eapply write_raised_steps, R.
  - intros self self1 system step e Hm P R.
    assert (W : TrajectoryBase.write system step self
                = (fst (TrajectoryBase.write_sample system step self1), Raise e)).
    { unfold TrajectoryBase.write, bind at 1, get.
      apply String.eqb_neq in Hm. rewrite Hm.
      unfold bind at 1. rewrite P. unfold bind at 1.
      destruct (TrajectoryBase.write_sample system step self1)
        as [self2 [[]|e']]; cbn in R; [discriminate|].
      cbn. congruence. }
    split; [exact W|].
    apply (write_raised_steps system step self e). now rewrite W.
  - intros self system step N.
    destruct (write_cases system step self)
      as [(e & _ & E) | [(_ & _ & E) | (R & _ & E)]];
      [contradiction | contradiction | auto].
Qed.

(** [TrajectoryBase] itself, whose [write_sample] raises, does not
    assign [steps]. *)
Lemma abstract_keeps_steps (X F : Type)
  : KeepsSteps (TrajectoryBase.abstract X F).
Proof. split; reflexivity. Defined.

Lemma write_failure_keeps_steps_witness :
  let self := TrajectoryBase.Build "out.xyz" "w" [] [0; 10] false false tt in
  TrajectoryBase.write (m := TrajectoryBase.abstract unit (frame Q))
    (Some Memory.frame0) 20 self
  = (TrajectoryBase.set_initialized_write true self, Raise NotImplementedError)
  /\ TrajectoryBase.steps
       (fst (TrajectoryBase.write
               (m := TrajectoryBase.abstract unit (frame Q))
               (Some Memory.frame0) 20 self)) = [0; 10].
Proof.
  intros self.
  pose proof (write_failure_keeps_steps
                (TrajectoryBase.abstract unit (frame Q))
                (abstract_keeps_steps unit (frame Q)))
    as (H1 & H2 & _).
  split.
  - apply (H2 self (TrajectoryBase.set_initialized_write true self)
              (Some Memory.frame0) 20 NotImplementedError).
    + discriminate.
    + reflexivity.
    + reflexivity.
  - apply (H1 self (Some Memory.frame0) 20 NotImplementedError). reflexivity.
Defined.

(** ** TrajectoryBase.register_callback *)


(** C5: the guard of [register_callback] looks for the callback among
    the entries [[cbk, args, kwargs]] of the list, where a function
    object is never found: on a trajectory without callbacks, two
    registrations of one and the same function leave two entries for
    it. *)
Theorem register_callback_twice_adds_two_entries {X : Type}
  (filename mode : string) (steps : list Z) (iw ir : bool) (extra : X)
  (name : string) (args args' : list pyobj)
  (kwargs kwargs' : list (string * pyobj)) :
  let self := TrajectoryBase.Build filename mode [] steps iw ir extra in
  let cbk := PyFunc name in
  let self1 := fst (TrajectoryBase.register_callback cbk args kwargs self) in
  let self2 := fst (TrajectoryBase.register_callback cbk args' kwargs' self1) in
  TrajectoryBase.callbacks self2
  = [PyList [cbk; PyTuple args; PyDict kwargs];
     PyList [cbk; PyTuple args'; PyDict kwargs']]
  /\ len (TrajectoryBase.callbacks self2) = 2.
Proof. cbn. split; reflexivity. Qed.

(** ** TrajectoryBase.__getitem__ *)

Section GetItem.

Import TrajectoryBase.

Context {X F : Type} {cb : Callbacks F} {m : Methods X F}.

Lemma getitem_int (k : Z) (self : t X) :
  __getitem__ (KeyInt k) self
  = let r := if k <? 0 then k + len (steps self) else k in
    if r >=? len (steps self) then (self, Raise IndexError)
    else (s <- read r ;; ret (Frame s)) self.
Proof.
  unfold __getitem__, bind at 1, get, __len__. cbv zeta.
  now destruct (_ >=? _).
Qed.

End GetItem.

(** C7: [traj[key]] with an [int] key below zero reads at
    [key + len(steps)]; it raises [IndexError], without reading, exactly
    when the resolved key is at least [len(steps)], as for
    [traj[len(traj)]]; a key in range is read as it is; and a key that
    is neither an [int] nor a slice raises [TypeError]. *)
Theorem getitem_resolves_and_checks {X F : Type} (cb : Callbacks F)
  (m : TrajectoryBase.Methods X F) (self : TrajectoryBase.t X) :
  (forall k, k < 0 ->
      TrajectoryBase.__getitem__ (TrajectoryBase.KeyInt k) self
      = (s <- TrajectoryBase.read (k + len (TrajectoryBase.steps self)) ;;
         ret (TrajectoryBase.Frame s)) self)
  /\ (forall k, 0 <= k < len (TrajectoryBase.steps self) ->
        TrajectoryBase.__getitem__ (TrajectoryBase.KeyInt k) self
        = (s <- TrajectoryBase.read k ;; ret (TrajectoryBase.Frame s)) self)
  /\ (forall k,
        (if k <? 0 then k + len (TrajectoryBase.steps self) else k)
        >= len (TrajectoryBase.steps self) ->
        TrajectoryBase.__getitem__ (TrajectoryBase.KeyInt k) self
        = (self, Raise IndexError))
  /\ TrajectoryBase.__getitem__
       (TrajectoryBase.KeyInt (TrajectoryBase.__len__ self)) self
     = (self, Raise IndexError)
  /\ (forall o,
        TrajectoryBase.__getitem__ (TrajectoryBase.KeyOther o) self
        = (self, Raise TypeError)).
Proof.
  pose proof (len_nonneg (TrajectoryBase.steps self)) as L.
  repeat split.
  - intros k Hk. rewrite getitem_int. cbv zeta.
    destruct (Z.ltb_spec k 0) as [_|]; [|lia].
    destruct (Z.geb_spec (k + len (TrajectoryBase.steps self))
                         (len (TrajectoryBase.steps self))); [lia|reflexivity].
  - intros k Hk. rewrite getitem_int. cbv zeta.
    destruct (Z.ltb_spec k 0); [lia|].
    destruct (Z.geb_spec k (len (TrajectoryBase.steps self)));
      [lia|reflexivity].
  - intros k Hk. rewrite getitem_int. cbv zeta.
    destruct (Z.geb_spec
                (if k <? 0 then k + len (TrajectoryBase.steps self) else k)
                (len (TrajectoryBase.steps self))); [reflexivity|lia].
  - rewrite getitem_int. cbv zeta. unfold TrajectoryBase.__len__.
    destruct (Z.ltb_spec (len (TrajectoryBase.steps self)) 0); [lia|].
    destruct (Z.geb_spec (len (TrajectoryBase.steps self))
                         (len (TrajectoryBase.steps self)));
      [reflexivity|lia].
Qed.

Lemma getitem_resolves_and_checks_witness :
  let self := Memory.open "traj.xyz"
                [(0, Some Memory.frame0); (10, Some Memory.frame1)] in
  let cb := Memory.no_callbacks (frame Q) in
  TrajectoryBase.__getitem__ (TrajectoryBase.KeyInt (-1)) self
  = (s <- TrajectoryBase.read 1 ;; ret (TrajectoryBase.Frame s)) self
  /\ TrajectoryBase.__getitem__ (TrajectoryBase.KeyInt 1) self
     = (s <- TrajectoryBase.read 1 ;; ret (TrajectoryBase.Frame s)) self
  /\ TrajectoryBase.__getitem__ (TrajectoryBase.KeyInt 5) self
     = (self, Raise IndexError)
  /\ TrajectoryBase.__getitem__ (TrajectoryBase.KeyInt 2) self
     = (self, Raise IndexError)
  /\ TrajectoryBase.__getitem__ (TrajectoryBase.KeyOther (PyStr "x")) self
     = (self, Raise TypeError).
Proof.
  intros self cb.
  destruct (getitem_resolves_and_checks cb (Memory.methods (frame Q)) self)
    as (H1 & H2 & H3 & H4 & H5).
  split; [|split; [|split; [|split]]].
  - apply (H1 (-1)). lia.
  - apply (H2 1). cbn. lia.
  - apply (H3 5). cbn. lia.
  - exact H4.
  - apply H5.
Defined.

(** C9: an [int] key below [-len(steps)] is still below zero after
    [len(steps)] has been added once; the range check of [__getitem__],
    which only looks at the upper end, lets it through, and [traj[key]]
    is [read(key + len(steps))], whatever that gives, and not the
    [IndexError] of [__getitem__]. *)
Theorem getitem_below_minus_len_reaches_read {X F : Type}
  (cb : Callbacks F) (m : TrajectoryBase.Methods X F)
  (self : TrajectoryBase.t X) (k : Z) :
  k < - len (TrajectoryBase.steps self) ->
  k + len (TrajectoryBase.steps self) < 0
  /\ TrajectoryBase.__getitem__ (TrajectoryBase.KeyInt k) self
     = (s <- TrajectoryBase.read (k + len (TrajectoryBase.steps self)) ;;
        ret (TrajectoryBase.Frame s)) self.
Proof.
  intros Hk. pose proof (len_nonneg (TrajectoryBase.steps self)) as L.
  split; [lia|].
  rewrite getitem_int. cbv zeta.
  destruct (Z.ltb_spec k 0) as [_|]; [|lia].
  destruct (Z.geb_spec (k + len (TrajectoryBase.steps self))
                       (len (TrajectoryBase.steps self))); [lia|reflexivity].
Qed.

Lemma getitem_below_minus_len_reaches_read_witness :
  let self := Memory.open "traj.xyz"
                [(0, Some Memory.frame0); (10, Some Memory.frame1)] in
  let cb := Memory.no_callbacks (frame Q) in
  -3 + 2 < 0
  /\ TrajectoryBase.__getitem__ (TrajectoryBase.KeyInt (-3)) self
     = (s <- TrajectoryBase.read (-1) ;; ret (TrajectoryBase.Frame s)) self.
Proof.
  intros self cb.
  apply (getitem_below_minus_len_reaches_read cb (Memory.methods (frame Q))
           self (-3)).
  cbn. lia.
Defined.

(** ** Sorting the paths *)

Lemma insert_perm (x : string) (l : list string) :
  Permutation (x :: l) (Path.insert x l).
Proof.
  induction l as [|y l IH]; cbn; [reflexivity|].
  destruct (String.leb x y); [reflexivity|].
  rewrite perm_swap. now constructor.
Qed.

Lemma sort_perm (l : list string) : Permutation l (Path.sort l).
Proof.
  induction l as [|x l IH]; cbn; [constructor|].
  rewrite <- insert_perm. now constructor.
Qed.

Lemma insert_sorted (x : string) (l : list string) :
  Sorted Path.path_le l -> Sorted Path.path_le (Path.insert x l).
Proof.
  induction l as [|y l IH]; intros S; cbn.
  - repeat constructor.
  - destruct (String.leb x y) eqn:E.
    + constructor; [assumption|]. now constructor.
    + assert (yx : Path.path_le y x).
      { destruct (String.leb_total x y) as [T|T]; [congruence|exact T]. }
      inversion S as [|? ? S' Hd]; subst.
      constructor; [now apply IH|].
      destruct l as [|z l]; cbn.
      * now constructor.
      * destruct (String.leb x z); constructor; [assumption|].
        now inversion Hd.
Qed.

Lemma sort_sorted (l : list string) : Sorted Path.path_le (Path.sort l).
Proof.
  induction l as [|x l IH]; cbn; [constructor|]. now apply insert_sorted.
Qed.

(** ** The index of a SuperTrajectory *)

Section Index.

Import TrajectoryBase SuperTrajectory.

Context {X : Type} {tc : TrajectoryClass X} {fh : FileHandle X}.

Lemma last_item_snoc {A} (l : list A) (x : A) : last_item (l ++ [x]) = Some x.
Proof. unfold last_item. now rewrite rev_app_distr. Qed.

(** The guard of the loop body, in terms of the last recorded step. *)
Lemma guard_last_item (step : Z) (l : list Z) :
  (len l =? 0) || negb (step =? last l 0)
  = match last_item l with
    | None => true
    | Some p => negb (step =? p)
    end.
Proof.
  destruct l as [|x l] using rev_ind; [reflexivity|].
  rewrite last_item_snoc, last_last, len_app.
  pose proof (len_nonneg l). cbn [len List.length Z.of_nat].
  destruct (Z.eqb_spec (len l + Z.pos (Pos.of_succ_nat 0)) 0); [lia|].
  reflexivity.
Qed.

Lemma extended_nil (self : t (attributes X)) : extended [] self self.
Proof. unfold extended. cbn. now rewrite !app_nil_r. Qed.

Lemma extended_app (D1 D2 : list (Z * string * Z))
  (self self1 self2 : t (attributes X)) :
  extended D1 self self1 -> extended D2 self1 self2 ->
  extended (D1 ++ D2) self self2.
Proof.
  unfold extended. intros (a & b & c & d) (a' & b' & c' & d').
  rewrite !map_app, !app_assoc. repeat split; congruence.
Qed.

Lemma index_step_run (f : string) (j step : Z) (self : t (attributes X)) :
  exists self',
    index_step f (j, step) self = (self', Return tt)
    /\ extended (dedup_from (last_item (steps self)) [(step, f, j)])
                self self'.
Proof.
  unfold index_step, bind, get. rewrite guard_last_item.
  destruct (last_item (steps self)) as [p|]; cbn [dedup_from].
  - destruct (step =? p); cbn [negb].
    + eexists. split; [reflexivity|]. apply extended_nil.
    + eexists. split; [reflexivity|]. now unfold extended.
  - eexists. split; [reflexivity|]. now unfold extended.
Qed.

Lemma dedup_from_app (l1 l2 : list (Z * string * Z)) (st : list Z) :
  dedup_from (last_item st) (l1 ++ l2)
  = dedup_from (last_item st) l1
    ++ dedup_from
         (last_item (st ++ map step_of (dedup_from (last_item st) l1))) l2.
Proof.
  revert st. induction l1 as [|[[step f] j] l1 IH]; intros st.
  - cbn. now rewrite app_nil_r.
  - cbn [app dedup_from].
    assert (Keep : (step, f, j) :: dedup_from (Some step) (l1 ++ l2)
                   = ((step, f, j) :: dedup_from (Some step) l1)
                     ++ dedup_from
                          (last_item
                             (st ++ map step_of
                                      ((step, f, j)
                                       :: dedup_from (Some step) l1))) l2).
    { specialize (IH (st ++ [step])). rewrite last_item_snoc in IH.
      rewrite IH. cbn [map app step_of fst]. now rewrite <- app_assoc. }
    destruct (last_item st) as [p|] eqn:E; [|exact Keep].
    destruct (step =? p); [|exact Keep].
    rewrite <- E. apply IH.
Qed.

Lemma index_entries_run (f : string) (es : list (Z * Z))
  (self : t (attributes X)) :
  exists self',
    for_each es (index_step f) self = (self', Return tt)
    /\ extended (dedup_from (last_item (steps self))
                            (map (fun '(j, step) => (step, f, j)) es))
                self self'.
Proof.
  revert self. induction es as [|[j step] es IH]; intros self.
  - exists self. split; [reflexivity|]. apply extended_nil.
  - destruct (index_step_run f j step self) as (self1 & R1 & E1).
    destruct (IH self1) as (self2 & R2 & E2).
    exists self2. split.
    + cbn [for_each]. unfold bind. now rewrite R1.
    + change (map (fun '(j, step) => (step, f, j)) ((j, step) :: es))
        with ([(step, f, j)] ++ map (fun '(j, step) => (step, f, j)) es).
      rewrite dedup_from_app.
      eapply extended_app; [exact E1|].
      destruct E1 as (E1 & _). cbn [map] in E1. rewrite <- E1. exact E2.
Qed.

(** One file that opens and closes: its entries are recorded. *)
Lemma index_file_run (f : string) (sub : TrajectoryBase.t X)
  (self : t (attributes X)) :
  trajectoryclass f = Return sub ->
  snd (close sub) = Return tt ->
  exists self',
    index_file f self = (self', Return tt)
    /\ extended (dedup_from (last_item (steps self))
                            (map (fun '(j, step) => (step, f, j))
                                 (enumerate (steps sub))))
                self self'.
Proof.
  intros Of Cl.
  destruct (index_entries_run f (enumerate (steps sub)) self)
    as (self1 & R1 & E1).
  exists self1. split; [|exact E1].
  unfold index_file, with_trajectory. now rewrite Of, R1, Cl.
Qed.

(** A file whose [close] raises: the error leaves the loop, after the
    entries of the file have been recorded. *)
Lemma index_file_close_raises (f : string) (sub : TrajectoryBase.t X)
  (e : exn) (self : t (attributes X)) :
  trajectoryclass f = Return sub ->
  snd (close sub) = Raise e ->
  snd (index_file f self) = Raise e.
Proof.
  intros Of Cl.
  unfold index_file, with_trajectory. rewrite Of.
  destruct (for_each _ _ self) as [self1 r]. now rewrite Cl.
Qed.

Lemma index_files_run (steps_of : string -> list Z) (fs : list string)
  (self : t (attributes X)) :
  (forall f, In f fs ->
     exists sub, trajectoryclass f = Return sub /\ steps sub = steps_of f
                 /\ snd (close sub) = Return tt) ->
  exists self',
    for_each fs index_file self = (self', Return tt)
    /\ extended (dedup_from (last_item (steps self)) (all_entries steps_of fs))
                self self'.
Proof.
  revert self. induction fs as [|f fs IH]; intros self O.
  - exists self. split; [reflexivity|]. apply extended_nil.
  - destruct (O f (or_introl eq_refl)) as (sub & Of & Sf & Cl).
    destruct (index_file_run f sub self Of Cl) as (self1 & R1 & E1).
    destruct (IH self1 (fun g I => O g (or_intror I))) as (self2 & R2 & E2).
    exists self2. split.
    + cbn [for_each]. unfold bind at 1.
      rewrite R1. exact R2.
    + unfold all_entries. cbn [flat_map]. rewrite dedup_from_app.
      rewrite <- Sf. eapply extended_app; [exact E1|].
      destruct E1 as (E1 & _). rewrite <- E1. exact E2.
Qed.

Lemma for_each_app {S A} (l1 l2 : list A) (body : A -> M S unit) (s : S) :
  for_each (l1 ++ l2) body s
  = (for_each l1 body ;;; for_each l2 body) s.
Proof.
  revert s. induction l1 as [|x l1 IH]; intros s; cbn [app for_each].
  - reflexivity.
  - unfold bind. destruct (body x s) as [s' [[]|e]]; [|reflexivity].
    rewrite IH. reflexivity.
Qed.

(** The files before the first one whose [close] raises are indexed;
    the error of that [close] ends the loop. *)
Lemma index_files_close_raises (pre : list string) (f : string) (post : list string)
  (sub : TrajectoryBase.t X) (e : exn)
  (self : TrajectoryBase.t (SuperTrajectory.attributes X)) :
  (forall g, In g pre ->
     exists sub', SuperTrajectory.trajectoryclass g = Return sub'
                  /\ snd (close sub') = Return tt) ->
  SuperTrajectory.trajectoryclass f = Return sub ->
  snd (close sub) = Raise e ->
  snd (for_each (pre ++ f :: post) SuperTrajectory.index_file self) = Raise e.
Proof.
  intros OP Of Cl.
  destruct (index_files_run
              (fun g => match SuperTrajectory.trajectoryclass g with
                        | Return sub' => TrajectoryBase.steps sub'
                        | Raise _ => []
                        end) pre self) as (self1 & R1 & _).
  { intros g I. destruct (OP g I) as (sub' & Og & Cg).
    exists sub'. now rewrite Og. }
  rewrite for_each_app. unfold bind at 1. rewrite R1.
  cbn [for_each]. unfold bind at 1.
  pose proof (index_file_close_raises f sub e self1 Of Cl) as Rf.
  destruct (SuperTrajectory.index_file f self1) as [self2 r].
  cbn [snd] in Rf. now rewrite Rf.
Qed.

End Index.

(** C2: on a non-empty collection of files that can be opened, and
    whose [close] at the end of the [with] block returns,
    [SuperTrajectory.__init__] returns an object whose [files] are the
    given paths in increasing order and whose index, held in the parallel
    lists [steps], [_steps_file] and [_steps_frame], has one entry
    [(step, file, local frame)] per step of each file, in that order,
    without the entries whose step equals the step recorded immediately
    before.  For three files that hold, in sorted order, the steps [0],
    [10] and [10], the object has two frames and [steps == [0, 10]].
    When the first file whose [close] raises comes after files that open
    and close, [__init__] raises the error of that [close]. *)
Theorem super_trajectory_index {X : Type} (fs : FileSystem)
  (tc : SuperTrajectory.TrajectoryClass X) (fh : FileHandle X)
  (files : list string) (mode : string) (steps_of : string -> list Z) :
  files <> [] ->
  (mode = "r"%string ->
   path_exists (Path.dirname (nth 0 files ""%string)) = true) ->
  ((forall f, In f files ->
      exists sub, SuperTrajectory.trajectoryclass f = Return sub
                  /\ TrajectoryBase.steps sub = steps_of f
                  /\ snd (close sub) = Return tt) ->
   exists self,
     SuperTrajectory.__init__ files mode = Return self
     /\ SuperTrajectory.files (TrajectoryBase.attrs self) = Path.sort files
     /\ Sorted Path.path_le (Path.sort files)
     /\ Permutation files (Path.sort files)
     /\ TrajectoryBase.steps self
        = map SuperTrajectory.step_of (SuperTrajectory.spec_index steps_of files)
     /\ SuperTrajectory._steps_file (TrajectoryBase.attrs self)
        = map SuperTrajectory.file_of (SuperTrajectory.spec_index steps_of files)
     /\ SuperTrajectory._steps_frame (TrajectoryBase.attrs self)
        = map SuperTrajectory.frame_of (SuperTrajectory.spec_index steps_of files)
     /\ (forall f1 f2 f3,
           Path.sort files = [f1; f2; f3] ->
           steps_of f1 = [0] -> steps_of f2 = [10] -> steps_of f3 = [10] ->
           TrajectoryBase.steps self = [0; 10]
           /\ SuperTrajectory._steps_file (TrajectoryBase.attrs self) = [f1; f2]
           /\ SuperTrajectory._steps_frame (TrajectoryBase.attrs self) = [0; 0]
           /\ TrajectoryBase.__len__ self = 2))
  /\ (forall pre f post sub e,
         Path.sort files = pre ++ f :: post ->
         (forall g, In g pre ->
            exists sub', SuperTrajectory.trajectoryclass g = Return sub'
                         /\ snd (close sub') = Return tt) ->
         SuperTrajectory.trajectoryclass f = Return sub ->
         snd (close sub) = Raise e ->
         SuperTrajectory.__init__ files mode = Raise e).
Proof.
  intros NE EX.
  assert (L : (len files =? 0) = false).
  { destruct files; [contradiction|]. unfold len. cbn [List.length].
    apply Z.eqb_neq. lia. }
  assert (B : String.eqb mode "r"
              && negb (path_exists (Path.dirname (nth 0 files ""%string)))
              = false).
  { destruct (String.eqb_spec mode "r") as [E|]; [|reflexivity].
    rewrite (EX E). reflexivity. }
  split.
  - intros OP.
    unfold SuperTrajectory.__init__, TrajectoryBase.__init__.
    rewrite L, B.
    set (self0 := TrajectoryBase.set_steps [] _).
    destruct (index_files_run steps_of (Path.sort files) self0)
      as (self & R & E).
    { intros f I. apply OP.
      eapply Permutation_in; [symmetry; apply sort_perm | exact I]. }
    exists self.
    assert (Run : for_each
                    (SuperTrajectory.files (TrajectoryBase.attrs self0))
                    SuperTrajectory.index_file self0 = (self, Return tt))
      by exact R.
    rewrite Run.
    destruct E as (E1 & E2 & E3 & E4). cbn in E1, E2, E3, E4.
    fold (SuperTrajectory.spec_index steps_of files) in E1, E2, E3.
    repeat (split; [first [reflexivity | assumption
                          | apply sort_sorted | apply sort_perm]|]).
    intros f1 f2 f3 S H1 H2 H3.
    unfold TrajectoryBase.__len__. rewrite E1, E2, E3.
    unfold SuperTrajectory.spec_index, SuperTrajectory.all_entries.
    rewrite S. cbn [flat_map]. rewrite H1, H2, H3. cbn. auto.
  - intros pre f post sub e S OP Of Cl.
    unfold SuperTrajectory.__init__, TrajectoryBase.__init__.
    rewrite L, B.
    set (self0 := TrajectoryBase.set_steps [] _).
    assert (Run : snd (for_each
                         (SuperTrajectory.files (TrajectoryBase.attrs self0))
                         SuperTrajectory.index_file self0) = Raise e).
    { change (SuperTrajectory.files (TrajectoryBase.attrs self0))
        with (Path.sort files).
      rewrite S. apply (index_files_close_raises pre f post sub e);
        assumption. }
    destruct (for_each _ _ self0) as [self1 r]. cbn [snd] in Run.
    now rewrite Run.
Qed.

Lemma super_trajectory_index_witness :
  (exists self,
      SuperTrajectory.__init__ (fs := Memory.any_path)
        (tc := Memory.one_frame_files)
        (fh := Memory.file_handle (frame Q))
        ["run/c.xyz"; "run/a.xyz"; "run/b.xyz"]%string "r"
      = Return self
      /\ SuperTrajectory.files (TrajectoryBase.attrs self)
         = ["run/a.xyz"; "run/b.xyz"; "run/c.xyz"]%string
      /\ TrajectoryBase.steps self = [0; 10]
      /\ SuperTrajectory._steps_file (TrajectoryBase.attrs self)
         = ["run/a.xyz"; "run/b.xyz"]%string
      /\ SuperTrajectory._steps_frame (TrajectoryBase.attrs self) = [0; 0]
      /\ TrajectoryBase.__len__ self = 2)
  /\ SuperTrajectory.__init__ (fs := Memory.any_path)
       (tc := Memory.one_frame_files)
       (fh := {| closed := fun _ => false;
                 close := fun sub =>
                   if String.eqb (TrajectoryBase.filename sub) "run/b.xyz"
                   then (sub, Raise IOError) else (sub, Return tt) |})
       ["run/c.xyz"; "run/a.xyz"; "run/b.xyz"]%string "r"
     = Raise IOError.
Proof.
  split.
  - destruct (super_trajectory_index Memory.any_path Memory.one_frame_files
                (Memory.file_handle (frame Q))
                ["run/c.xyz"; "run/a.xyz"; "run/b.xyz"]%string "r"%string
                (fun f => if String.eqb f "run/a.xyz" then [0] else [10]))
      as (H & _).
    + discriminate.
    + reflexivity.
    + destruct H as (self & I & F & _ & _ & _ & _ & _ & Ex).
      * intros f [<- | [<- | [<- | []]]]; eexists; repeat split; reflexivity.
      * exists self. split; [exact I|]. split; [exact F|].
        apply (Ex "run/a.xyz" "run/b.xyz" "run/c.xyz")%string; reflexivity.
  - match goal with
    | |- SuperTrajectory.__init__ (fh := ?h) _ _ = _ =>
        destruct (super_trajectory_index Memory.any_path
                    Memory.one_frame_files h
                    ["run/c.xyz"; "run/a.xyz"; "run/b.xyz"]%string "r"%string
                    (fun _ => [])) as (_ & H)
    end.
    + discriminate.
    + reflexivity.
    + apply (H ["run/a.xyz"%string] "run/b.xyz"%string ["run/c.xyz"%string]
               (Memory.open "run/b.xyz" [(10, Some Memory.frame1)]) IOError).
      * reflexivity.
      * intros g [<- | []]. eexists. split; reflexivity.
      * reflexivity.
      * reflexivity.
Defined.

(** ** Arrays of equal shapes *)

Section ArrayFacts.

Import Numpy.

Context {R : Type} {a : Arith R}.

Lemma zip_with_length {A B C} (f : A -> B -> C) (x : list A) (y : list B) :
  List.length x = List.length y ->
  List.length (zip_with f x y) = List.length x.
Proof.
  revert y. induction x as [|u x IH]; intros [|v y] E; cbn in *;
    try discriminate; [reflexivity|].
  f_equal. apply IH. now injection E.
Qed.

Lemma zip_with_nth_error {A B C} (f : A -> B -> C) (x : list A) (y : list B)
  (i : nat) (u : A) (v : B) :
  nth_error x i = Some u -> nth_error y i = Some v ->
  nth_error (zip_with f x y) i = Some (f u v).
Proof.
  revert y i. induction x as [|u' x IH]; intros [|v' y] [|i] Hu Hv;
    cbn in *; try discriminate.
  - congruence.
  - now apply IH.
Qed.

Lemma sequence_zip_some {A B C} (f : A -> B -> C) (x : list A) (y : list B) :
  sequence (zip_with (fun u v => Some (f u v)) x y) = Some (zip_with f x y).
Proof.
  revert y. induction x as [|u x IH]; intros [|v y]; cbn; try reflexivity.
  now rewrite IH.
Qed.

Lemma broadcast1_equal (op : R -> R -> R) (x y : list R) :
  List.length x = List.length y ->
  broadcast1 op x y = Some (zip_with op x y).
Proof.
  intros E. unfold broadcast1, broadcast.
  rewrite E, Nat.eqb_refl. apply sequence_zip_some.
Qed.

Lemma isub_equal (v w : list R) :
  List.length v = List.length w ->
  isub v w = Return (zip_with fsub v w).
Proof.
  intros E. unfold isub, inplace, binop.
  rewrite (broadcast1_equal _ _ _ E). cbn [option_map].
  unfold same_shape, shape. rewrite (zip_with_length _ _ _ E).
  now destruct (list_eq_dec _ _ _).
Qed.

Lemma halve_length (v : list R) : List.length (halve v) = List.length v.
Proof. apply length_map. Qed.

End ArrayFacts.

(** ** Centered.read_sample *)

Section CenteredFacts.

Import TrajectoryBase.

Context {R : Type} {a : Arith R} {X : Type} {m : Methods X (frame R)}.

(** A call of a method of the component leaves the memo list alone. *)
Lemma super_run {A} (c : M (t X) A) (self : t (Centered.attributes X)) :
  Centered.super c self
  = (set_attrs (Centered.Attributes
                  (attrs (fst (c (Centered.inner self))))
                  (Centered._Centered__done (attrs self)))
               (fst (c (Centered.inner self))),
     snd (c (Centered.inner self))).
Proof.
  unfold Centered.super, super_call, Centered.inner.
  now destruct (c _).
Qed.

Lemma centered_memo_hit (sample : Z) (self : t (Centered.attributes X)) :
  In sample (Centered._Centered__done (attrs self)) ->
  Centered.read_sample sample self = (self, Return None).
Proof.
  intros I. apply int_in_true in I.
  unfold Centered.read_sample, bind, get. now rewrite I.
Qed.

(** After a call for [sample] the key is in the memo list, and so is
    every key that was in it before. *)
Lemma centered_memo_run (sample : Z) (self : t (Centered.attributes X)) :
  exists self' o,
    Centered.read_sample sample self = (self', o)
    /\ In sample (Centered._Centered__done (attrs self'))
    /\ (forall k, In k (Centered._Centered__done (attrs self)) ->
                  In k (Centered._Centered__done (attrs self'))).
Proof.
  unfold Centered.read_sample, bind at 1, get.
  destruct (int_in sample _) eqn:I.
  - apply int_in_true in I. do 2 eexists. split; [reflexivity|]. auto.
  - unfold bind at 1, modify. unfold bind at 1. rewrite super_run.
    set (c := read_sample sample _).
    assert (G : In sample (Centered._Centered__done (attrs self) ++ [sample])
                /\ forall k, In k (Centered._Centered__done (attrs self)) ->
                             In k (Centered._Centered__done (attrs self)
                                   ++ [sample])).
    { split; [|intros k Hk]; apply in_or_app; [right; now left | now left]. }
    destruct (snd c) as [[s|]|e]; cbn.
    + unfold bind, lift.
      destruct (Centered.center_particles _ _); cbn;
        do 2 eexists; (split; [reflexivity|exact G]).
    + do 2 eexists. split; [reflexivity|exact G].
    + do 2 eexists. split; [reflexivity|exact G].
Qed.

Lemma centered_memo_grows (sample : Z) (self : t (Centered.attributes X)) :
  In sample (Centered._Centered__done
               (attrs (fst (Centered.read_sample sample self))))
  /\ (forall k, In k (Centered._Centered__done (attrs self)) ->
                In k (Centered._Centered__done
                        (attrs (fst (Centered.read_sample sample self))))).
Proof.
  destruct (centered_memo_run sample self) as (self' & o & -> & G). exact G.
Qed.

Lemma centered_reads_keep (keys : list Z) (k : Z)
  (self : t (Centered.attributes X)) :
  In k (Centered._Centered__done (attrs self)) ->
  In k (Centered._Centered__done (attrs (centered_reads keys self))).
Proof.
  revert self. induction keys as [|key keys IH]; intros self I; cbn.
  - assumption.
  - apply IH. now apply centered_memo_grows.
Qed.

Lemma center_particles_equal (ps : list (Particle R)) (L : list R) :
  (forall p, In p ps -> List.length (position p) = List.length L) ->
  Centered.center_particles ps L
  = Return (map (fun p => set_position
                            (Numpy.zip_with fsub (position p) (Numpy.halve L))
                            p) ps).
Proof.
  induction ps as [|p ps IH]; intros S; cbn; [reflexivity|].
  rewrite isub_equal by (rewrite halve_length; apply S; now left).
  rewrite IH by (intros q Hq; apply S; now right).
  reflexivity.
Qed.

End CenteredFacts.

Section CenteredRun.

Import TrajectoryBase.

Context {R : Type} {a : Arith R} {X : Type} {m : Methods X (frame R)}.

(** A call for a key that is not in the memo list, step by step. *)
Lemma centered_miss_run (sample : Z) (self : t (Centered.attributes X)) :
  ~ In sample (Centered._Centered__done (attrs self)) ->
  Centered.read_sample sample self
  = let c := read_sample sample (Centered.inner self) in
    let self1 :=
      set_attrs (Centered.Attributes
                   (attrs (fst c))
                   (Centered._Centered__done (attrs self) ++ [sample]))
                (fst c) in
    match snd c with
    | Raise e => (self1, Raise e)
    | Return None => (self1, Raise AttributeError)
    | Return (Some s) =>
        match Centered.center_particles (particle s) (side (cell s)) with
        | Return ps => (self1, Return (Some (set_particle ps s)))
        | Raise e => (self1, Raise e)
        end
    end.
Proof.
  intros I. apply int_in_false in I.
  unfold Centered.read_sample, bind at 1, get. rewrite I.
  unfold bind at 1, modify. unfold bind at 1. rewrite super_run.
  change (Centered.inner (Centered.append_done sample self))
    with (Centered.inner self).
  cbv zeta. cbn [fst snd].
  destruct (snd (read_sample sample (Centered.inner self))) as [[s|]|e];
    try reflexivity.
Qed.

Lemma centered_retry_none (sample : Z) (keys : list Z)
  (self : t (Centered.attributes X)) :
  In sample (Centered._Centered__done (attrs self)) ->
  Centered.read_sample sample (centered_reads keys self)
  = (centered_reads keys self, Return None).
Proof.
  intros I. apply centered_memo_hit, centered_reads_keep, I.
Qed.

End CenteredRun.

(** C6: the first call of [Centered.read_sample] for a key, when the
    wrapped layer returns a system whose positions have the dimension of
    the cell, returns a frame with the cell, the number of particles and
    the ids, names and masses of that system, in which every position
    component [x] has become [x - L / 2.0], [L] being the cell side along
    that component; the key is recorded.  Every later call for that key,
    whatever was read in between, returns [None] without touching the
    object. *)
Theorem centered_first_read_then_none {R : Type} (a : Arith R) {X : Type}
  (m : TrajectoryBase.Methods X (frame R))
  (self : TrajectoryBase.t (Centered.attributes X)) (sample : Z)
  (c : TrajectoryBase.t X) (s : System R) :
  ~ In sample (Centered._Centered__done (TrajectoryBase.attrs self)) ->
  TrajectoryBase.read_sample sample (Centered.inner self)
  = (c, Return (Some s)) ->
  (forall p, In p (particle s) ->
             List.length (position p) = List.length (side (cell s))) ->
  exists self1 s',
    Centered.read_sample sample self = (self1, Return (Some s'))
    /\ Centered._Centered__done (TrajectoryBase.attrs self1)
       = Centered._Centered__done (TrajectoryBase.attrs self) ++ [sample]
    /\ Centered.inner self1 = c
    /\ cell s' = cell s
    /\ List.length (particle s') = List.length (particle s)
    /\ (forall i p,
           nth_error (particle s) i = Some p ->
           exists p',
             nth_error (particle s') i = Some p'
             /\ id p' = id p /\ name p' = name p /\ mass p' = mass p
             /\ List.length (position p') = List.length (position p)
             /\ (forall k x L,
                    nth_error (position p) k = Some x ->
                    nth_error (side (cell s)) k = Some L ->
                    nth_error (position p') k = Some (fsub x (fdiv L two))))
    /\ (forall keys,
           Centered.read_sample sample (centered_reads keys self1)
           = (centered_reads keys self1, Return None)).
Proof.
  intros I Rd Sh.
  set (centered := fun p : Particle R =>
         set_position
           (Numpy.zip_with fsub (position p) (Numpy.halve (side (cell s)))) p).
  eexists. exists (set_particle (map centered (particle s)) s).
  split; [|split; [|split; [|split; [|split; [|split]]]]].
  - rewrite (centered_miss_run sample self I), Rd. cbv zeta. cbn [fst snd].
    now rewrite (center_particles_equal _ _ Sh).
  - reflexivity.
  - destruct c. reflexivity.
  - reflexivity.
  - cbn [particle set_particle]. apply length_map.
  - intros i p Hp. exists (centered p).
    split; [now apply map_nth_error|].
    split; [reflexivity|]. split; [reflexivity|]. split; [reflexivity|].
    assert (EL : List.length (Numpy.halve (side (cell s)))
                 = List.length (position p)).
    { rewrite halve_length. symmetry. apply Sh. eapply nth_error_In, Hp. }
    split.
    + cbn [position centered set_position].
      apply zip_with_length. now symmetry.
    + intros k x L Hx HL. cbn [position centered set_position].
      apply zip_with_nth_error; [assumption|].
      unfold Numpy.halve.
      now apply (map_nth_error (fun y => fdiv y two)).
  - intros keys. apply centered_retry_none. cbn.
    apply in_or_app. right. now left.
Qed.

Lemma centered_first_read_then_none_witness :
  let self := Centered.__init__ Memory.three_frames in
  exists self1 s',
    Centered.read_sample (a := exact) 1 self = (self1, Return (Some s'))
    /\ map position (particle s')
       = [[Qminus (1 # 4) (Qdiv 2 (2 # 1)); Qminus 1 (Qdiv 2 (2 # 1));
           Qminus 1 (Qdiv 2 (2 # 1))];
          [Qminus (1 # 2) (Qdiv 2 (2 # 1)); Qminus (1 # 2) (Qdiv 2 (2 # 1));
           Qminus (1 # 2) (Qdiv 2 (2 # 1))]]
    /\ map id (particle s') = [1; 2]
    /\ cell s' = Memory.cube
    /\ Centered._Centered__done (TrajectoryBase.attrs self1) = [1]
    /\ Centered.read_sample (a := exact) 1 self1 = (self1, Return None)
    /\ Centered.read_sample (a := exact) 1
         (centered_reads (a := exact) [0; 2; 1] self1)
       = (centered_reads (a := exact) [0; 2; 1] self1, Return None).
Proof.
  intros self.
  destruct (centered_first_read_then_none exact (Memory.methods (frame Q))
              self 1 Memory.three_frames Memory.frame1)
    as (self1 & s' & H1 & H2 & _ & _ & _ & _ & H3).
  - intros [].
  - reflexivity.
  - intros p [<- | [<- | []]]; reflexivity.
  - exists self1, s'. split; [exact H1|].
    assert (E : exists self1',
               Centered.read_sample (a := exact)
                 (m := Memory.methods (frame Q)) 1 self
               = (self1', Return (Some (set_particle
                  [set_position
                     [Qminus (1 # 4) (Qdiv 2 (2 # 1)); Qminus 1 (Qdiv 2 (2 # 1));
                      Qminus 1 (Qdiv 2 (2 # 1))]
                     (Memory.particle_at (1 # 4) 1%Q 1%Q 1 "A");
                   set_position
                     [Qminus (1 # 2) (Qdiv 2 (2 # 1));
                      Qminus (1 # 2) (Qdiv 2 (2 # 1));
                      Qminus (1 # 2) (Qdiv 2 (2 # 1))]
                     (Memory.particle_at (1 # 2) (1 # 2) (1 # 2) 2 "B")]
                  Memory.frame1))))
      by (eexists; vm_compute; reflexivity).
    destruct E as (self1' & E). rewrite H1 in E. injection E as _ ->.
    split; [reflexivity|]. split; [reflexivity|]. split; [reflexivity|].
    split; [exact H2|].
    split; [exact (H3 []) | exact (H3 [0; 2; 1])].
Defined.

(** C10: [Centered.read_sample] appends the key to its memo list before
    it calls the wrapped layer.  When that call raises, the error reaches
    the caller, the key stays in the list, and every later call for the
    key, whatever was read in between, returns [None]: no centered frame
    is produced for that key. *)
Theorem centered_failed_read_marks_key {R : Type} (a : Arith R) {X : Type}
  (m : TrajectoryBase.Methods X (frame R))
  (self : TrajectoryBase.t (Centered.attributes X)) (sample : Z) (e : exn) :
  ~ In sample (Centered._Centered__done (TrajectoryBase.attrs self)) ->
  snd (TrajectoryBase.read_sample sample (Centered.inner self)) = Raise e ->
  let self1 := fst (Centered.read_sample sample self) in
  snd (Centered.read_sample sample self) = Raise e
  /\ Centered._Centered__done (TrajectoryBase.attrs self1)
     = Centered._Centered__done (TrajectoryBase.attrs self) ++ [sample]
  /\ (forall keys,
         Centered.read_sample sample (centered_reads keys self1)
         = (centered_reads keys self1, Return None)).
Proof.
  intros I Rd self1.
  assert (E : Centered.read_sample sample self
              = (TrajectoryBase.set_attrs
                   (Centered.Attributes
                      (TrajectoryBase.attrs
                         (fst (TrajectoryBase.read_sample sample
                                 (Centered.inner self))))
                      (Centered._Centered__done (TrajectoryBase.attrs self)
                       ++ [sample]))
                   (fst (TrajectoryBase.read_sample sample
                           (Centered.inner self))),
                 Raise e)).
  { rewrite (centered_miss_run sample self I). cbv zeta.
    unfold frame in *. now rewrite Rd. }
  subst self1. rewrite E. cbn [fst snd]. split; [reflexivity|].
  split; [reflexivity|].
  intros keys. apply centered_retry_none. cbn.
  apply in_or_app. right. now left.
Qed.

Lemma centered_failed_read_marks_key_witness :
  let self := Centered.__init__ Memory.three_frames in
  let self1 := fst (Centered.read_sample (a := exact) 7 self) in
  snd (Centered.read_sample (a := exact) 7 self) = Raise IndexError
  /\ Centered._Centered__done (TrajectoryBase.attrs self1) = [7]
  /\ Centered.read_sample (a := exact) 7 self1 = (self1, Return None)
  /\ Centered.read_sample (a := exact) 7
       (centered_reads (a := exact) [0; 7; 1] self1)
     = (centered_reads (a := exact) [0; 7; 1] self1, Return None).
Proof.
  intros self self1.
  destruct (centered_failed_read_marks_key exact (Memory.methods (frame Q))
              self 7 IndexError)
    as (H1 & H2 & H3).
  - intros [].
  - reflexivity.
  - split; [exact H1|]. split; [exact H2|].
    split; [exact (H3 []) | exact (H3 [0; 7; 1])].
Defined.

(** ** Two-dimensional arrays of equal shapes *)

Section MatrixFacts.

Import Numpy.

Context {R : Type} {a : Arith R}.

Lemma matrix_cons (n d : nat) (r : list R) (rows : list (list R)) :
  matrix (S n) d (r :: rows) <-> List.length r = d /\ matrix n d rows.
Proof.
  unfold matrix. cbn [List.length]. split.
  - intros (L & F). inversion F; subst. repeat split; congruence.
  - intros (Lr & L & F). split; [congruence|]. now constructor.
Qed.

Lemma matrix_nth (n d : nat) (rows : list (list R)) (i : nat) (r : list R) :
  matrix n d rows -> nth_error rows i = Some r -> List.length r = d.
Proof.
  intros (_ & F) H. apply nth_error_In in H.
  rewrite Forall_forall in F. now apply F.
Qed.

Lemma zip_rows_matrix (op : R -> R -> R) (n d : nat) (x y : list (list R)) :
  matrix n d x -> matrix n d y ->
  sequence (zip_with (broadcast1 op) x y) = Some (zip_with (zip_with op) x y)
  /\ matrix n d (zip_with (zip_with op) x y).
Proof.
  revert n y. induction x as [|u x IH]; intros n [|v y] Mx My.
  - split; [reflexivity|exact Mx].
  - destruct Mx as (E & _), My as (E' & _). cbn in *. congruence.
  - destruct Mx as (E & _), My as (E' & _). cbn in *. congruence.
  - destruct n as [|n]; [destruct Mx; discriminate|].
    apply matrix_cons in Mx as (Lu & Mx), My as (Lv & My).
    destruct (IH n y Mx My) as (S & Mz). cbn [zip_with sequence].
    rewrite broadcast1_equal by congruence. rewrite S. split; [reflexivity|].
    apply matrix_cons. split; [|exact Mz].
    rewrite zip_with_length; congruence.
Qed.

Lemma broadcast2_equal (op : R -> R -> R) (n d : nat) (x y : list (list R)) :
  matrix n d x -> matrix n d y ->
  broadcast2 op x y = Some (zip_with (zip_with op) x y)
  /\ matrix n d (zip_with (zip_with op) x y).
Proof.
  intros Mx My. unfold broadcast2, broadcast.
  destruct Mx as (Ex & Fx), My as (Ey & Fy).
  rewrite Ex, Ey, Nat.eqb_refl. now apply zip_rows_matrix.
Qed.

Lemma map_rows_matrix (op : R -> R -> R) (n d : nat) (x : list (list R))
  (L : list R) :
  matrix n d x -> List.length L = d ->
  sequence (map (fun r => broadcast1 op r L) x)
  = Some (map (fun r => zip_with op r L) x)
  /\ matrix n d (map (fun r => zip_with op r L) x).
Proof.
  revert n. induction x as [|u x IH]; intros n Mx EL.
  - split; [reflexivity|]. destruct Mx. split; [assumption|constructor].
  - destruct n as [|n]; [destruct Mx; discriminate|].
    apply matrix_cons in Mx as (Lu & Mx).
    destruct (IH n Mx EL) as (S & Mz). cbn [map sequence].
    rewrite broadcast1_equal by congruence. rewrite S. split; [reflexivity|].
    apply matrix_cons. split; [|exact Mz].
    rewrite zip_with_length; congruence.
Qed.

(** A matrix combined with a vector of the length of its rows. *)
Lemma broadcast2_row (op : R -> R -> R) (n d : nat) (x : list (list R))
  (L : list R) :
  matrix n d x -> List.length L = d ->
  broadcast2 op x [L] = Some (map (fun r => zip_with op r L) x)
  /\ matrix n d (map (fun r => zip_with op r L) x).
Proof.
  intros Mx EL. destruct (map_rows_matrix op n d x L Mx EL) as (S & Mz).
  split; [|exact Mz].
  unfold broadcast2, broadcast.
  destruct x as [|u [|v x]]; cbn [List.length Nat.eqb].
  - reflexivity.
  - cbn [zip_with map sequence] in *.
    destruct (broadcast1 op u L); [exact S|discriminate].
  - exact S.
Qed.

Lemma map_matrix (f : R -> R) (n d : nat) (x : list (list R)) :
  matrix n d x -> matrix n d (map (map f) x).
Proof.
  intros (E & F). split; [now rewrite length_map|].
  apply Forall_map. eapply Forall_impl; [|exact F].
  intros r Hr. now rewrite length_map.
Qed.

Lemma same_shape_matrix (n d : nat) (x y : list (list R)) :
  matrix n d x -> matrix n d y -> same_shape (Arr2 x) (Arr2 y) = true.
Proof.
  intros (Ex & Fx) (Ey & Fy). unfold same_shape, shape.
  assert (H : List.length (hd [] x) = List.length (hd [] y)).
  { destruct x as [|u x], y as [|v y]; cbn in *; try congruence.
    inversion Fx; inversion Fy; congruence. }
  rewrite Ex, Ey, H. now destruct (list_eq_dec _ _ _).
Qed.

Lemma array_matrix (n d : nat) (rows : list (list R)) :
  rows <> [] -> matrix n d rows -> array rows = Return (Arr2 rows).
Proof.
  intros NE (E & F). destruct rows as [|r rest]; [contradiction|].
  unfold array. inversion F as [|? ? Hr Hrest]; subst.
  assert (B : forallb (fun r' => Nat.eqb (List.length r') (List.length r))
                      rest = true).
  { apply forallb_forall. intros r' I. rewrite Forall_forall in Hrest.
    rewrite (Hrest r' I). apply Nat.eqb_refl. }
  now rewrite B.
Qed.

Lemma skipn_nth {A} (l : list A) (i : nat) :
  (i < List.length l)%nat ->
  exists x, nth_error l i = Some x /\ skipn i l = x :: skipn (S i) l.
Proof.
  revert i. induction l as [|y l IH]; intros [|i] H; cbn in *; try lia.
  - now exists y.
  - apply IH. lia.
Qed.

End MatrixFacts.

(** ** Unfolded.read_sample *)

Section UnfoldedFacts.

Import TrajectoryBase.

Context {R : Type} {a : Arith R} {X : Type} {m : Methods X (frame R)}.

(** A call of a method of the component leaves the state of the
    decorator alone. *)
Lemma unfolded_super_run {A} (c : M (t X) A)
  (self : t (Unfolded.attributes R X)) :
  Unfolded.super c self
  = (set_attrs (Unfolded.Attributes
                  (attrs (fst (c (Unfolded.inner self))))
                  (Unfolded._old (attrs self))
                  (Unfolded._last_read (attrs self)))
               (fst (c (Unfolded.inner self))),
     snd (c (Unfolded.inner self))).
Proof.
  unfold Unfolded.super, super_call, Unfolded.inner.
  now destruct (c _).
Qed.

Lemma read_sample_deep (sample : Z) :
  Unfolded.read_sample sample
  = Unfolded.read_sample_rec (S (pred Unfolded.recursion_limit)) sample.
Proof. reflexivity. Qed.

(** The ordering check: a frame other than the first, below the last
    one read. *)
Lemma unfolded_backward (depth : nat) (sample last : Z)
  (self : t (Unfolded.attributes R X)) :
  Unfolded._last_read (attrs self) = Some last ->
  sample <> 0 -> sample < last ->
  Unfolded.read_sample_rec (S depth) sample self = (self, Raise ValueError).
Proof.
  intros L N B. cbn [Unfolded.read_sample_rec].
  destruct (Z.eqb_spec sample 0); [contradiction|].
  unfold bind at 1, get. rewrite L.
  destruct (Z.ltb_spec (sample - last) 0); [reflexivity|lia].
Qed.

(** The first frame is handed through from the component. *)
Lemma unfolded_first (depth : nat) (self : t (Unfolded.attributes R X)) :
  Unfolded.read_sample_rec (S depth) 0 self
  = Unfolded.super (read_sample 0) self.
Proof. reflexivity. Qed.

(** The unfolding step assigns [_old] only. *)
Lemma unfold_run (s : System R) (self : t (Unfolded.attributes R X)) :
  exists self' o,
    Unfolded.unfold s self = (self', o)
    /\ Unfolded._last_read (attrs self') = Unfolded._last_read (attrs self).
Proof.
  unfold Unfolded.unfold, bind, lift, get, modify, ret, raise.
  repeat match goal with
         | |- context [match ?x with _ => _ end] => destruct x
         end;
    do 2 eexists; (split; [reflexivity|]); reflexivity.
Qed.

(** A call for a frame other than the first that returns has recorded
    the frame as the last one read. *)
Lemma unfolded_returned_last_read (depth : nat) (sample : Z)
  (self self' : t (Unfolded.attributes R X)) (f : frame R) :
  sample <> 0 ->
  Unfolded.read_sample_rec (S depth) sample self = (self', Return f) ->
  Unfolded._last_read (attrs self') = Some sample.
Proof.
  intros N. cbn [Unfolded.read_sample_rec].
  destruct (Z.eqb_spec sample 0); [contradiction|].
  unfold bind at 1, get.
  destruct (Unfolded._last_read (attrs self)) as [last|]; [|discriminate].
  destruct (sample - last <? 0); [discriminate|].
  unfold bind at 1.
  match goal with
  | |- context [(if ?b then ?loop else ret tt) self] =>
      destruct ((if b then loop else ret tt) self) as [self1 [[]|e]]
  end; [|discriminate].
  unfold bind at 1. rewrite unfolded_super_run.
  destruct (snd (read_sample sample (Unfolded.inner self1))) as [s|e];
    [|discriminate].
  unfold bind at 1, modify.
  destruct s as [s|]; [|discriminate].
  match goal with
  | |- Unfolded.unfold s ?st = _ -> _ =>
      destruct (unfold_run s st) as (st' & o & E & L); rewrite E
  end.
  intros [= <- _]. rewrite L. reflexivity.
Qed.

End UnfoldedFacts.

Section UnfoldedRead.

Import TrajectoryBase.

Context {R : Type} {a : Arith R} {X : Type} {m : Methods X (frame R)}
        {cb : Callbacks (frame R)}.

(** [read] through the template on a decorated object. *)
Lemma unfolded_read_last_read (index : Z)
  (self self' : t (Unfolded.attributes R X)) (f : frame R) :
  index <> 0 ->
  read (m := Unfolded.methods) index self = (self', Return f) ->
  Unfolded._last_read (attrs self') = Some index.
Proof.
  intros N. unfold read, bind at 1, get. unfold bind at 1.
  destruct ((if negb (_initialized_read self)
             then read_init ;;; modify (set_initialized_read true)
             else ret tt) self) as [self0 [[]|e]]; [|discriminate].
  unfold bind at 1.
  destruct (read_sample (Methods := Unfolded.methods) index self0)
    as [self1 [s|e]] eqn:E; [|discriminate].
  unfold bind, get, lift. intros [= <- _].
  cbn [read_sample Unfolded.methods] in E. rewrite read_sample_deep in E.
  exact (unfolded_returned_last_read _ index self0 self1 s N E).
Qed.

End UnfoldedRead.

(** C3, as amended: [Unfolded.read_sample(k)] raises [ValueError] and
    leaves the object as it is for every frame [k] other than 0 that is
    below the last frame read; so it does after a [read] of frame [k + 1]
    has returned, for every [k] other than 0 and -1.  Frame 0 is exempt:
    [read_sample(0)] is the wrapped layer's [read_sample(0)], before any
    comparison with the last frame read. *)
Theorem unfolded_backward_seek_raises {R : Type} (a : Arith R) {X : Type}
  (m : TrajectoryBase.Methods X (frame R)) (cb : Callbacks (frame R)) :
  (forall (self : TrajectoryBase.t (Unfolded.attributes R X)) last k,
      Unfolded._last_read (TrajectoryBase.attrs self) = Some last ->
      k < last -> k <> 0 ->
      Unfolded.read_sample k self = (self, Raise ValueError))
  /\ (forall (self self1 : TrajectoryBase.t (Unfolded.attributes R X)) k f,
        k <> 0 -> k <> -1 ->
        TrajectoryBase.read (m := Unfolded.methods) (k + 1) self
        = (self1, Return f) ->
        Unfolded.read_sample k self1 = (self1, Raise ValueError))
  /\ (forall (self : TrajectoryBase.t (Unfolded.attributes R X)),
        Unfolded.read_sample 0 self
        = Unfolded.super (TrajectoryBase.read_sample 0) self).
Proof.
  split; [|split].
  - intros self last k L B N. rewrite read_sample_deep.
    now apply (unfolded_backward _ k last).
  - intros self self1 k f N N' Rd.
    assert (L : Unfolded._last_read (TrajectoryBase.attrs self1)
                = Some (k + 1)).
    { apply (unfolded_read_last_read (k + 1) self self1 f); [lia|exact Rd]. }
    rewrite read_sample_deep.
    apply (unfolded_backward _ k (k + 1)); [exact L | exact N | lia].
  - intros self. reflexivity.
Qed.

Lemma unfolded_backward_seek_raises_witness :
  let cb := Memory.no_callbacks (frame Q) in
  let self : TrajectoryBase.t (Unfolded.attributes Q _) :=
    Unfolded.__init__ Memory.three_frames in
  let self1 :=
    fst (TrajectoryBase.read (m := Unfolded.methods (a := exact)) 2 self) in
  Unfolded._last_read (TrajectoryBase.attrs self1) = Some 2
  /\ Unfolded.read_sample (a := exact) 1 self1 = (self1, Raise ValueError).
Proof.
  intros cb self self1.
  pose proof (unfolded_backward_seek_raises exact (Memory.methods (frame Q)) cb)
    as (H1 & H2 & _).
  split; [vm_compute; reflexivity|].
  apply (H1 self1 2 1); [vm_compute; reflexivity | lia | discriminate].
Defined.

(** C3, as stated, fails for [k = 0]: after [read(1)] has returned on a
    trajectory of three frames, [read_sample(0)] returns the first frame
    and raises nothing. *)
Lemma unfolded_backward_seek_to_first_frame :
  let cb := Memory.no_callbacks (frame Q) in
  let self : TrajectoryBase.t (Unfolded.attributes Q _) :=
    Unfolded.__init__ Memory.three_frames in
  let self1 :=
    fst (TrajectoryBase.read (m := Unfolded.methods (a := exact)) 1 self) in
  (exists f,
      snd (TrajectoryBase.read (m := Unfolded.methods (a := exact)) 1 self)
      = Return (Some f))
  /\ Unfolded._last_read (TrajectoryBase.attrs self1) = Some 1
  /\ 0 < 1
  /\ Unfolded.read_sample (a := exact) 0 self1
     = (self1, Return (Some Memory.frame0))
  /\ snd (Unfolded.read_sample (a := exact) 0 self1) <> Raise ValueError.
Proof.
  intros cb self self1. split; [|split; [|split; [|split]]].
  - eexists. vm_compute. reflexivity.
  - vm_compute. reflexivity.
  - lia.
  - vm_compute. reflexivity.
  - vm_compute. discriminate.
Qed.

(** ** The unfolding step on arrays of equal shapes *)

Section UnfoldFacts.

Import TrajectoryBase Numpy.

Context {R : Type} {a : Arith R} {X : Type} {m : Methods X (frame R)}.

Lemma binop_matrix (op : R -> R -> R) (n d : nat) (x y : list (list R)) :
  matrix n d x -> matrix n d y ->
  binop op (Arr2 x) (Arr2 y) = Return (Arr2 (zip_with (zip_with op) x y)).
Proof.
  intros Mx My. unfold binop.
  now rewrite (proj1 (broadcast2_equal op n d x y Mx My)).
Qed.

Lemma binop_row (op : R -> R -> R) (n d : nat) (x : list (list R))
  (L : list R) :
  matrix n d x -> List.length L = d ->
  binop op (Arr2 x) (Arr1 L)
  = Return (Arr2 (map (fun r => zip_with op r L) x)).
Proof.
  intros Mx EL. unfold binop.
  now rewrite (proj1 (broadcast2_row op n d x L Mx EL)).
Qed.

Lemma inplace_matrix (op : R -> R -> R) (n d : nat) (x y : list (list R)) :
  matrix n d x -> matrix n d y ->
  inplace op (Arr2 x) (Arr2 y) = Return (Arr2 (zip_with (zip_with op) x y)).
Proof.
  intros Mx My. unfold inplace. rewrite (binop_matrix op n d x y Mx My).
  destruct (broadcast2_equal op n d x y Mx My) as (_ & Mz).
  now rewrite (same_shape_matrix n d _ _ Mz Mx).
Qed.

Lemma assign_positions_rows (ps : list (Particle R)) (i : nat)
  (rows : list (list R)) :
  List.length rows = (i + List.length ps)%nat ->
  Unfolded.assign_positions ps i (Arr2 rows)
  = Return (zip_with (fun p r => set_position r p) ps (skipn i rows)).
Proof.
  revert i. induction ps as [|p ps IH]; intros i E; [reflexivity|].
  cbn [List.length] in E.
  destruct (skipn_nth rows i) as (r & Hr & Sk); [lia|].
  cbn [Unfolded.assign_positions row]. rewrite Hr.
  rewrite (IH (S i)) by lia. rewrite Sk. reflexivity.
Qed.

(** The rows that the unfolding step computes from the rows [O] of
    [_old], the raw positions [P] and the cell side [L]. *)
Lemma unfolded_rows_component (O P : list (list R)) (L : list R)
  (i k : nat) (orow prow : list R) (o p l : R) :
  nth_error O i = Some orow -> nth_error orow k = Some o ->
  nth_error P i = Some prow -> nth_error prow k = Some p ->
  nth_error L k = Some l ->
  let D := zip_with (zip_with fsub) P O in
  let new :=
    zip_with (zip_with fadd) O
      (zip_with (zip_with fsub) D
         (map (fun r => zip_with fmul r L)
            (map (map rint) (map (fun r => zip_with fdiv r L) D)))) in
  exists newrow,
    nth_error new i = Some newrow
    /\ nth_error newrow k = Some (unfold_component o p l).
Proof.
  intros HO Ho HP Hp Hl D new.
  assert (HD : nth_error D i = Some (zip_with fsub prow orow))
    by (apply zip_with_nth_error; assumption).
  assert (Hd : nth_error (zip_with fsub prow orow) k = Some (fsub p o))
    by (apply zip_with_nth_error; assumption).
  eexists. split.
  - subst new. apply zip_with_nth_error; [exact HO|].
    apply zip_with_nth_error; [exact HD|].
    apply (map_nth_error (fun r => zip_with fmul r L)).
    apply (map_nth_error (map rint)).
    apply (map_nth_error (fun r => zip_with fdiv r L)). exact HD.
  - unfold unfold_component.
    apply zip_with_nth_error; [exact Ho|].
    apply zip_with_nth_error; [exact Hd|].
    apply zip_with_nth_error; [|exact Hl].
    apply (map_nth_error rint).
    apply zip_with_nth_error; [exact Hd|exact Hl].
Qed.

Lemma unfold_matrix (s : System R) (self : t (Unfolded.attributes R X))
  (O : list (list R)) (n d : nat) :
  Unfolded._old (attrs self) = Some (Arr2 O) ->
  particle s <> [] ->
  matrix n d O -> matrix n d (map position (particle s)) ->
  List.length (side (cell s)) = d ->
  let P := map position (particle s) in
  let L := side (cell s) in
  let D := zip_with (zip_with fsub) P O in
  let new :=
    zip_with (zip_with fadd) O
      (zip_with (zip_with fsub) D
         (map (fun r => zip_with fmul r L)
            (map (map rint) (map (fun r => zip_with fdiv r L) D)))) in
  Unfolded.unfold s self
  = (Unfolded.set_old (Arr2 new) self,
     Return (Some (set_particle
                     (zip_with (fun p r => set_position r p) (particle s) new)
                     s)))
  /\ matrix n d new.
Proof.
  intros Ho NE MO MP EL P L D new.
  assert (MD : matrix n d D)
    by (apply (broadcast2_equal fsub n d P O MP MO)).
  assert (MQ : matrix n d (map (fun r => zip_with fdiv r L) D))
    by (apply (broadcast2_row fdiv n d D L MD EL)).
  assert (MR : matrix n d (map (map rint)
                             (map (fun r => zip_with fdiv r L) D)))
    by (apply map_matrix, MQ).
  assert (MM : matrix n d (map (fun r => zip_with fmul r L)
                             (map (map rint)
                                (map (fun r => zip_with fdiv r L) D))))
    by (apply (broadcast2_row fmul n d _ L MR EL)).
  assert (MD2 : matrix n d
                  (zip_with (zip_with fsub) D
                     (map (fun r => zip_with fmul r L)
                        (map (map rint)
                           (map (fun r => zip_with fdiv r L) D)))))
    by (apply (broadcast2_equal fsub n d _ _ MD MM)).
  assert (MN : matrix n d new)
    by (apply (broadcast2_equal fadd n d _ _ MO MD2)).
  split; [|exact MN].
  unfold Unfolded.unfold, Unfolded.positions.
  rewrite (array_matrix n d _ (fun E => NE (map_eq_nil _ _ E)) MP).
  unfold bind at 1, lift. unfold bind at 1, get. rewrite Ho.
  rewrite (binop_matrix fsub n d P O MP MO). unfold bind at 1.
  rewrite (binop_row fdiv n d D L MD EL). unfold bind at 1.
  cbn [ufunc]. rewrite (binop_row fmul n d _ L MR EL). unfold bind at 1.
  rewrite (binop_matrix fsub n d _ _ MD MM). unfold bind at 1.
  rewrite (inplace_matrix fadd n d _ _ MO MD2). unfold bind at 1.
  unfold bind at 1, modify. unfold bind at 1.
  rewrite assign_positions_rows.
  - reflexivity.
  - destruct MN as (EN & _), MP as (EP & _). fold new.
    rewrite EN, <- EP. unfold P. now rewrite length_map.
Qed.

(** The call for the frame after the last one read. *)
Lemma unfolded_next_run (depth : nat) (sample last : Z)
  (self : t (Unfolded.attributes R X)) (c : t X) (s : System R) :
  Unfolded._last_read (attrs self) = Some last ->
  sample = last + 1 -> sample <> 0 ->
  read_sample sample (Unfolded.inner self) = (c, Return (Some s)) ->
  Unfolded.read_sample_rec (S depth) sample self
  = Unfolded.unfold s
      (set_attrs (Unfolded.Attributes (attrs c)
                    (Unfolded._old (attrs self)) (Some sample)) c).
Proof.
  intros L E N Rd. cbn [Unfolded.read_sample_rec].
  destruct (Z.eqb_spec sample 0); [contradiction|].
  unfold bind at 1, get. rewrite L.
  replace (sample - last) with 1 by lia.
  change (1 <? 0) with false. change (1 >? 1) with false. cbv iota.
  unfold bind at 1, ret. unfold bind at 1. rewrite unfolded_super_run.
  unfold frame in *. rewrite Rd. cbn [fst snd].
  unfold bind at 1, modify. reflexivity.
Qed.

End UnfoldFacts.

(** ** Unfolding in exact arithmetic *)

Section ExactFacts.

Local Open Scope Q_scope.

(** [Qrint] of a number less than a half away from an integer. *)
Lemma Qrint_near (x : Q) (n : Z) :
  inject_Z n - (1 # 2) < x -> x < inject_Z n + (1 # 2) ->
  Qrint x = inject_Z n.
Proof.
  intros Lo Hi. unfold Qrint.
  pose proof (Qfloor_le x) as Fl. pose proof (Qlt_floor x) as Fu.
  rewrite inject_Z_plus in Fu. change (inject_Z 1) with 1 in Fu.
  assert (Cases : (Qfloor x = n \/ Qfloor x + 1 = n)%Z).
  { assert (A : inject_Z n < inject_Z (Qfloor x + 2)).
    { rewrite inject_Z_plus. change (inject_Z 2) with 2. lra. }
    assert (B : inject_Z (Qfloor x) < inject_Z (n + 1)).
    { rewrite inject_Z_plus. change (inject_Z 1) with 1. lra. }
    rewrite <- Zlt_Qlt in A, B. lia. }
  destruct (Qcompare_spec (x - inject_Z (Qfloor x)) (1 # 2)) as [E|Lt|Gt].
  - exfalso. destruct Cases as [C|C]; rewrite <- C in *.
    + lra.
    + rewrite inject_Z_plus in Lo. change (inject_Z 1) with 1 in Lo. lra.
  - destruct Cases as [C|C]; [now rewrite C|].
    exfalso. rewrite <- C in Lo. rewrite inject_Z_plus in Lo.
    change (inject_Z 1) with 1 in Lo. lra.
  - destruct Cases as [C|C]; [|now rewrite C].
    exfalso. rewrite <- C in Hi. lra.
Qed.

Lemma quotient_bounds (d L s : Q) :
  0 < L -> - (L / 2) < d -> d < L / 2 ->
  s - (1 # 2) < (d + s * L) / L /\ (d + s * L) / L < s + (1 # 2).
Proof.
  intros HL Lo Hi.
  assert (E : (d + s * L) / L == d / L + s) by (field; lra).
  assert (Hd : d / L * L == d) by (field; lra).
  assert (H2 : L / 2 == L * (1 # 2)) by field.
  rewrite E. split; nra.
Qed.

(** A raw position that is the true position [o + d] moved by [n] cell
    lengths, the true displacement [d] being less than half a cell:
    the unfolded position is the true one. *)
Lemma unfold_exact (o d L p : Q) (n : Z) :
  0 < L -> - (L / 2) < d -> d < L / 2 ->
  p == o + d + inject_Z n * L ->
  unfold_component (a := exact) o p L == o + d.
Proof.
  intros HL Lo Hi Hp. unfold unfold_component. cbn [fsub fadd fmul fdiv rint exact].
  assert (E : (p - o) / L == (d + inject_Z n * L) / L)
    by (rewrite Hp; field; lra).
  destruct (quotient_bounds d L (inject_Z n) HL Lo Hi) as (B1 & B2).
  rewrite <- E in B1, B2.
  rewrite (Qrint_near _ n B1 B2). rewrite Hp. ring.
Qed.

Lemma unfold_exact_same (p L : Q) :
  unfold_component (a := exact) p p L == p.
Proof.
  unfold unfold_component. cbn [fsub fadd fmul fdiv rint exact].
  assert (Z0 : (p - p) / L == 0).
  { unfold Qdiv. assert (E : p - p == 0) by ring. rewrite E. ring. }
  assert (B1 : inject_Z 0 - (1 # 2) < (p - p) / L) by (rewrite Z0; reflexivity).
  assert (B2 : (p - p) / L < inject_Z 0 + (1 # 2)) by (rewrite Z0; reflexivity).
  rewrite (Qrint_near _ 0%Z B1 B2). change (inject_Z 0) with 0. ring.
Qed.

End ExactFacts.

(** ** The frame returned by the unfolding step *)

Section UnfoldedFrame.

Import TrajectoryBase Numpy.

Context {R : Type} {a : Arith R} {X : Type} {m : Methods X (frame R)}.

(** Particles that have received rows as positions. *)
Lemma assigned_positions (ps : list (Particle R)) (rows : list (list R)) :
  List.length rows = List.length ps ->
  map position (zip_with (fun p r => set_position r p) ps rows) = rows
  /\ map id (zip_with (fun p r => set_position r p) ps rows) = map id ps
  /\ map name (zip_with (fun p r => set_position r p) ps rows) = map name ps
  /\ map mass (zip_with (fun p r => set_position r p) ps rows) = map mass ps.
Proof.
  revert rows. induction ps as [|p ps IH]; intros [|r rows] E;
    try discriminate; [repeat split|].
  injection E as E. destruct (IH rows E) as (P & I & N & Ms).
  cbn [zip_with map position id name mass set_position].
  now rewrite P, I, N, Ms.
Qed.


(** The call for the frame after the last one read stores the new rows
    in [_old] and hands them to the particles of the frame read. *)
Lemma unfolded_next_frame (self : t (Unfolded.attributes R X))
  (last sample : Z) (c : t X) (s : System R) (O : list (list R))
  (n d : nat) :
  Unfolded._last_read (attrs self) = Some last ->
  sample = last + 1 -> sample <> 0 ->
  Unfolded._old (attrs self) = Some (Arr2 O) ->
  read_sample sample (Unfolded.inner self) = (c, Return (Some s)) ->
  particle s <> [] ->
  matrix n d O ->
  matrix n d (map position (particle s)) ->
  List.length (side (cell s)) = d ->
  exists new,
    Unfolded.read_sample sample self
    = (set_attrs (Unfolded.Attributes (attrs c) (Some (Arr2 new))
                    (Some sample)) c,
       Return (Some (set_particle
                       (zip_with (fun p r => set_position r p)
                                 (particle s) new) s)))
    /\ matrix n d new
    /\ (forall i k orow prow o p l,
           nth_error O i = Some orow -> nth_error orow k = Some o ->
           nth_error (map position (particle s)) i = Some prow ->
           nth_error prow k = Some p ->
           nth_error (side (cell s)) k = Some l ->
           exists newrow,
             nth_error new i = Some newrow
             /\ nth_error newrow k = Some (unfold_component o p l)).
Proof.
  intros HL E N Ho Rd NE MO MP EL.
  destruct (unfold_matrix s
              (set_attrs
                 (Unfolded.Attributes (attrs c)
                    (Unfolded._old (attrs self)) (Some sample)) c)
              O n d Ho NE MO MP EL) as (U & MN).
  eexists. split; [|split].
  - rewrite read_sample_deep.
    rewrite (unfolded_next_run _ sample last self c s HL E N Rd).
    exact U.
  - exact MN.
  - intros i k orow prow o p l HO Ho' HP Hp Hl.
    now apply (unfolded_rows_component O (map position (particle s))
                 (side (cell s)) i k orow prow o p l).
Qed.


End UnfoldedFrame.

(** C4, as amended: a call of [Unfolded.read_sample] for the frame after
    the last one read (and not frame 0), on arrays of one shape, returns
    a frame with the cell, ids, names and masses of the frame read, whose
    positions are the rows stored in [_old]: for particle [i] and
    component [k], the previous unfolded position [o] plus the reduced
    displacement, [delta = p - o], [delta -= rint(delta / L) * L],
    [o + delta], with [p] the raw position and [L] the cell side of the
    frame just read; this holds for every arithmetic.  In exact
    arithmetic, with [0 < L], when the raw position is the true position
    [o + d] moved by [n] cell lengths and [|d| < L / 2], the unfolded
    position is the true one, so that it differs from the raw position by
    [n] cell lengths: by exactly [L] when the previous unfolded position
    plus the displacement is one cell away from the raw position, as
    after the first crossing of a face.  The formula applied to frame 0,
    which is returned as read, changes nothing. *)
Theorem unfolded_sequential_formula :
  (forall (R : Type) (a : Arith R) (X : Type)
          (m : TrajectoryBase.Methods X (frame R))
          (self : TrajectoryBase.t (Unfolded.attributes R X))
          (last sample : Z) (c : TrajectoryBase.t X) (s : System R)
          (O : list (list R)) (n d : nat),
      Unfolded._last_read (TrajectoryBase.attrs self) = Some last ->
      sample = last + 1 -> sample <> 0 ->
      Unfolded._old (TrajectoryBase.attrs self) = Some (Numpy.Arr2 O) ->
      TrajectoryBase.read_sample sample (Unfolded.inner self)
      = (c, Return (Some s)) ->
      particle s <> [] ->
      Numpy.matrix n d O ->
      Numpy.matrix n d (map position (particle s)) ->
      List.length (side (cell s)) = d ->
      exists self' s',
        Unfolded.read_sample sample self = (self', Return (Some s'))
        /\ Unfolded._old (TrajectoryBase.attrs self')
           = Some (Numpy.Arr2 (map position (particle s')))
        /\ Unfolded._last_read (TrajectoryBase.attrs self') = Some sample
        /\ Unfolded.inner self' = c
        /\ Numpy.matrix n d (map position (particle s'))
        /\ cell s' = cell s
        /\ map id (particle s') = map id (particle s)
        /\ map name (particle s') = map name (particle s)
        /\ map mass (particle s') = map mass (particle s)
        /\ (forall i k part orow o p l,
               nth_error (particle s) i = Some part ->
               nth_error (position part) k = Some p ->
               nth_error O i = Some orow ->
               nth_error orow k = Some o ->
               nth_error (side (cell s)) k = Some l ->
               exists part',
                 nth_error (particle s') i = Some part'
                 /\ id part' = id part
                 /\ nth_error (position part') k
                    = Some (unfold_component o p l)))
  /\ (forall (o d L p : Q) (n : Z),
         (0 < L)%Q -> (- (L / 2) < d)%Q -> (d < L / 2)%Q ->
         (p == o + d + inject_Z n * L)%Q ->
         (unfold_component (a := exact) o p L == o + d)%Q
         /\ (unfold_component (a := exact) o p L - p == - (inject_Z n * L))%Q)
  /\ (forall o d L : Q,
         (0 < L)%Q -> (- (L / 2) < d)%Q -> (d < L / 2)%Q ->
         (unfold_component (a := exact) o (o + d - L) L - (o + d - L) == L)%Q
         /\ (unfold_component (a := exact) o (o + d + L) L - (o + d + L)
             == - L)%Q)
  /\ (forall p L : Q, (unfold_component (a := exact) p p L == p)%Q).
Proof.
  split; [|split; [|split]].
  - intros R a X m self last sample c s O n d HL E N Ho Rd NE MO MP EL.
    destruct (unfolded_next_frame self last sample c s O n d
                HL E N Ho Rd NE MO MP EL) as (new & Run & MN & Comp).
    assert (Len : List.length new = List.length (particle s)).
    { destruct MN as (EN & _), MP as (EP & _).
      rewrite EN, <- EP. now rewrite length_map. }
    destruct (assigned_positions (particle s) new Len) as (P & I & Nm & Ms).
    do 2 eexists. split; [exact Run|].
    cbn [particle cell set_particle TrajectoryBase.attrs
         TrajectoryBase.set_attrs Unfolded._old Unfolded._last_read].
    rewrite P.
    split; [reflexivity|]. split; [reflexivity|].
    split; [now destruct c|]. split; [exact MN|]. split; [reflexivity|].
    split; [exact I|]. split; [exact Nm|]. split; [exact Ms|].
    intros i k part orow o p l Hpart Hp HO Ho' Hl.
    destruct (Comp i k orow (position part) o p l) as (newrow & Hn & Hk);
      try assumption.
    { now apply map_nth_error. }
    exists (set_position newrow part). split; [|split].
    + now apply (zip_with_nth_error (fun p r => set_position r p)).
    + reflexivity.
    + exact Hk.
  - intros o d L p n HL Lo Hi Hp.
    pose proof (unfold_exact o d L p n HL Lo Hi Hp) as U.
    split; [exact U|]. rewrite U, Hp. ring.
  - intros o d L HL Lo Hi. split.
    + rewrite (unfold_exact o d L (o + d - L) (-1) HL Lo Hi).
      * ring.
      * change (inject_Z (-1)) with (-1 # 1)%Q. ring.
    + rewrite (unfold_exact o d L (o + d + L) 1 HL Lo Hi).
      * ring.
      * change (inject_Z 1) with 1%Q. ring.
  - apply unfold_exact_same.
Qed.

Lemma unfolded_sequential_formula_witness :
  let cb := Memory.no_callbacks (frame Q) in
  let self : TrajectoryBase.t (Unfolded.attributes Q _) :=
    fst (TrajectoryBase.read (m := Unfolded.methods (a := exact)) 0
           (Unfolded.__init__ Memory.three_frames)) in
  (exists self' s' part',
      Unfolded.read_sample (a := exact) 1 self = (self', Return (Some s'))
      /\ nth_error (particle s') 0 = Some part'
      /\ nth_error (position part') 0
         = Some (unfold_component (a := exact) (7 # 4) (1 # 4) 2%Q)
      /\ map id (particle s') = [1; 2]
      /\ cell s' = Memory.cube
      /\ Unfolded._old (TrajectoryBase.attrs self')
         = Some (Numpy.Arr2 (map position (particle s'))))
  /\ (unfold_component (a := exact) (7 # 4) (1 # 4) 2
      == (7 # 4) + (1 # 2))%Q
  /\ (unfold_component (a := exact) (7 # 4) ((7 # 4) + (1 # 2) - 2) 2
      - ((7 # 4) + (1 # 2) - 2) == 2)%Q.
Proof.
  intros cb self.
  destruct unfolded_sequential_formula as (H1 & H2 & H3 & _).
  split; [|split].
  - destruct (H1 Q exact _ (Memory.methods (frame Q)) self 0 1
                (fst (TrajectoryBase.read_sample 1 (Unfolded.inner self)))
                Memory.frame1
                [[7 # 4; 1; 1]; [1 # 2; 1 # 2; 1 # 2]]%Q 2%nat 3%nat)
      as (self' & s' & Rd & Old & _ & _ & _ & C & I & _ & _ & Comp).
    + vm_compute. reflexivity.
    + reflexivity.
    + discriminate.
    + vm_compute. reflexivity.
    + vm_compute. reflexivity.
    + discriminate.
    + split; [reflexivity | repeat constructor].
    + split; [reflexivity | repeat constructor].
    + reflexivity.
    + destruct (Comp 0%nat 0%nat
                  (Memory.particle_at (1 # 4) 1%Q 1%Q 1 "A")
                  [7 # 4; 1; 1]%Q (7 # 4) (1 # 4) 2%Q)
        as (part' & Hn & _ & Hk); try reflexivity.
      exists self', s', part'.
      split; [exact Rd|]. split; [exact Hn|]. split; [exact Hk|].
      split; [exact I|]. split; [exact C | exact Old].
  - apply (H2 (7 # 4) (1 # 2) 2 (1 # 4) (-1)%Z)%Q; reflexivity.
  - apply (H3 (7 # 4) (1 # 2) 2)%Q; reflexivity.
Defined.

(** C4, as stated, fails for a particle that has crossed before.  In a
    trajectory of five frames in a cell of side 2, with positions
    wrapped into [0, 2), the first particle is at x = 7/4, 1/4, 1, 7/4,
    1/4: it leaves through the upper face between frames 0 and 1 and
    again between frames 3 and 4.  Read in
    order through the decorator, frame 4 comes back with the particle at
    x = 17/4: after the crossing between frames 3 and 4 the unfolded
    position differs from the raw position 1/4 by two cell lengths, not
    by one. *)
Lemma unfolded_second_crossing_two_cells :
  let cb := Memory.no_callbacks (frame Q) in
  let m := Unfolded.methods (a := exact) (m := Memory.methods (frame Q)) in
  let self : TrajectoryBase.t (Unfolded.attributes Q _) :=
    reads (m := m) [0; 1; 2; 3] (Unfolded.__init__ Memory.two_crossings) in
  exists s3 s4 p3 p4 x3 x4,
    snd (TrajectoryBase.read (m := m) 3
           (reads (m := m) [0; 1; 2] (Unfolded.__init__ Memory.two_crossings)))
    = Return (Some s3)
    /\ snd (TrajectoryBase.read (m := m) 4 self) = Return (Some s4)
    /\ nth_error (particle s3) 0 = Some p3
    /\ nth_error (position p3) 0 = Some x3
    /\ nth_error (particle s4) 0 = Some p4
    /\ nth_error (position p4) 0 = Some x4
    /\ side (cell s4) = [2; 2; 2]%Q
    /\ (x3 == 15 # 4)%Q
    /\ (x4 == 17 # 4)%Q
    /\ (x4 - (1 # 4) == 2 * 2)%Q
    /\ ~ (x4 - (1 # 4) == 2)%Q
    /\ ~ (x4 - (1 # 4) == - (2))%Q.
Proof.
  intros cb m self.
  let v := eval vm_compute in
    (snd (TrajectoryBase.read (m := m) 3
            (reads (m := m) [0; 1; 2]
               (Unfolded.__init__ Memory.two_crossings)))) in
  match v with Return (Some ?s) => exists s end.
  let v := eval vm_compute in (snd (TrajectoryBase.read (m := m) 4 self)) in
  match v with Return (Some ?s) => exists s end.
  do 4 eexists.
  split; [vm_compute; reflexivity|].
  split; [vm_compute; reflexivity|].
  split; [reflexivity|]. split; [reflexivity|].
  split; [reflexivity|]. split; [reflexivity|].
  split; [reflexivity|].
  split; [vm_compute; reflexivity|].
  split; [vm_compute; reflexivity|].
  split; [vm_compute; reflexivity|].
  split; vm_compute; discriminate.
Qed.

(** In binary64 arithmetic the difference is a cell length only up to
    rounding, at the first crossing already: in a cell of side 1, a
    particle read at x = 0.58 and then at x = 0.07 comes back at
    0.07 + 0.99999999999999978. *)
Lemma unfolded_first_crossing_binary64 :
  let cb := Memory.no_callbacks (frame float) in
  let m := Unfolded.methods (a := binary64)
             (m := Memory.methods (frame float)) in
  let self : TrajectoryBase.t (Unfolded.attributes float _) :=
    reads (m := m) [0] (Unfolded.__init__ Memory.crossing64) in
  exists s1 p1 x1,
    snd (TrajectoryBase.read (m := m) 1 self) = Return (Some s1)
    /\ nth_error (particle s1) 0 = Some p1
    /\ nth_error (position p1) 0 = Some x1
    /\ side (cell s1) = [1; 1; 1]%float
    /\ PrimFloat.sub x1 0x1.1eb851eb851ecp-4%float = 0x1.ffffffffffffep-1%float
    /\ PrimFloat.eqb (PrimFloat.sub x1 0x1.1eb851eb851ecp-4%float) 1%float
       = false.
Proof.
  intros cb m self.
  let v := eval vm_compute in (snd (TrajectoryBase.read (m := m) 1 self)) in
  match v with Return (Some ?s) => exists s end.
  do 2 eexists.
  split; [vm_compute; reflexivity|].
  split; [reflexivity|]. split; [reflexivity|]. split; [reflexivity|].
  split; vm_compute; reflexivity.
Qed.



(* ================================================================== *)
(** * Further properties of the template *)

(** ** Callbacks *)



(** ** Sequences of writes *)

Section WriteOrder.

Import TrajectoryBase Iteration.

Context {X F : Type} {m : Methods X F} {K : KeepsSteps m}.

Lemma writes_first_occurrences (ws : list (F * Z)) (self : t X) :
  all_return ws self ->
  steps (writes ws self)
  = steps self ++ first_occurrences (steps self) (map snd ws).
Proof.
  revert self. induction ws as [|[system step] ws IH]; intros self A.
  - cbn. now rewrite app_nil_r.
  - destruct A as (R & A). cbn [writes map snd first_occurrences].
    rewrite (IH _ A).
    destruct (write_cases system step self)
      as [(e & Re & _) | [(_ & I & E) | (_ & NI & E)]].
    + congruence.
    + rewrite E. apply int_in_true in I. now rewrite I.
    + rewrite E. apply int_in_false in NI. rewrite NI.
      now rewrite <- app_assoc.
Qed.

Lemma first_occurrences_length (seen l : list Z) :
  (List.length (first_occurrences seen l) <= List.length l)%nat.
Proof.
  revert seen. induction l as [|x l IH]; intros seen; cbn; [lia|].
  destruct (int_in x seen); cbn; [specialize (IH seen) | specialize (IH (seen ++ [x]))]; lia.
Qed.

End WriteOrder.

(** When every [write] of a sequence returns, [steps] grows by the
    written steps in the order of their first occurrence, the steps that
    were already there left out: the order of [steps] is the order in
    which the frames were first written, and it grows by at most one
    entry per [write]. *)
Theorem writes_record_first_occurrences {X F : Type}
  (m : TrajectoryBase.Methods X F) (K : KeepsSteps m)
  (ws : list (F * Z)) (self : TrajectoryBase.t X) :
  Iteration.all_return ws self ->
  TrajectoryBase.steps (writes ws self)
  = TrajectoryBase.steps self
    ++ Iteration.first_occurrences (TrajectoryBase.steps self) (map snd ws)
  /\ len (TrajectoryBase.steps (writes ws self))
     <= len (TrajectoryBase.steps self) + len ws.
Proof.
  intros A. rewrite (writes_first_occurrences ws self A). split; [reflexivity|].
  rewrite len_app. unfold len.
  pose proof (first_occurrences_length (TrajectoryBase.steps self) (map snd ws)).
  rewrite length_map in *. lia.
Qed.

Lemma writes_record_first_occurrences_witness :
  let self := TrajectoryBase.Build "out.xyz" "w" [] [10] false false
                ([] : Memory.store (frame Q)) in
  let ws := [(Some Memory.frame0, 30); (Some Memory.frame1, 10);
             (Some Memory.frame2, 20); (Some Memory.frame0, 30)] in
  TrajectoryBase.steps (writes ws self) = [10; 30; 20]
  /\ len (TrajectoryBase.steps (writes ws self)) <= 1 + 4.
Proof.
  intros self ws.
  apply (writes_record_first_occurrences
           (Memory.methods (frame Q)) (memory_keeps_steps (frame Q)) ws self).
  cbn. repeat split.
Defined.


(** ** Slices *)

Section SliceFacts.

Lemma adjust_bounds (n c v : Z) :
  0 <= n ->
  (c < 0 -> -1 <= Slice.adjust n c v <= n - 1)
  /\ (0 < c -> 0 <= Slice.adjust n c v <= n).
Proof.
  intros Hn. unfold Slice.adjust.
  destruct (Z.ltb_spec v 0); destruct (Z.ltb_spec (v + n) 0);
    destruct (Z.ltb_spec c 0); destruct (Z.geb_spec v n); lia.
Qed.

(** The indices that a slice selects lie in the sequence. *)
Lemma indices_in_range (start stop step : option Z) (n a b c i : Z) :
  0 <= n ->
  Slice.indices start stop step n = Return (a, b, c) ->
  0 <= i < Slice.slicelength a b c ->
  0 <= a + i * c < n.
Proof.
  intros Hn I Hi. unfold Slice.indices in I.
  set (c' := match step with None => 1 | Some s => s end) in *.
  destruct (Z.eqb_spec c' 0) as [|Nz]; [discriminate|].
  injection I as Ea Eb Ec. subst c.
  assert (Ba : (c' < 0 -> -1 <= a <= n - 1) /\ (0 < c' -> 0 <= a <= n)).
  { subst a. destruct start as [v|]; [now apply adjust_bounds|].
    destruct (Z.ltb_spec c' 0); lia. }
  assert (Bb : (c' < 0 -> -1 <= b <= n - 1) /\ (0 < c' -> 0 <= b <= n)).
  { subst b. destruct stop as [v|]; [now apply adjust_bounds|].
    destruct (Z.ltb_spec c' 0); lia. }
  clear Ea Eb. unfold Slice.slicelength in Hi.
  destruct (Z.ltb_spec c' 0) as [Neg|Pos].
  - destruct (Z.ltb_spec b a) as [Lt|]; [|lia].
    pose proof (Z.mul_div_le (a - b - 1) (- c') ltac:(lia)). nia.
  - destruct (Z.ltb_spec a b) as [Lt|]; [|lia].
    pose proof (Z.mul_div_le (b - a - 1) c' ltac:(lia)). nia.
Qed.

Lemma range_nth (n k : Z) :
  0 <= k < n -> nth_error (range n) (Z.to_nat k) = Some k.
Proof.
  intros H. unfold range.
  rewrite nth_error_map, nth_error_seq.
  destruct (Nat.ltb_spec (Z.to_nat k) (Z.to_nat n)); [|lia].
  cbn. f_equal. lia.
Qed.

Lemma len_range (n : Z) : 0 <= n -> len (range n) = n.
Proof.
  intros H. unfold len, range. rewrite length_map, length_seq. lia.
Qed.

Lemma range_In (n k : Z) : In k (range n) -> 0 <= k < n.
Proof.
  unfold range. rewrite in_map_iff. intros (j & <- & I).
  apply in_seq in I. lia.
Qed.

Lemma flat_map_singletons {A B} (f : A -> list B) (g : A -> B) (l : list A) :
  (forall x, In x l -> f x = [g x]) -> flat_map f l = map g l.
Proof.
  induction l as [|x l IH]; intros H; cbn; [reflexivity|].
  rewrite (H x (or_introl eq_refl)), IH; [reflexivity|].
  intros y Hy. apply H. now right.
Qed.

(** A slice of [range(n)] is the list of the selected indices. *)
Lemma getslice_range (start stop step : option Z) (n a b c : Z) :
  0 <= n ->
  Slice.indices start stop step n = Return (a, b, c) ->
  Slice.getslice (range n) start stop step
  = Return (map (fun i => a + i * c) (range (Slice.slicelength a b c))).
Proof.
  intros Hn I. unfold Slice.getslice. rewrite (len_range n Hn), I. f_equal.
  apply flat_map_singletons. intros i Hi. apply range_In in Hi.
  now rewrite (range_nth n _ (indices_in_range _ _ _ n a b c i Hn I Hi)).
Qed.

(** A slice of a list of integers picks the elements at the selected
    indices. *)
Lemma getslice_list (l : list Z) (start stop step : option Z) (a b c : Z) :
  Slice.indices start stop step (len l) = Return (a, b, c) ->
  Slice.getslice l start stop step
  = Return (map (fun i => nth (Z.to_nat (a + i * c)) l 0)
                (range (Slice.slicelength a b c))).
Proof.
  intros I. unfold Slice.getslice. rewrite I. f_equal.
  apply flat_map_singletons. intros i Hi. apply range_In in Hi.
  pose proof (indices_in_range _ _ _ _ a b c i (len_nonneg l) I Hi) as B.
  destruct (nth_error l (Z.to_nat (a + i * c))) as [x|] eqn:E.
  - now rewrite (nth_error_nth _ _ _ E).
  - apply nth_error_None in E. unfold len in B. lia.
Qed.

Lemma indices_zero_step (start stop : option Z) (n : Z) :
  Slice.indices start stop (Some 0) n = Raise ValueError.
Proof. reflexivity. Qed.

Lemma indices_total (start stop step : option Z) (n : Z) :
  step <> Some 0 ->
  exists a b c, Slice.indices start stop step n = Return (a, b, c).
Proof.
  intros N. unfold Slice.indices.
  destruct (Z.eqb_spec (match step with None => 1 | Some s => s end) 0) as [E|].
  - destruct step as [s|]; [subst; contradiction | discriminate].
  - do 3 eexists. reflexivity.
Qed.

Lemma range_nth_inv (n : Z) (j : nat) (r : Z) :
  nth_error (range n) j = Some r -> r = Z.of_nat j.
Proof.
  unfold range. rewrite nth_error_map, nth_error_seq.
  destruct (Nat.ltb_spec j (Z.to_nat n)); cbn; [|discriminate].
  now intros [= <-].
Qed.

(** The indices of a slice are those between its bounds, a whole number
    of steps away from the first. *)
Lemma slice_index_iff (a b c k : Z) :
  c <> 0 ->
  (exists i, 0 <= i < Slice.slicelength a b c /\ k = a + i * c)
  <-> ((0 < c /\ a <= k < b) \/ (c < 0 /\ b < k <= a))
      /\ (k - a) mod c = 0.
Proof.
  intros Nz. unfold Slice.slicelength. split.
  - intros (i & Hi & ->).
    split; [|replace (a + i * c - a) with (i * c) by ring;
             now apply Z.mod_mul].
    destruct (Z.ltb_spec c 0) as [Neg|Pos].
    + destruct (Z.ltb_spec b a) as [Lt|]; [|lia].
      pose proof (Z.mul_div_le (a - b - 1) (- c) ltac:(lia)). right. nia.
    + destruct (Z.ltb_spec a b) as [Lt|]; [|lia].
      pose proof (Z.mul_div_le (b - a - 1) c ltac:(lia)). left. nia.
  - intros (B & Md). apply (Z.div_exact _ _ Nz) in Md.
    exists ((k - a) / c). split; [|lia].
    destruct B as [(Pos & B) | (Neg & B)].
    + destruct (Z.ltb_spec c 0); [lia|].
      destruct (Z.ltb_spec a b); [|lia].
      assert (U : (k - a) / c <= (b - a - 1) / c)
        by (apply Z.div_le_lower_bound; lia).
      split; [nia | lia].
    + destruct (Z.ltb_spec c 0); [|lia].
      destruct (Z.ltb_spec b a); [|lia].
      assert (U : (k - a) / c <= (a - b - 1) / (- c))
        by (apply Z.div_le_lower_bound; lia).
      split; [nia | lia].
Qed.

Lemma getslice_all (n : Z) :
  0 <= n -> Slice.getslice (range n) None None None = Return (range n).
Proof.
  intros Hn. rewrite (getslice_range None None None n 0 n 1 Hn eq_refl).
  f_equal. unfold Slice.slicelength. cbn [Z.ltb Z.compare].
  destruct (Z.ltb_spec 0 n).
  - replace ((n - 0 - 1) / 1 + 1) with n by (rewrite Z.div_1_r; lia).
    rewrite <- (map_id (range n)) at 2. apply map_ext. intros i. lia.
  - replace n with 0 by lia. reflexivity.
Qed.

End SliceFacts.

Lemma getitem_list_nth {A} (l : list A) (k : Z) (x : A) :
  0 <= k -> nth_error l (Z.to_nat k) = Some x ->
  PyList.getitem l k = Return x.
Proof.
  intros Hk E. unfold PyList.getitem.
  assert (B : (Z.to_nat k < List.length l)%nat)
    by (apply nth_error_Some; congruence).
  assert (L : (k <? 0) = false) by (apply Z.ltb_ge; lia).
  assert (G : (k >=? len l) = false).
  { destruct (Z.geb_spec k (len l)); [unfold len in *; lia|reflexivity]. }
  cbv zeta. rewrite L. cbv iota. rewrite L, G. cbn [orb]. now rewrite E.
Qed.

Lemma getitem_list_out {A} (l : list A) (k : Z) :
  k >= len l \/ k < - len l -> PyList.getitem l k = Raise IndexError.
Proof.
  intros H. unfold PyList.getitem. pose proof (len_nonneg l). cbv zeta.
  destruct (Z_lt_le_dec k 0).
  - assert (L0 : (k <? 0) = true) by (apply Z.ltb_lt; lia).
    assert (L : (k + len l <? 0) = true) by (apply Z.ltb_lt; lia).
    rewrite L0. cbv iota. now rewrite L.
  - assert (L : (k <? 0) = false) by (apply Z.ltb_ge; lia).
    assert (G : (k >=? len l) = true).
    { destruct (Z.geb_spec k (len l)); [reflexivity|lia]. }
    rewrite L. cbv iota. now rewrite L, G.
Qed.

(** An index inside the list, counted from the end when it is below
    zero. *)
Lemma getitem_list_resolved {A} (l : list A) (k : Z) (x : A) :
  - len l <= k < len l ->
  nth_error l (Z.to_nat (if k <? 0 then k + len l else k)) = Some x ->
  PyList.getitem l k = Return x.
Proof.
  intros B E. unfold PyList.getitem. cbv zeta.
  destruct (Z.ltb_spec k 0) as [Neg|Pos].
  - assert (L : (k + len l <? 0) = false) by (apply Z.ltb_ge; lia).
    assert (G : (k + len l >=? len l) = false).
    { destruct (Z.geb_spec (k + len l) (len l)); [lia|reflexivity]. }
    rewrite L, G. cbn [orb]. now rewrite E.
  - assert (L : (k <? 0) = false) by (apply Z.ltb_ge; lia).
    assert (G : (k >=? len l) = false).
    { destruct (Z.geb_spec k (len l)); [lia|reflexivity]. }
    rewrite L, G. cbn [orb]. now rewrite E.
Qed.

Lemma nth_error_inside {A} (l : list A) (k : Z) :
  0 <= k < len l -> exists x, nth_error l (Z.to_nat k) = Some x.
Proof.
  intros B. destruct (nth_error l (Z.to_nat k)) as [x|] eqn:E; [now exists x|].
  apply nth_error_None in E. unfold len in B. lia.
Qed.

(** [traj[start:stop:step]] with a zero step raises [ValueError] before
    anything is read.  With any other step [c] it reads the frames
    [a], [a + c], [a + 2 c], ... in this order, [a] and [b] being the
    bounds that [slice.indices] gives for [len(steps)]: these are the
    indices between [a] and [b] ([a] included, [b] not) that are a whole
    number of steps away from [a], and they all lie in [0, len(steps)),
    so that a slice, unlike an integer key, never hands [read] an index
    outside the trajectory.  [traj[:]] reads what iterating over the
    trajectory reads. *)
Theorem getitem_slice_reads_frames_in_range {X F : Type} (cb : Callbacks F)
  (m : TrajectoryBase.Methods X F) (self : TrajectoryBase.t X) :
  (forall start stop,
      TrajectoryBase.__getitem__ (TrajectoryBase.KeySlice start stop (Some 0))
        self = (self, Raise ValueError))
  /\ (forall start stop step,
         step <> Some 0 ->
         exists a b c,
           Slice.indices start stop step (len (TrajectoryBase.steps self))
           = Return (a, b, c)
           /\ c = match step with Some v => v | None => 1 end
           /\ let idx :=
                map (fun i => a + i * c) (range (Slice.slicelength a b c)) in
              TrajectoryBase.__getitem__
                (TrajectoryBase.KeySlice start stop step) self
              = (l <- comprehension idx (fun i => TrajectoryBase.read i) ;;
                 ret (TrajectoryBase.Frames l)) self
              /\ (forall n k,
                     nth_error idx n = Some k ->
                     k = a + Z.of_nat n * c
                     /\ 0 <= k < len (TrajectoryBase.steps self))
              /\ (forall k,
                     In k idx
                     <-> ((0 < c /\ a <= k < b) \/ (c < 0 /\ b < k <= a))
                         /\ (k - a) mod c = 0))
  /\ TrajectoryBase.__getitem__ (TrajectoryBase.KeySlice None None None) self
     = (l <- Iteration.__iter__ ;; ret (TrajectoryBase.Frames l)) self.
Proof.
  pose proof (len_nonneg (TrajectoryBase.steps self)) as Hn.
  split; [|split].
  - intros start stop. unfold TrajectoryBase.__getitem__, bind at 1, get.
    unfold Slice.getslice. rewrite indices_zero_step. reflexivity.
  - intros start stop step N.
    destruct (indices_total start stop step
                (len (TrajectoryBase.steps self)) N) as (a & b & c & I).
    assert (Ec : c = match step with Some v => v | None => 1 end).
    { unfold Slice.indices in I.
      destruct (_ =? 0); [discriminate|]. now injection I. }
    assert (Nz : c <> 0).
    { rewrite Ec. destruct step as [v|]; [|discriminate].
      intros ->. now apply N. }
    exists a, b, c. split; [exact I|]. split; [exact Ec|].
    cbv zeta. split; [|split].
    + unfold TrajectoryBase.__getitem__, bind at 1, get.
      rewrite (getslice_range _ _ _ _ a b c Hn I). reflexivity.
    + intros n k Hk. rewrite nth_error_map in Hk.
      destruct (nth_error (range (Slice.slicelength a b c)) n) as [r|] eqn:Er;
        [|discriminate].
      injection Hk as <-.
      pose proof (nth_error_In _ _ Er) as Hr. apply range_In in Hr.
      rewrite (range_nth_inv _ _ _ Er) in *. split; [reflexivity|].
      exact (indices_in_range _ _ _ _ a b c _ Hn I Hr).
    + intros k. rewrite <- (slice_index_iff a b c k Nz), in_map_iff.
      split.
      * intros (i & <- & Hi). exists i. split; [now apply range_In|reflexivity].
      * intros (i & Hi & ->). exists i. split; [reflexivity|].
        rewrite <- (Z2Nat.id i) by lia. apply (nth_error_In _ (Z.to_nat i)).
        rewrite Z2Nat.id by lia. now apply range_nth.
  - unfold TrajectoryBase.__getitem__, bind at 1, get.
    rewrite (getslice_all _ Hn). reflexivity.
Qed.

Lemma getitem_slice_reads_frames_in_range_witness :
  let cb := Memory.no_callbacks (frame Q) in
  snd (TrajectoryBase.__getitem__ (m := Memory.methods (frame Q))
         (TrajectoryBase.KeySlice (Some (-7)) (Some 9) (Some 2))
         Memory.three_frames)
  = Return (TrajectoryBase.Frames [Some Memory.frame0; Some Memory.frame2])
  /\ snd (TrajectoryBase.__getitem__ (m := Memory.methods (frame Q))
            (TrajectoryBase.KeySlice None (Some 0) (Some (-1)))
            Memory.three_frames)
     = Return (TrajectoryBase.Frames [Some Memory.frame2; Some Memory.frame1]).
Proof.
  intros cb.
  destruct (getitem_slice_reads_frames_in_range cb (Memory.methods (frame Q))
              Memory.three_frames) as (_ & H & _).
  split.
  - destruct (H (Some (-7)) (Some 9) (Some 2)) as (a & b & c & I & _ & G & _);
      [discriminate|].
    vm_compute in I. injection I as <- <- <-.
    rewrite G. vm_compute. reflexivity.
  - destruct (H None (Some 0) (Some (-1))) as (a & b & c & I & _ & G & _);
      [discriminate|].
    vm_compute in I. injection I as <- <- <-.
    rewrite G. vm_compute. reflexivity.
Defined.

(** ** Sliced *)

Section SlicedFacts.

Import TrajectoryBase.

Context {X F : Type} {m : Methods X F}.

Lemma sliced_init_run (c : t X) (start stop step : option Z) (a b k : Z) :
  Slice.indices start stop step (len (steps c)) = Return (a, b, k) ->
  Sliced.__init__ c start stop step
  = Return (set_steps
              (map (fun i => nth (Z.to_nat (a + i * k)) (steps c) 0)
                   (range (Slice.slicelength a b k)))
              (set_attrs
                 (Sliced.Attributes (attrs c)
                    (map (fun i => a + i * k)
                         (range (Slice.slicelength a b k)))) c)).
Proof.
  intros I. unfold Sliced.__init__.
  rewrite (getslice_range _ _ _ _ a b k (len_nonneg _) I).
  now rewrite (getslice_list _ _ _ _ a b k I).
Qed.

End SlicedFacts.

(** [Sliced(component, slice)] refuses a zero step with [ValueError] and
    otherwise returns an object whose [steps] and [_sliced_samples] are
    aligned: they have one length, every sample is a valid frame index of
    the component, the [k]-th step is the component's step at the
    [k]-th sample, and [read_sample(k)] is the component's [read_sample]
    at that sample. *)
Theorem sliced_steps_follow_samples {X F : Type}
  (m : TrajectoryBase.Methods X F) (c : TrajectoryBase.t X)
  (start stop step : option Z) :
  (step = Some 0 -> Sliced.__init__ c start stop step = Raise ValueError)
  /\ (step <> Some 0 ->
      exists self,
        Sliced.__init__ c start stop step = Return self
        /\ len (TrajectoryBase.steps self)
           = len (Sliced._sliced_samples (TrajectoryBase.attrs self))
        /\ (forall k i,
               nth_error (Sliced._sliced_samples (TrajectoryBase.attrs self)) k
               = Some i ->
               0 <= i < len (TrajectoryBase.steps c)
               /\ nth_error (TrajectoryBase.steps self) k
                  = nth_error (TrajectoryBase.steps c) (Z.to_nat i)
               /\ Sliced.read_sample (Z.of_nat k) self
                  = Sliced.super (TrajectoryBase.read_sample i) self)).
Proof.
  split.
  - intros ->. unfold Sliced.__init__, Slice.getslice.
    now rewrite indices_zero_step.
  - intros N.
    destruct (indices_total start stop step
                (len (TrajectoryBase.steps c)) N) as (a & b & k & I).
    eexists. split; [exact (sliced_init_run c start stop step a b k I)|].
    cbn [TrajectoryBase.steps TrajectoryBase.set_steps TrajectoryBase.attrs
         TrajectoryBase.set_attrs Sliced._sliced_samples].
    split; [unfold len; now rewrite !length_map|].
    intros j i Hj.
    rewrite nth_error_map in Hj.
    destruct (nth_error (range (Slice.slicelength a b k)) j) as [r|] eqn:Er;
      [|discriminate].
    injection Hj as <-.
    pose proof (nth_error_In _ _ Er) as Hr. apply range_In in Hr.
    pose proof (indices_in_range _ _ _ _ a b k r (len_nonneg _) I Hr) as B.
    split; [exact B|]. split.
    + rewrite nth_error_map, Er. cbn [option_map].
      symmetry. apply nth_error_nth'. unfold len in B. lia.
    + unfold Sliced.read_sample, bind at 1, get.
      cbn [TrajectoryBase.attrs TrajectoryBase.set_steps
           TrajectoryBase.set_attrs Sliced._sliced_samples].
      rewrite (getitem_list_nth _ (Z.of_nat j) (a + r * k)).
      * reflexivity.
      * lia.
      * rewrite Nat2Z.id, nth_error_map, Er. reflexivity.
Qed.

Lemma sliced_steps_follow_samples_witness :
  exists self,
    Sliced.__init__ Memory.three_frames None None (Some (-2)) = Return self
    /\ TrajectoryBase.steps self = [20; 0]
    /\ Sliced._sliced_samples (TrajectoryBase.attrs self) = [2; 0]
    /\ Sliced.read_sample (m := Memory.methods (frame Q)) 1 self
       = Sliced.super (TrajectoryBase.read_sample 0) self
    /\ Sliced.__init__ Memory.three_frames None (Some 1) (Some 0)
       = Raise ValueError.
Proof.
  destruct (sliced_steps_follow_samples (Memory.methods (frame Q))
              Memory.three_frames None None (Some (-2))) as (_ & H).
  destruct (H ltac:(discriminate)) as (self & I & _ & A).
  exists self. split; [exact I|].
  assert (E : self = TrajectoryBase.set_steps [20; 0]
                       (TrajectoryBase.set_attrs
                          (Sliced.Attributes
                             (TrajectoryBase.attrs Memory.three_frames) [2; 0])
                          Memory.three_frames)).
  { vm_compute in I. injection I as <-. reflexivity. }
  split; [now rewrite E|]. split; [now rewrite E|]. split.
  - apply (A 1%nat 0). now rewrite E.
  - apply (sliced_steps_follow_samples (Memory.methods (frame Q))
             Memory.three_frames None (Some 1) (Some 0)). reflexivity.
Defined.

(* ================================================================== *)
(** * Further properties of the decorators *)

(** ** center and Centered *)

(** On a key that it has not seen, [Centered.read_sample] returns what
    the callback [center] returns on the frame of the wrapped layer, and
    raises what [center] raises. *)
Theorem centered_applies_center {R : Type} (a : Arith R) {X : Type}
  (m : TrajectoryBase.Methods X (frame R))
  (self : TrajectoryBase.t (Centered.attributes X)) (sample : Z)
  (c : TrajectoryBase.t X) (s : System R) :
  ~ In sample (Centered._Centered__done (TrajectoryBase.attrs self)) ->
  TrajectoryBase.read_sample sample (Centered.inner self)
  = (c, Return (Some s)) ->
  Centered.read_sample sample self
  = (TrajectoryBase.set_attrs
       (Centered.Attributes
          (TrajectoryBase.attrs c)
          (Centered._Centered__done (TrajectoryBase.attrs self) ++ [sample]))
       c,
     match Callback.center s with
     | Return s' => Return (Some s')
     | Raise e => Raise e
     end).
Proof.
  intros I Rd. rewrite (centered_miss_run sample self I). cbv zeta.
  unfold frame in *. rewrite Rd. cbn [fst snd]. unfold Callback.center.
  now destruct (Centered.center_particles _ _).
Qed.

Lemma centered_applies_center_witness :
  let self := Centered.__init__ Memory.three_frames in
  snd (Centered.read_sample (a := exact) 2 self)
  = match Callback.center (a := exact) Memory.frame2 with
    | Return s' => Return (Some s')
    | Raise e => Raise e
    end.
Proof.
  intros self.
  rewrite (centered_applies_center exact (Memory.methods (frame Q)) self 2
             Memory.three_frames Memory.frame2).
  - reflexivity.
  - intros [].
  - reflexivity.
Defined.

(** [center] does not remember what it has centered: applied to its own
    result it subtracts half the cell side a second time. *)
Theorem center_twice_subtracts_twice {R : Type} (a : Arith R) (s : System R) :
  (forall p, In p (particle s) ->
             List.length (position p) = List.length (side (cell s))) ->
  let h := Numpy.halve (side (cell s)) in
  let once (p : Particle R) :=
    set_position (Numpy.zip_with fsub (position p) h) p in
  Callback.center s = Return (set_particle (map once (particle s)) s)
  /\ Callback.center (set_particle (map once (particle s)) s)
     = Return (set_particle (map once (map once (particle s))) s)
  /\ (forall i p k x L,
         nth_error (particle s) i = Some p ->
         nth_error (position p) k = Some x ->
         nth_error (side (cell s)) k = Some L ->
         exists p',
           nth_error (map once (map once (particle s))) i = Some p'
           /\ nth_error (position p') k
              = Some (fsub (fsub x (fdiv L two)) (fdiv L two))).
Proof.
  intros Sh h once.
  assert (Hh : List.length h = List.length (side (cell s)))
    by apply halve_length.
  split; [|split].
  - unfold Callback.center. now rewrite (center_particles_equal _ _ Sh).
  - unfold Callback.center. cbn [particle cell set_particle].
    rewrite center_particles_equal; [reflexivity|].
    intros p Hp. apply in_map_iff in Hp as (q & <- & Hq).
    unfold once. cbn [position set_position].
    rewrite zip_with_length; [now apply Sh|].
    rewrite (Sh q Hq). now rewrite Hh.
  - intros i p k x L Hp Hx HL.
    exists (once (once p)). split.
    + now apply map_nth_error, map_nth_error.
    + assert (Hk : nth_error h k = Some (fdiv L two))
        by (now apply (map_nth_error (fun y => fdiv y two))).
      unfold once. cbn [position set_position].
      apply zip_with_nth_error; [|exact Hk].
      now apply zip_with_nth_error.
Qed.

Lemma center_twice_subtracts_twice_witness :
  exists s1 s2,
    Callback.center (a := exact) Memory.frame0 = Return s1
    /\ Callback.center (a := exact) s1 = Return s2
    /\ map position (particle s2)
       = [[(7 # 4) - 2 / (2 # 1) - 2 / (2 # 1); 1 - 2 / (2 # 1) - 2 / (2 # 1);
           1 - 2 / (2 # 1) - 2 / (2 # 1)];
          [(1 # 2) - 2 / (2 # 1) - 2 / (2 # 1);
           (1 # 2) - 2 / (2 # 1) - 2 / (2 # 1);
           (1 # 2) - 2 / (2 # 1) - 2 / (2 # 1)]]%Q.
Proof.
  destruct (center_twice_subtracts_twice exact Memory.frame0) as (H1 & H2 & _).
  - intros p [<- | [<- | []]]; reflexivity.
  - do 2 eexists. split; [exact H1|]. split; [exact H2|]. reflexivity.
Defined.

(** ** NormalizeId *)

Section NormalizeFacts.

Context {R : Type}.

Lemma minimum_le_head (x : Z) (l : list Z) : NormalizeId.minimum x l <= x.
Proof.
  unfold NormalizeId.minimum. revert x.
  induction l as [|y l IH]; intros x; cbn; [lia|].
  specialize (IH (Z.min x y)). lia.
Qed.

Lemma minimum_le_member (x : Z) (l : list Z) (y : Z) :
  In y l -> NormalizeId.minimum x l <= y.
Proof.
  unfold NormalizeId.minimum. revert x.
  induction l as [|z l IH]; intros x H; [destruct H|].
  destruct H as [E|I]; cbn.
  - subst. pose proof (minimum_le_head (Z.min x y) l).
    unfold NormalizeId.minimum in *. lia.
  - now apply IH.
Qed.

Lemma minimum_member (x : Z) (l : list Z) :
  In (NormalizeId.minimum x l) (x :: l).
Proof.
  unfold NormalizeId.minimum. revert x.
  induction l as [|y l IH]; intros x; cbn; [now left|].
  destruct (IH (Z.min x y)) as [E|I].
  - rewrite <- E. destruct (Z.min_spec x y) as [(_ & ->)|(_ & ->)]; auto.
  - right. now right.
Qed.

Lemma minimum_shift (x : Z) (l : list Z) :
  NormalizeId.minimum (x + 1) (map (fun i => i + 1) l)
  = NormalizeId.minimum x l + 1.
Proof.
  unfold NormalizeId.minimum. revert x.
  induction l as [|y l IH]; intros x; cbn; [reflexivity|].
  rewrite <- IH. f_equal. lia.
Qed.

Lemma normalize_ids (p : Particle R) (pl : list (Particle R)) :
  let id_min := NormalizeId.minimum (id p) (map id pl) in
  exists pl',
    NormalizeId._normalize (p :: pl) = Return pl'
    /\ map id pl'
       = map (fun i => if id_min =? 0 then i + 1 else i) (map id (p :: pl))
    /\ map position pl' = map position (p :: pl)
    /\ (id_min <> 0 -> pl' = p :: pl).
Proof.
  intros id_min. unfold NormalizeId._normalize. cbn [map]. fold id_min.
  destruct (Z.eqb_spec id_min 0) as [E|N].
  - eexists. split; [reflexivity|]. cbn [map id position set_id].
    rewrite !map_map. cbn [id position set_id].
    split; [reflexivity|]. split; [reflexivity|]. intros N. contradiction.
  - exists (p :: pl). split; [reflexivity|].
    rewrite map_id. repeat split.
Qed.

End NormalizeFacts.

(** [_normalize] refuses an empty list of particles with [ValueError].
    On a non-empty list it adds one to every id when the smallest id is
    0, and returns the list as it is otherwise; positions are never
    touched.  So the smallest id of the result is 1 when the smallest id
    was 0 or 1 and is unchanged otherwise, no id is lowered, and
    normalising the result again changes nothing. *)
Theorem normalize_id_shifts_zero_based {R : Type} (p : Particle R)
  (pl : list (Particle R)) :
  let id_min := NormalizeId.minimum (id p) (map id pl) in
  NormalizeId._normalize ([] : list (Particle R)) = Raise ValueError
  /\ exists q ql,
       NormalizeId._normalize (p :: pl) = Return (q :: ql)
       /\ map id (q :: ql)
          = map (fun i => if id_min =? 0 then i + 1 else i) (map id (p :: pl))
       /\ map position (q :: ql) = map position (p :: pl)
       /\ NormalizeId.minimum (id q) (map id ql)
          = (if id_min =? 0 then 1 else id_min)
       /\ NormalizeId._normalize (q :: ql) = Return (q :: ql).
Proof.
  intros id_min. split; [reflexivity|].
  destruct (normalize_ids p pl) as (pl' & N & I & P & U). fold id_min in I, U.
  destruct pl' as [|q ql]; [discriminate|].
  exists q, ql. split; [exact N|]. split; [exact I|]. split; [exact P|].
  assert (Min : NormalizeId.minimum (id q) (map id ql)
                = (if id_min =? 0 then 1 else id_min)).
  { cbn [map] in I. injection I as Eq Eql. rewrite Eq, Eql.
    destruct (Z.eqb_spec id_min 0) as [E|_].
    - rewrite minimum_shift. fold id_min. lia.
    - now rewrite map_id. }
  split; [exact Min|].
  unfold NormalizeId._normalize. cbn [map]. rewrite Min.
  destruct (Z.eqb_spec id_min 0) as [E|NE]; [reflexivity|].
  destruct (Z.eqb_spec id_min 0); [contradiction|reflexivity].
Qed.

(** [NormalizeId.read_sample] returns the frame of the wrapped layer
    with [_normalize] applied to its particles: a frame without particles
    raises [ValueError]; otherwise the returned frame has the cell and
    the positions of the frame read, its ids are those of the frame read,
    each raised by one when the smallest of them is 0, and when no id of
    the frame read is negative every returned id is at least 1. *)
Theorem normalize_id_read_sample {R X : Type}
  (m : TrajectoryBase.Methods X (frame R)) (self c : TrajectoryBase.t X)
  (sample : Z) (s : System R) :
  TrajectoryBase.read_sample sample self = (c, Return (Some s)) ->
  (particle s = [] ->
   NormalizeId.read_sample sample self = (c, Raise ValueError))
  /\ (particle s <> [] ->
      exists s',
        NormalizeId.read_sample sample self = (c, Return (Some s'))
        /\ NormalizeId._normalize (particle s) = Return (particle s')
        /\ cell s' = cell s
        /\ map position (particle s') = map position (particle s)
        /\ (forall x l,
               map id (particle s) = x :: l ->
               map id (particle s')
               = map (fun i => if NormalizeId.minimum x l =? 0
                               then i + 1 else i) (x :: l))
        /\ ((forall p, In p (particle s) -> 0 <= id p) ->
            forall p, In p (particle s') -> 1 <= id p)).
Proof.
  intros Rd.
  assert (Run : NormalizeId.read_sample sample self
                = match NormalizeId._normalize (particle s) with
                  | Return pl => (c, Return (Some (set_particle pl s)))
                  | Raise e => (c, Raise e)
                  end).
  { unfold NormalizeId.read_sample, bind at 1.
    unfold frame in *. rewrite Rd. unfold bind, lift.
    now destruct (NormalizeId._normalize (particle s)). }
  rewrite Run. split.
  - intros ->. reflexivity.
  - intros NE. destruct (particle s) as [|p pl] eqn:E; [contradiction|].
    destruct (normalize_ids p pl) as (pl' & N & I & P & U).
    exists (set_particle pl' s). rewrite N. cbn [particle cell set_particle].
    split; [reflexivity|]. split; [reflexivity|]. split; [reflexivity|].
    split; [exact P|]. split.
    + intros x l [= <- <-]. exact I.
    + intros Pos q Hq.
      assert (Hi : In (id q) (map id pl')) by now apply in_map.
      rewrite I in Hi. apply in_map_iff in Hi as (i & Ei & Hi).
      assert (Hmin : NormalizeId.minimum (id p) (map id pl) <= i).
      { destruct Hi as [<- | Hi];
          [apply minimum_le_head | now apply minimum_le_member]. }
      assert (Hmem := minimum_member (id p) (map id pl)).
      assert (0 <= NormalizeId.minimum (id p) (map id pl)).
      { change (id p :: map id pl) with (map id (p :: pl)) in Hmem.
        apply in_map_iff in Hmem as (r & <- & Hr). now apply Pos. }
      destruct (Z.eqb_spec (NormalizeId.minimum (id p) (map id pl)) 0); lia.
Qed.

Lemma normalize_id_read_sample_witness :
  let s0 := Build_System' Q [Memory.particle_at 0 0 0 0 "A";
                             Memory.particle_at 1 1 1 1 "B"] Memory.cube in
  let zero := Memory.open "zero.xyz"
                [(0, Some s0); (1, Some (Build_System' Q [] Memory.cube))] in
  (exists s',
      NormalizeId.read_sample (m := Memory.methods (frame Q)) 0 zero
      = (zero, Return (Some s'))
      /\ map id (particle s') = [1; 2]
      /\ map position (particle s') = [[0; 0; 0]; [1; 1; 1]]%Q
      /\ cell s' = Memory.cube)
  /\ NormalizeId.read_sample (m := Memory.methods (frame Q)) 1 zero
     = (zero, Raise ValueError).
Proof.
  intros s0 zero. split.
  - destruct (normalize_id_read_sample (Memory.methods (frame Q)) zero zero 0
                s0 eq_refl) as (_ & H).
    destruct (H ltac:(discriminate)) as (s' & Rd & _ & C & P & I & _).
    exists s'. split; [exact Rd|].
    split; [exact (I 0 [1] eq_refl)|]. split; [exact P | exact C].
  - destruct (normalize_id_read_sample (Memory.methods (frame Q)) zero zero 1
                (Build_System' Q [] Memory.cube) eq_refl) as (H & _).
    exact (H eq_refl).
Defined.

(** ** Sorted and sort *)

Section SortedFacts.

Context {R : Type}.

Lemma insert_by_id_perm (p : Particle R) (l : list (Particle R)) :
  Permutation (p :: l) (Callback.insert_by_id p l).
Proof.
  induction l as [|q l IH]; cbn; [reflexivity|].
  destruct (id p <=? id q); [reflexivity|].
  rewrite perm_swap. now constructor.
Qed.

Lemma insert_by_id_sorted (p : Particle R) (l : list (Particle R)) :
  Sorted Callback.id_le l -> Sorted Callback.id_le (Callback.insert_by_id p l).
Proof.
  induction l as [|q l IH]; intros S; cbn.
  - repeat constructor.
  - destruct (Z.leb_spec (id p) (id q)) as [Le|Gt].
    + constructor; [assumption|]. now constructor.
    + inversion S as [|? ? S' Hd]; subst.
      constructor; [now apply IH|].
      destruct l as [|r l]; cbn.
      * constructor. unfold Callback.id_le. lia.
      * destruct (id p <=? id r); constructor; unfold Callback.id_le;
          [lia | now inversion Hd].
Qed.

Lemma insert_by_id_filter (p : Particle R) (l : list (Particle R)) (k : Z) :
  filter (fun q => id q =? k) (Callback.insert_by_id p l)
  = filter (fun q => id q =? k) (p :: l).
Proof.
  induction l as [|q l IH]; cbn; [reflexivity|].
  destruct (Z.leb_spec (id p) (id q)) as [Le|Gt]; [reflexivity|].
  cbn [filter]. rewrite IH. cbn [filter].
  destruct (Z.eqb_spec (id q) k), (Z.eqb_spec (id p) k); try reflexivity.
  lia.
Qed.

Lemma sorted_by_id_spec (l : list (Particle R)) :
  Permutation l (Callback.sorted_by_id l)
  /\ Sorted Callback.id_le (Callback.sorted_by_id l)
  /\ forall k, filter (fun q => id q =? k) (Callback.sorted_by_id l)
               = filter (fun q => id q =? k) l.
Proof.
  induction l as [|p l (P & S & F)]; cbn.
  - repeat split; constructor.
  - split; [|split].
    + rewrite <- insert_by_id_perm. now constructor.
    + now apply insert_by_id_sorted.
    + intros k. rewrite insert_by_id_filter. cbn [filter]. now rewrite F.
Qed.

End SortedFacts.

(** [Sorted.read_sample] returns the frame of the wrapped layer, with
    its cell, and with its particles stably sorted by id, the list that
    the callback [sort] returns: the particles of the returned frame are
    the particles read, in non-decreasing id order, those of one id in
    the order they had. *)
Theorem sorted_read_sample_is_stable_sort {R X : Type}
  (m : TrajectoryBase.Methods X (frame R)) (self c : TrajectoryBase.t X)
  (sample : Z) (s : System R) :
  TrajectoryBase.read_sample sample self = (c, Return (Some s)) ->
  exists s',
    Sorted.read_sample sample self = (c, Return (Some s'))
    /\ cell s' = cell s
    /\ particle s' = Callback.sort s
    /\ Permutation (particle s) (particle s')
    /\ Sorted Callback.id_le (particle s')
    /\ (forall k, filter (fun q => id q =? k) (particle s')
                  = filter (fun q => id q =? k) (particle s)).
Proof.
  intros Rd. exists (set_particle (Callback.sort s) s). split.
  - unfold Sorted.read_sample, bind. unfold frame in *. now rewrite Rd.
  - cbn [cell particle set_particle]. split; [reflexivity|].
    split; [reflexivity|]. apply sorted_by_id_spec.
Qed.

Lemma sorted_read_sample_is_stable_sort_witness :
  let s0 := Build_System' Q [Memory.particle_at 0 0 0 2 "B";
                             Memory.particle_at 1 1 1 1 "A";
                             Memory.particle_at 2 2 2 2 "b";
                             Memory.particle_at 3 3 3 1 "a"] Memory.cube in
  let t := Memory.open "mix.xyz" [(0, Some s0)] in
  exists s',
    Sorted.read_sample (m := Memory.methods (frame Q)) 0 t
    = (t, Return (Some s'))
    /\ map name (particle s') = ["A"; "a"; "B"; "b"]%string
    /\ map id (particle s') = [1; 1; 2; 2]
    /\ cell s' = Memory.cube.
Proof.
  intros s0 t.
  destruct (sorted_read_sample_is_stable_sort (Memory.methods (frame Q))
              t t 0 s0 eq_refl) as (s' & Rd & C & P & _).
  exists s'. split; [exact Rd|]. rewrite P, C. repeat split.
Defined.

(** ** MatrixFix and filter_id *)

Section FluidFacts.

Context {R : Type}.

Lemma fluid_In (M : list Z) (ps : list (Particle R)) (p : Particle R) :
  In p (MatrixFix.fluid M ps) <-> In p ps /\ ~ In (id p) M.
Proof.
  unfold MatrixFix.fluid. rewrite filter_In. rewrite negb_true_iff.
  now rewrite int_in_false.
Qed.

Lemma filter_twice {A} (f g : A -> bool) (l : list A) :
  filter f (filter g l) = filter (fun x => f x && g x) l.
Proof.
  induction l as [|x l IH]; cbn; [reflexivity|].
  destruct (g x); cbn; rewrite ?andb_true_r, ?andb_false_r.
  - destruct (f x); now rewrite IH.
  - exact IH.
Qed.

Lemma filter_none {A} (f : A -> bool) (l : list A) :
  (forall x, In x l -> f x = false) -> filter f l = [].
Proof.
  induction l as [|x l IH]; intros H; cbn; [reflexivity|].
  rewrite (H x (or_introl eq_refl)). apply IH. intros y Hy. apply H. now right.
Qed.

End FluidFacts.

(** [MatrixFix.read_sample] returns the frame of the wrapped layer
    without the particles whose id is among [matrix_species], the others
    in their order.  Applying [filter_id] to such a frame gives no
    particle for a matrix species and what [filter_id] gives on the
    unfiltered frame for any other species. *)
Theorem matrix_fix_removes_matrix_species {R X : Type}
  (m : TrajectoryBase.Methods X (frame R))
  (self : TrajectoryBase.t (MatrixFix.attributes X)) (c : TrajectoryBase.t X)
  (sample : Z) (s : System R) :
  TrajectoryBase.read_sample sample (MatrixFix.inner self)
  = (c, Return (Some s)) ->
  let M := MatrixFix.matrix_species (TrajectoryBase.attrs self) in
  let s' := set_particle (MatrixFix.fluid M (particle s)) s in
  MatrixFix.read_sample sample self
  = (TrajectoryBase.set_attrs (MatrixFix.Attributes (TrajectoryBase.attrs c) M) c,
     Return (Some s'))
  /\ (forall p, In p (particle s') <-> In p (particle s) /\ ~ In (id p) M)
  /\ (forall species,
         In species M -> particle (Callback.filter_id s' species) = [])
  /\ (forall species,
         ~ In species M ->
         Callback.filter_id s' species
         = Callback.filter_id s species).
Proof.
  intros Rd M s'. split; [|split; [|split]].
  - unfold MatrixFix.read_sample, bind at 1, MatrixFix.super, super_call.
    change (TrajectoryBase.set_attrs
              (MatrixFix.component (TrajectoryBase.attrs self)) self)
      with (MatrixFix.inner self).
    unfold frame in *. rewrite Rd. reflexivity.
  - intros p. apply fluid_In.
  - intros species I. unfold Callback.filter_id. cbn [particle set_particle].
    apply filter_none. intros p Hp. apply fluid_In in Hp as (_ & N).
    apply Z.eqb_neq. intros E. apply N. now rewrite E.
  - intros species N. unfold Callback.filter_id, s', set_particle.
    cbn [particle cell]. f_equal.
    unfold MatrixFix.fluid. rewrite filter_twice. apply filter_ext.
    intros p. destruct (Z.eqb_spec (id p) species) as [E|]; [|reflexivity].
    apply int_in_false in N. now rewrite E, N.
Qed.

Lemma matrix_fix_removes_matrix_species_witness :
  let self := MatrixFix.__init__ Memory.three_frames [2; 5] in
  exists self1 s',
    MatrixFix.read_sample (m := Memory.methods (frame Q)) 1 self
    = (self1, Return (Some s'))
    /\ map name (particle s') = ["A"%string]
    /\ particle (Callback.filter_id s' 2) = []
    /\ Callback.filter_id s' 1 = Callback.filter_id Memory.frame1 1.
Proof.
  intros self.
  destruct (matrix_fix_removes_matrix_species (Memory.methods (frame Q)) self
              Memory.three_frames 1 Memory.frame1 eq_refl)
    as (Rd & _ & H3 & H4).
  do 2 eexists. split; [exact Rd|]. split; [reflexivity|]. split.
  - apply H3. now left.
  - apply H4. intros [E | [E | []]]; discriminate.
Defined.

(** ** Unfolded: skipped frames *)

Section UnfoldedSkip.

Import TrajectoryBase.

Context {R : Type} {a : Arith R} {X : Type} {m : Methods X (frame R)}.

Lemma for_each_ext {S A} (l : list A) (f g : A -> M S unit) :
  (forall x s, f x s = g x s) -> forall s, for_each l f s = for_each l g s.
Proof.
  intros E. induction l as [|x l IH]; intros s; cbn; [reflexivity|].
  unfold bind. rewrite E. destruct (g x s) as [s' [[]|e]]; [apply IH|reflexivity].
Qed.

Lemma read_sample_rec_S (depth : nat) (sample : Z) :
  Unfolded.read_sample_rec (S depth) sample
  = if sample =? 0 then Unfolded.super (read_sample sample)
    else
      self <- get ;;
      match Unfolded._last_read (attrs self) with
      | None => raise AttributeError
      | Some last =>
          let delta := sample - last in
          if delta <? 0 then raise ValueError
          else
            (if delta >? 1
             then for_each (range (delta - 1))
                    (fun _ =>
                       self <- get ;;
                       match Unfolded._last_read (attrs self) with
                       | None => raise AttributeError
                       | Some last =>
                           Unfolded.read_sample_rec depth (last + 1) ;;; ret tt
                       end)
             else ret tt) ;;;
            Skip.after_skip sample
      end.
Proof. reflexivity. Qed.

(** A call for the frame after the last one read does not call itself. *)
Lemma unfolded_next_depth (depth : nat) (last : Z)
  (self : t (Unfolded.attributes R X)) :
  Unfolded._last_read (attrs self) = Some last ->
  last + 1 <> 0 ->
  Unfolded.read_sample_rec (S depth) (last + 1) self
  = Skip.after_skip (last + 1) self.
Proof.
  intros L N. rewrite read_sample_rec_S.
  destruct (Z.eqb_spec (last + 1) 0); [contradiction|].
  unfold bind at 1, get. rewrite L. cbv zeta.
  replace (last + 1 - last) with 1 by lia.
  change (1 <? 0) with false. change (1 >? 1) with false. cbv iota.
  unfold bind at 1, ret. reflexivity.
Qed.

Lemma unfolded_first_depth (depth : nat) (last : Z)
  (self : t (Unfolded.attributes R X)) :
  last + 1 = 0 ->
  Unfolded.read_sample_rec (S depth) (last + 1) self
  = Unfolded.super (read_sample 0) self.
Proof.
  intros E. rewrite read_sample_rec_S, E. reflexivity.
Qed.

Lemma unfolded_loop_body_depth (d d' : nat) (x : Z)
  (self : t (Unfolded.attributes R X)) :
  (self0 <- get ;;
   match Unfolded._last_read (attrs self0) with
   | None => raise AttributeError
   | Some last => Unfolded.read_sample_rec (S d) (last + 1) ;;; ret tt
   end) self
  = (self0 <- get ;;
     match Unfolded._last_read (attrs self0) with
     | None => raise AttributeError
     | Some last => Unfolded.read_sample_rec (S d') (last + 1) ;;; ret tt
     end) self.
Proof.
  unfold bind at 1, get. symmetry. unfold bind at 1, get. symmetry.
  destruct (Unfolded._last_read (attrs self)) as [last|] eqn:L; [|reflexivity].
  unfold bind. destruct (Z.eq_dec (last + 1) 0) as [E|N].
  - now rewrite !(unfolded_first_depth _ last self E).
  - now rewrite !(unfolded_next_depth _ last self L N).
Qed.

(** Two levels of nesting are all that [read_sample] uses. *)
Lemma unfolded_depth (d d' : nat) (sample : Z)
  (self : t (Unfolded.attributes R X)) :
  Unfolded.read_sample_rec (S (S d)) sample self
  = Unfolded.read_sample_rec (S (S d')) sample self.
Proof.
  rewrite !read_sample_rec_S.
  destruct (sample =? 0); [reflexivity|].
  unfold bind at 1, get. symmetry. unfold bind at 1, get. symmetry.
  destruct (Unfolded._last_read (attrs self)) as [last|]; [|reflexivity].
  cbv zeta. destruct (sample - last <? 0); [reflexivity|].
  destruct (sample - last >? 1); [|reflexivity].
  unfold bind at 1. symmetry. unfold bind at 1. symmetry.
  match goal with
  | |- ?lhs = ?rhs =>
      match lhs with
      | context [for_each ?l ?f self] =>
          match rhs with
          | context [for_each l ?g self] =>
              rewrite (for_each_ext l f g (unfolded_loop_body_depth d d') self)
          end
      end
  end.
  reflexivity.
Qed.

End UnfoldedSkip.

Section UnfoldedSkipLoop.

Import TrajectoryBase.

Context {R : Type} {a : Arith R} {X : Type} {m : Methods X (frame R)}.

Lemma read_sample_next (last : Z) (self : t (Unfolded.attributes R X)) :
  Unfolded._last_read (attrs self) = Some last -> last + 1 <> 0 ->
  Unfolded.read_sample (last + 1) self = Skip.after_skip (last + 1) self.
Proof.
  intros L N. rewrite read_sample_deep. now apply unfolded_next_depth.
Qed.

Lemma bind_get {S B} (k : S -> M S B) (s : S) :
  (x <- get ;; k x) s = k s s.
Proof. reflexivity. Qed.

Lemma bind_cont {S A B} (c : M S A) (k1 k2 : A -> M S B) (s : S) :
  (forall s' u, c s = (s', Return u) -> k1 u s' = k2 u s') ->
  bind c k1 s = bind c k2 s.
Proof.
  intros E. unfold bind. destruct (c s) as [s' [u|e]]; [|reflexivity].
  now apply E.
Qed.

Lemma bind_run {S A B} (m1 m2 : M S A) (k : A -> M S B) (s : S) :
  m1 s = m2 s -> bind m1 k s = bind m2 k s.
Proof. intros E. unfold bind. now rewrite E. Qed.

(** The loop over the skipped frames reads them one by one. *)
Lemma skip_loop (d : nat) (xs : list Z) :
  forall (l : Z) (self : t (Unfolded.attributes R X)),
    Unfolded._last_read (attrs self) = Some l -> 0 <= l ->
    for_each xs
      (fun _ =>
         self0 <- get ;;
         match Unfolded._last_read (attrs self0) with
         | None => raise AttributeError
         | Some last => Unfolded.read_sample_rec (S d) (last + 1) ;;; ret tt
         end) self
    = for_each (map (fun j => l + 1 + Z.of_nat j) (seq 0 (List.length xs)))
        (fun k => Unfolded.read_sample k ;;; ret tt) self
    /\ (forall self' u,
           for_each (map (fun j => l + 1 + Z.of_nat j) (seq 0 (List.length xs)))
             (fun k => Unfolded.read_sample k ;;; ret tt) self
           = (self', Return u) ->
           Unfolded._last_read (attrs self')
           = Some (l + Z.of_nat (List.length xs))).
Proof.
  set (B := fun _ : Z =>
              self0 <- get ;;
              match Unfolded._last_read (attrs self0) with
              | None => raise AttributeError
              | Some last =>
                  Unfolded.read_sample_rec (S d) (last + 1) ;;; ret tt
              end).
  set (body := fun k : Z => Unfolded.read_sample k ;;; ret tt).
  assert (EB : forall x l self,
             Unfolded._last_read (attrs self) = Some l -> 0 <= l ->
             B x self = (Skip.after_skip (l + 1) ;;; ret tt) self).
  { intros x l self L Hl. unfold B, bind at 1, get. rewrite L.
    unfold bind. now rewrite (unfolded_next_depth d l self L) by lia. }
  assert (Eb : forall l self,
             Unfolded._last_read (attrs self) = Some l -> 0 <= l ->
             body (l + 1) self = (Skip.after_skip (l + 1) ;;; ret tt) self).
  { intros l self L Hl. unfold body, bind.
    now rewrite (read_sample_next l self L) by lia. }
  induction xs as [|x xs IH]; intros l self L Hl.
  - cbn. split; [reflexivity|]. intros self' u [= <- _].
    rewrite L. f_equal. lia.
  - cbn [List.length seq map for_each].
    replace (l + 1 + Z.of_nat 0) with (l + 1) by lia.
    rewrite <- seq_shift, map_map.
    rewrite (map_ext (fun j => l + 1 + Z.of_nat (S j))
                     (fun j => (l + 1) + 1 + Z.of_nat j))
      by (intros j; lia).
    rewrite (bind_run _ _ _ self (EB x l self L Hl)).
    rewrite (bind_run _ _ _ self (Eb l self L Hl)).
    unfold bind.
    destruct (Skip.after_skip (l + 1) self) as [self1 [f|e]] eqn:A.
    + assert (L1 : Unfolded._last_read (attrs self1) = Some (l + 1)).
      { apply (unfolded_returned_last_read 0 (l + 1) self self1 f); [lia|].
        now rewrite (unfolded_next_depth 0 l self L) by lia. }
      cbn [ret]. destruct (IH (l + 1) self1 L1 ltac:(lia)) as (E & F).
      split; [exact E|].
      intros self' u H. rewrite (F self' u H). f_equal. lia.
    + split; [reflexivity|]. intros self' u H. discriminate.
Qed.

End UnfoldedSkipLoop.

(** A call of [Unfolded.read_sample] that jumps forward over frames,
    from the last frame read to a frame more than one step ahead, does
    what reading the frames in between one by one and then the requested
    frame does: the same object and the same frame or error result.  The
    calls that [read_sample] makes to itself are never nested more than
    once, whatever the length of the jump. *)
Theorem unfolded_skip_reads_frames_between {R : Type} (a : Arith R)
  {X : Type} (m : TrajectoryBase.Methods X (frame R))
  (self : TrajectoryBase.t (Unfolded.attributes R X)) (last sample : Z) :
  Unfolded._last_read (TrajectoryBase.attrs self) = Some last ->
  0 <= last -> last + 1 < sample ->
  Unfolded.read_sample sample self
  = (for_each (Skip.frames_between (last + 1) sample)
       (fun k => Unfolded.read_sample k ;;; ret tt) ;;;
     Unfolded.read_sample sample) self
  /\ (forall depth,
         (2 <= depth)%nat ->
         Unfolded.read_sample_rec depth sample self
         = Unfolded.read_sample sample self).
Proof.
  intros L Hl Hs.
  assert (Depth : forall depth, (2 <= depth)%nat ->
                    Unfolded.read_sample_rec depth sample self
                    = Unfolded.read_sample sample self).
  { intros [|[|depth]] H; try lia. rewrite read_sample_deep.
    apply unfolded_depth. }
  split; [|exact Depth].
  rewrite <- (Depth 2%nat (le_n 2)). rewrite read_sample_rec_S.
  destruct (Z.eqb_spec sample 0); [lia|].
  rewrite bind_get, L. cbv zeta.
  destruct (Z.ltb_spec (sample - last) 0); [lia|].
  destruct (Z.gtb_spec (sample - last) 1); [|lia].
  unfold Skip.frames_between.
  replace (sample - (last + 1)) with (sample - last - 1) by lia.
  destruct (skip_loop 0 (range (sample - last - 1)) last self L Hl) as (E & F).
  assert (Len : List.length (range (sample - last - 1))
                = Z.to_nat (sample - last - 1))
    by (unfold range; now rewrite length_map, length_seq).
  assert (Ks : map (fun i => last + 1 + i) (range (sample - last - 1))
               = map (fun j => last + 1 + Z.of_nat j)
                     (seq 0 (List.length (range (sample - last - 1))))).
  { rewrite Len. unfold range. now rewrite map_map. }
  rewrite Ks. rewrite (bind_run _ _ _ self E).
  apply bind_cont. intros self' u Run.
  pose proof (F self' u Run) as L'. rewrite Len in L'. symmetry.
  replace sample with (sample - 1 + 1) at 1 2 by lia.
  rewrite (read_sample_next (sample - 1) self'); [reflexivity| |lia].
  rewrite L'. f_equal. lia.
Qed.

Lemma unfolded_skip_reads_frames_between_witness :
  let cb := Memory.no_callbacks (frame Q) in
  let self : TrajectoryBase.t (Unfolded.attributes Q _) :=
    fst (TrajectoryBase.read (m := Unfolded.methods (a := exact)) 0
           (Unfolded.__init__ Memory.three_frames)) in
  Unfolded.read_sample (a := exact) 2 self
  = (Unfolded.read_sample (a := exact) 1 ;;;
     Unfolded.read_sample (a := exact) 2) self.
Proof.
  intros cb self.
  destruct (unfolded_skip_reads_frames_between exact
              (Memory.methods (frame Q)) self 0 2) as (H & _).
  - vm_compute. reflexivity.
  - lia.
  - lia.
  - rewrite H. unfold Skip.frames_between. cbn [range Z.to_nat Z.sub].
    vm_compute. reflexivity.
Defined.

(* ================================================================== *)
(** * Further properties of SuperTrajectory *)

Section SuperInvariants.

Import TrajectoryBase SuperTrajectory.

Context {X : Type} {tc : TrajectoryClass X} {fh : FileHandle X}.

Lemma for_each_invariant {S A} (P : S -> Prop) (l : list A)
  (body : A -> M S unit) :
  (forall x s, P s -> P (fst (body x s))) ->
  forall s, P s -> P (fst (for_each l body s)).
Proof.
  intros H. induction l as [|x l IH]; intros s Ps; cbn; [assumption|].
  unfold bind. specialize (H x s Ps).
  destruct (body x s) as [s' [[]|e]]; cbn in *; [now apply IH|assumption].
Qed.

Lemma index_step_invariant (cache : option (TrajectoryBase.t X))
  (f : string) (e : Z * Z) (self : t (attributes X)) :
  SuperRead.index_invariant cache self ->
  SuperRead.index_invariant cache (fst (index_step f e self)).
Proof.
  intros (A & B & C). destruct e as [j step].
  unfold index_step, bind, get.
  destruct (_ || _); cbn; unfold SuperRead.index_invariant in *; cbn;
    unfold len in *; rewrite ?length_app; cbn [List.length];
    repeat split; try assumption; lia.
Qed.

Lemma index_file_invariant (cache : option (TrajectoryBase.t X))
  (f : string) (self : t (attributes X)) :
  SuperRead.index_invariant cache self ->
  SuperRead.index_invariant cache (fst (index_file f self)).
Proof.
  intros I. unfold index_file, with_trajectory.
  destruct (trajectoryclass f) as [sub|e]; [|exact I].
  pose proof (for_each_invariant (SuperRead.index_invariant cache)
                (enumerate (steps sub)) (index_step f)
                (fun x s => index_step_invariant cache f x s) self I) as I'.
  destruct (for_each _ _ self) as [self' r].
  destruct (snd (close sub)); exact I'.
Qed.

Lemma init_invariant {fs : FileSystem} (files : list string) (mode : string)
  (self : t (attributes X)) :
  SuperTrajectory.__init__ files mode = Return self ->
  SuperRead.index_invariant None self.
Proof.
  unfold SuperTrajectory.__init__, TrajectoryBase.__init__.
  destruct (len files =? 0); [discriminate|].
  destruct (_ && _); [discriminate|].
  set (self0 := set_steps [] _).
  assert (I0 : SuperRead.index_invariant None self0) by (repeat split).
  pose proof (for_each_invariant (SuperRead.index_invariant None)
                (SuperTrajectory.files (attrs self0)) index_file
                (fun f s => index_file_invariant None f s) self0 I0) as I.
  destruct (for_each _ _ self0) as [self1 [[]|e]]; [|discriminate].
  intros [= <-]. exact I.
Qed.

End SuperInvariants.

Section SuperReadFacts.

Import TrajectoryBase SuperTrajectory.

Context {X F : Type} {cb : Callbacks F} {m : Methods X F}
        {tc : TrajectoryClass X} {fh : FileHandle X}.

(** [read_sample] once the frame is resolved. *)
Lemma super_read_resolved (frame : Z) (f : string) (j : Z)
  (self : t (attributes X)) :
  PyList.getitem (_steps_file (attrs self)) frame = Return f ->
  PyList.getitem (_steps_frame (attrs self)) frame = Return j ->
  SuperRead.read_sample frame self
  = ((match _last_trajectory (attrs self) with
      | None =>
          sub <- lift (trajectoryclass f) ;;
          modify (SuperRead.set_last_trajectory (Some sub))
      | Some last =>
          if negb (String.eqb (filename last) f) || closed last
          then SuperRead.reopen last f
          else ret tt
      end) ;;;
     self <- get ;;
     match _last_trajectory (attrs self) with
     | None => raise TypeError
     | Some t =>
         let '(t', r) := __getitem__ (KeyInt j) t in
         modify (SuperRead.set_last_trajectory (Some t')) ;;; lift r
     end) self.
Proof.
  intros Ef Ej. unfold SuperRead.read_sample.
  rewrite bind_get. unfold bind at 1, lift at 1. rewrite Ef.
  unfold bind at 1, lift at 1. rewrite Ej. reflexivity.
Qed.

Lemma super_read_item (j : Z) (sub : TrajectoryBase.t X)
  (self : t (attributes X)) :
  (self0 <- get ;;
   match _last_trajectory (attrs self0) with
   | None => raise TypeError
   | Some t =>
       let '(t', r) := __getitem__ (KeyInt j) t in
       modify (SuperRead.set_last_trajectory (Some t')) ;;; lift r
   end) (SuperRead.set_last_trajectory (Some sub) self)
  = (SuperRead.set_last_trajectory
       (Some (fst (__getitem__ (KeyInt j) sub))) self,
     snd (__getitem__ (KeyInt j) sub)).
Proof.
  rewrite bind_get. cbn [_last_trajectory attrs SuperRead.set_last_trajectory
                          set_attrs].
  destruct (__getitem__ (KeyInt j) sub) as [t' r]. reflexivity.
Qed.

Lemma set_last_same (self : t (attributes X)) (sub : TrajectoryBase.t X) :
  _last_trajectory (attrs self) = Some sub ->
  SuperRead.set_last_trajectory (Some sub) self = self.
Proof.
  intros E. destruct self as [fn md cbk st iw ir [fl sf sfr lt]].
  cbn in *. now subst.
Qed.

End SuperReadFacts.

(** On the object that [SuperTrajectory.__init__] returns, the three
    index lists have one length and no sub-trajectory is cached.  A
    frame outside [-len(steps), len(steps)) raises [IndexError] without
    opening a file.  A frame inside, counted from the end when it is
    below zero, opens the file that the index gives for it, reads the
    local frame of the index through the sub-trajectory's [__getitem__],
    and keeps the opened sub-trajectory as the cache; when the file
    cannot be opened the error is raised and nothing is cached. *)
Theorem super_read_sample_resolves_frame {X F : Type} (fs : FileSystem)
  (cb : Callbacks F) (m : TrajectoryBase.Methods X F)
  (tc : SuperTrajectory.TrajectoryClass X) (fh : FileHandle X)
  (files : list string) (mode : string)
  (self : TrajectoryBase.t (SuperTrajectory.attributes X)) :
  SuperTrajectory.__init__ files mode = Return self ->
  SuperRead.index_invariant None self
  /\ (forall frame,
         frame >= len (TrajectoryBase.steps self)
         \/ frame < - len (TrajectoryBase.steps self) ->
         SuperRead.read_sample frame self = (self, Raise IndexError))
  /\ (forall frame,
         - len (TrajectoryBase.steps self) <= frame
           < len (TrajectoryBase.steps self) ->
         let k :=
           Z.to_nat (if frame <? 0
                     then frame + len (TrajectoryBase.steps self)
                     else frame) in
         exists f j,
           nth_error (SuperTrajectory._steps_file (TrajectoryBase.attrs self))
                     k = Some f
           /\ nth_error (SuperTrajectory._steps_frame
                           (TrajectoryBase.attrs self)) k = Some j
           /\ match SuperTrajectory.trajectoryclass f with
              | Return sub =>
                  SuperRead.read_sample frame self
                  = (SuperRead.set_last_trajectory
                       (Some (fst (TrajectoryBase.__getitem__
                                     (TrajectoryBase.KeyInt j) sub))) self,
                     snd (TrajectoryBase.__getitem__
                            (TrajectoryBase.KeyInt j) sub))
              | Raise e => SuperRead.read_sample frame self = (self, Raise e)
              end).
Proof.
  intros I. pose proof (init_invariant files mode self I) as Inv.
  split; [exact Inv|]. destruct Inv as (A & B & C). split.
  - intros frame H. unfold SuperRead.read_sample. rewrite bind_get.
    unfold bind at 1, lift at 1.
    rewrite getitem_list_out by (rewrite A; exact H). reflexivity.
  - intros frame Hf k.
    assert (Hk : 0 <= Z.of_nat k < len (TrajectoryBase.steps self)).
    { subst k. destruct (Z.ltb_spec frame 0); lia. }
    destruct (nth_error_inside
                (SuperTrajectory._steps_file (TrajectoryBase.attrs self))
                (Z.of_nat k)) as (f & Ef); [now rewrite A|].
    destruct (nth_error_inside
                (SuperTrajectory._steps_frame (TrajectoryBase.attrs self))
                (Z.of_nat k)) as (j & Ej); [now rewrite B|].
    rewrite Nat2Z.id in Ef, Ej.
    exists f, j. split; [exact Ef|]. split; [exact Ej|].
    rewrite (super_read_resolved frame f j self).
    + rewrite C. unfold bind at 1. unfold bind at 1, lift at 1.
      destruct (SuperTrajectory.trajectoryclass f) as [sub|e]; [|reflexivity].
      unfold modify at 1. apply (super_read_item j sub self).
    + apply getitem_list_resolved; rewrite A; [exact Hf | exact Ef].
    + apply getitem_list_resolved; rewrite B; [exact Hf | exact Ej].
Qed.

Lemma super_read_sample_resolves_frame_witness :
  let cb := Memory.no_callbacks (frame Q) in
  let fh := Memory.file_handle (frame Q) in
  exists self,
    SuperTrajectory.__init__ (fs := Memory.any_path)
      (tc := Memory.one_frame_files)
      ["run/c.xyz"; "run/a.xyz"; "run/b.xyz"]%string "r" = Return self
    /\ TrajectoryBase.steps self = [0; 10]
    /\ SuperRead.read_sample (m := Memory.methods (frame Q))
         (tc := Memory.one_frame_files) 2 self = (self, Raise IndexError)
    /\ SuperRead.read_sample (m := Memory.methods (frame Q))
         (tc := Memory.one_frame_files) (-3) self = (self, Raise IndexError)
    /\ snd (SuperRead.read_sample (m := Memory.methods (frame Q))
              (tc := Memory.one_frame_files) 1 self)
       = Return (TrajectoryBase.Frame (Some Memory.frame1))
    /\ snd (SuperRead.read_sample (m := Memory.methods (frame Q))
              (tc := Memory.one_frame_files) (-2) self)
       = Return (TrajectoryBase.Frame (Some Memory.frame0)).
Proof.
  intros cb fh. eexists. split; [vm_compute; reflexivity|].
  split; [reflexivity|].
  match goal with
  | |- SuperRead.read_sample 2 ?self = _ /\ _ =>
      destruct (super_read_sample_resolves_frame Memory.any_path cb
                  (Memory.methods (frame Q)) Memory.one_frame_files fh
                  ["run/c.xyz"; "run/a.xyz"; "run/b.xyz"]%string "r"%string
                  self) as (_ & H1 & H2); [vm_compute; reflexivity|]
  end.
  split; [|split; [|split]].
  - apply H1. left. vm_compute. discriminate.
  - apply H1. right. vm_compute. reflexivity.
  - destruct (H2 1) as (f & j & Ef & Ej & H); [vm_compute; split; [discriminate|reflexivity]|].
    vm_compute in Ef, Ej. injection Ef as <-. injection Ej as <-.
    cbn [SuperTrajectory.trajectoryclass Memory.one_frame_files String.eqb
         Ascii.eqb Bool.eqb] in H.
    rewrite H. reflexivity.
  - destruct (H2 (-2)) as (f & j & Ef & Ej & H); [vm_compute; split; [discriminate|reflexivity]|].
    vm_compute in Ef, Ej. injection Ef as <-. injection Ej as <-.
    cbn [SuperTrajectory.trajectoryclass Memory.one_frame_files String.eqb
         Ascii.eqb Bool.eqb] in H.
    rewrite H. reflexivity.
Defined.

(** With a sub-trajectory in the cache, [read_sample] reuses it when it
    was opened on the file of the requested frame and its file object is
    not closed: it neither closes nor opens a file, whatever the file
    class would do.  Otherwise it closes the cached sub-trajectory and
    opens the file of the frame; a [close] that raises leaves the old
    sub-trajectory in the cache. *)
Theorem super_read_sample_cache {X F : Type} (cb : Callbacks F)
  (m : TrajectoryBase.Methods X F) (tc : SuperTrajectory.TrajectoryClass X)
  (fh : FileHandle X)
  (self : TrajectoryBase.t (SuperTrajectory.attributes X))
  (last : TrajectoryBase.t X) (frame : Z) (f : string) (j : Z) :
  SuperTrajectory._last_trajectory (TrajectoryBase.attrs self) = Some last ->
  0 <= frame ->
  nth_error (SuperTrajectory._steps_file (TrajectoryBase.attrs self))
            (Z.to_nat frame) = Some f ->
  nth_error (SuperTrajectory._steps_frame (TrajectoryBase.attrs self))
            (Z.to_nat frame) = Some j ->
  (TrajectoryBase.filename last = f -> closed last = false ->
   SuperRead.read_sample frame self
   = (SuperRead.set_last_trajectory
        (Some (fst (TrajectoryBase.__getitem__
                      (TrajectoryBase.KeyInt j) last))) self,
      snd (TrajectoryBase.__getitem__ (TrajectoryBase.KeyInt j) last)))
  /\ (TrajectoryBase.filename last <> f \/ closed last = true ->
      match close last, SuperTrajectory.trajectoryclass f with
      | (last', Raise e), _ =>
          SuperRead.read_sample frame self
          = (SuperRead.set_last_trajectory (Some last') self, Raise e)
      | (last', Return _), Raise e =>
          SuperRead.read_sample frame self
          = (SuperRead.set_last_trajectory (Some last') self, Raise e)
      | (_, Return _), Return sub =>
          SuperRead.read_sample frame self
          = (SuperRead.set_last_trajectory
               (Some (fst (TrajectoryBase.__getitem__
                             (TrajectoryBase.KeyInt j) sub))) self,
             snd (TrajectoryBase.__getitem__ (TrajectoryBase.KeyInt j) sub))
      end).
Proof.
  intros C Hf Ef Ej.
  pose proof (super_read_resolved frame f j self
                (getitem_list_nth _ frame f Hf Ef)
                (getitem_list_nth _ frame j Hf Ej)) as Run.
  rewrite C in Run. split.
  - intros En Ec. rewrite Run, En, String.eqb_refl, Ec. cbn [negb orb].
    unfold bind at 1, ret at 1.
    rewrite <- (set_last_same self last C) at 1.
    apply super_read_item.
  - intros H.
    assert (G : negb (String.eqb (TrajectoryBase.filename last) f)
                || closed last = true).
    { destruct H as [N | ->]; [|apply orb_true_r].
      apply String.eqb_neq in N. now rewrite N. }
    rewrite G in Run. unfold SuperRead.reopen in Run.
    destruct (close last) as [last' [[]|e]].
    + destruct (SuperTrajectory.trajectoryclass f) as [sub|e]; rewrite Run.
      * unfold bind at 1. unfold bind at 1, modify at 1.
        unfold bind at 1, lift at 1. unfold modify at 1.
        exact (super_read_item j sub
                 (SuperRead.set_last_trajectory (Some last') self)).
      * reflexivity.
    + destruct (SuperTrajectory.trajectoryclass f); rewrite Run; reflexivity.
Qed.

Lemma super_read_sample_cache_witness :
  let cb := Memory.no_callbacks (frame Q) in
  let fh : FileHandle (Memory.store (frame Q)) :=
    {| closed := fun _ => false; close := ret tt |} in
  let refuse : SuperTrajectory.TrajectoryClass (Memory.store (frame Q)) :=
    {| SuperTrajectory.trajectoryclass := fun _ => Raise IOError |} in
  let last := Memory.open "run/b.xyz" [(10, Some Memory.frame1)] in
  let self :=
    TrajectoryBase.Build "run" "r" [] [0; 10] false false
      (SuperTrajectory.Attributes ["run/a.xyz"; "run/b.xyz"]%string
         ["run/a.xyz"; "run/b.xyz"]%string [0; 0] (Some last)) in
  snd (SuperRead.read_sample (m := Memory.methods (frame Q)) 1 self)
  = Return (TrajectoryBase.Frame (Some Memory.frame1))
  /\ snd (SuperRead.read_sample (m := Memory.methods (frame Q)) 0 self)
     = Raise IOError.
Proof.
  intros cb fh refuse last self. split.
  - destruct (super_read_sample_cache cb (Memory.methods (frame Q)) refuse fh
                self last 1 "run/b.xyz"%string 0 eq_refl ltac:(lia)
                eq_refl eq_refl) as (H & _).
    rewrite (H eq_refl eq_refl). reflexivity.
  - destruct (super_read_sample_cache cb (Memory.methods (frame Q)) refuse fh
                self last 0 "run/a.xyz"%string 0 eq_refl ltac:(lia)
                eq_refl eq_refl) as (_ & H).
    specialize (H ltac:(left; discriminate)).
    cbv beta iota delta [close fh ret SuperTrajectory.trajectoryclass refuse]
      in H.
    exact (f_equal snd H).
Defined.

(** [SuperTrajectory.close()] does nothing when no sub-trajectory is
    cached.  After a [close] that returned, nothing is cached and a
    second [close] does nothing; when closing the cached sub-trajectory
    raises, the error is raised and the sub-trajectory stays cached. *)
Theorem super_close_empties_cache {X : Type} (fh : FileHandle X)
  (self : TrajectoryBase.t (SuperTrajectory.attributes X)) :
  (SuperTrajectory._last_trajectory (TrajectoryBase.attrs self) = None ->
   SuperRead.close self = (self, Return tt))
  /\ (forall self' u,
         SuperRead.close self = (self', Return u) ->
         SuperTrajectory._last_trajectory (TrajectoryBase.attrs self') = None
         /\ SuperRead.close self' = (self', Return tt)
         /\ TrajectoryBase.steps self' = TrajectoryBase.steps self)
  /\ (forall self' e,
         SuperRead.close self = (self', Raise e) ->
         exists last last',
           SuperTrajectory._last_trajectory (TrajectoryBase.attrs self)
           = Some last
           /\ close last = (last', Raise e)
           /\ SuperTrajectory._last_trajectory (TrajectoryBase.attrs self')
              = Some last').
Proof.
  assert (N : forall s : TrajectoryBase.t (SuperTrajectory.attributes X),
             SuperTrajectory._last_trajectory (TrajectoryBase.attrs s) = None ->
             SuperRead.close s = (s, Return tt)).
  { intros s E. unfold SuperRead.close. rewrite bind_get, E. reflexivity. }
  split; [apply N|]. split.
  - intros self' u. unfold SuperRead.close. rewrite bind_get.
    destruct (SuperTrajectory._last_trajectory (TrajectoryBase.attrs self))
      as [last|] eqn:E.
    + destruct (close last) as [last' [[]|e]].
      * intros [= <- _]. split; [reflexivity|]. split; [|reflexivity].
        now apply N.
      * unfold bind, modify. discriminate.
    + intros [= <- _]. split; [exact E|]. split; [|reflexivity].
      now apply N.
  - intros self' e. unfold SuperRead.close. rewrite bind_get.
    destruct (SuperTrajectory._last_trajectory (TrajectoryBase.attrs self))
      as [last|]; [|discriminate].
    destruct (close last) as [last' [[]|e']] eqn:C; [discriminate|].
    unfold bind, modify, raise. intros [= <- <-].
    exists last, last'. repeat split. exact C.
Qed.

Lemma super_close_empties_cache_witness :
  let fh : FileHandle (Memory.store (frame Q)) :=
    {| closed := fun _ => false; close := ret tt |} in
  let last := Memory.open "run/b.xyz" [(10, Some Memory.frame1)] in
  let self :=
    TrajectoryBase.Build "run" "r" [] [0; 10] false false
      (SuperTrajectory.Attributes ["run/a.xyz"; "run/b.xyz"]%string
         ["run/a.xyz"; "run/b.xyz"]%string [0; 0] (Some last)) in
  let self' := fst (SuperRead.close self) in
  SuperTrajectory._last_trajectory (TrajectoryBase.attrs self') = None
  /\ SuperRead.close self' = (self', Return tt).
Proof.
  intros fh last self self'.
  destruct (super_close_empties_cache fh self) as (_ & H & _).
  destruct (H self' tt eq_refl) as (H1 & H2 & _). split; assumption.
Defined.

Section IndexOrder.

Import SuperTrajectory.

Lemma dedup_adjacent (l : list (Z * string * Z)) :
  forall prev,
    Sorted (fun x y => x <> y) (map step_of (dedup_from prev l))
    /\ (forall p, prev = Some p ->
                  HdRel (fun x y => x <> y) p
                        (map step_of (dedup_from prev l))).
Proof.
  induction l as [|[[step f] j] l IH]; intros prev.
  - cbn. split; [constructor|]. intros p _. constructor.
  - assert (Keep : Sorted (fun x y => x <> y)
                     (map step_of ((step, f, j) :: dedup_from (Some step) l))).
    { destruct (IH (Some step)) as (S & H). cbn [map step_of fst].
      constructor; [exact S|]. now apply H. }
    cbn [dedup_from]. destruct prev as [p|].
    + destruct (Z.eqb_spec step p) as [E|N].
      * apply IH.
      * split; [exact Keep|]. intros q [= <-]. cbn [map step_of fst].
        constructor. congruence.
    + split; [exact Keep|]. intros p [=].
Qed.

Lemma dedup_increasing (l : list (Z * string * Z)) :
  forall prev,
    Sorted Z.le (map step_of l) ->
    (forall p, prev = Some p -> HdRel Z.le p (map step_of l)) ->
    Sorted Z.lt (map step_of (dedup_from prev l))
    /\ (forall p, prev = Some p ->
                  HdRel Z.lt p (map step_of (dedup_from prev l))).
Proof.
  induction l as [|[[step f] j] l IH]; intros prev S H.
  - cbn. split; [constructor|]. intros p _. constructor.
  - cbn [map step_of fst] in S, H. inversion S as [|? ? S' Hd]; subst.
    assert (Keep : Sorted Z.lt
                     (map step_of ((step, f, j) :: dedup_from (Some step) l))).
    { destruct (IH (Some step) S') as (St & Ht).
      - intros q [= <-]. exact Hd.
      - cbn [map step_of fst]. constructor; [exact St|]. now apply Ht. }
    cbn [dedup_from]. destruct prev as [p|].
    + specialize (H p eq_refl). inversion H as [|? ? Hp]; subst.
      destruct (Z.eqb_spec step p) as [E|N].
      * subst. apply IH; [exact S'|]. intros q [= <-]. exact Hd.
      * split; [exact Keep|]. intros q [= <-]. cbn [map step_of fst].
        constructor. lia.
    + split; [exact Keep|]. intros p [=].
Qed.

Lemma enumerate_steps (f : string) (l : list Z) :
  map step_of (map (fun '(j, step) => (step, f, j)) (enumerate l)) = l.
Proof.
  rewrite map_map. unfold enumerate, range, len. rewrite Nat2Z.id.
  generalize 0%nat. induction l as [|x l IH]; intros n; cbn; [reflexivity|].
  now rewrite IH.
Qed.

Lemma all_entries_steps (steps_of : string -> list Z) (fs : list string) :
  map step_of (all_entries steps_of fs) = flat_map steps_of fs.
Proof.
  unfold all_entries. induction fs as [|f fs IH]; cbn; [reflexivity|].
  now rewrite map_app, enumerate_steps, IH.
Qed.

Lemma super_init_steps {X : Type} (fs : FileSystem) (tc : TrajectoryClass X)
  (fh : FileHandle X)
  (files : list string) (mode : string) (steps_of : string -> list Z) :
  files <> [] ->
  (mode = "r"%string ->
   path_exists (Path.dirname (nth 0 files ""%string)) = true) ->
  (forall f, In f files ->
     exists sub, trajectoryclass f = Return sub
                 /\ TrajectoryBase.steps sub = steps_of f
                 /\ snd (close sub) = Return tt) ->
  exists self,
    SuperTrajectory.__init__ files mode = Return self
    /\ TrajectoryBase.steps self = map step_of (spec_index steps_of files).
Proof.
  intros NE EX OP.
  unfold SuperTrajectory.__init__, TrajectoryBase.__init__.
  assert (L : (len files =? 0) = false).
  { destruct files; [contradiction|]. unfold len. cbn [List.length].
    apply Z.eqb_neq. lia. }
  rewrite L.
  assert (B : String.eqb mode "r"
              && negb (path_exists (Path.dirname (nth 0 files ""%string)))
              = false).
  { destruct (String.eqb_spec mode "r") as [E|]; [|reflexivity].
    rewrite (EX E). reflexivity. }
  rewrite B.
  set (self0 := TrajectoryBase.set_steps [] _).
  destruct (index_files_run steps_of (Path.sort files) self0)
    as (self & R & E).
  { intros f I. apply OP.
    eapply Permutation_in; [symmetry; apply sort_perm | exact I]. }
  exists self.
  assert (Run : for_each (SuperTrajectory.files (TrajectoryBase.attrs self0))
                  index_file self0 = (self, Return tt)) by exact R.
  rewrite Run. split; [reflexivity|]. destruct E as (E1 & _). exact E1.
Qed.

End IndexOrder.

(** In the index that [SuperTrajectory.__init__] builds from files
    that open and whose [close] at the end of the [with] block returns,
    no step equals the step recorded just before it.  When the steps of
    the files, taken in the sorted order of the paths, never decrease,
    the recorded steps increase strictly, so that no step occurs twice in
    [steps]. *)
Theorem super_trajectory_steps_increase {X : Type} (fs : FileSystem)
  (tc : SuperTrajectory.TrajectoryClass X) (fh : FileHandle X)
  (files : list string) (mode : string) (steps_of : string -> list Z) :
  files <> [] ->
  (mode = "r"%string ->
   path_exists (Path.dirname (nth 0 files ""%string)) = true) ->
  (forall f, In f files ->
     exists sub, SuperTrajectory.trajectoryclass f = Return sub
                 /\ TrajectoryBase.steps sub = steps_of f
                 /\ snd (close sub) = Return tt) ->
  exists self,
    SuperTrajectory.__init__ files mode = Return self
    /\ Sorted (fun x y => x <> y) (TrajectoryBase.steps self)
    /\ (Sorted Z.le (flat_map steps_of (Path.sort files)) ->
        Sorted Z.lt (TrajectoryBase.steps self)
        /\ NoDup (TrajectoryBase.steps self)).
Proof.
  intros NE EX OP.
  destruct (super_init_steps fs tc fh files mode steps_of NE EX OP)
    as (self & I & E).
  exists self. split; [exact I|]. rewrite E. unfold SuperTrajectory.spec_index.
  split.
  - apply dedup_adjacent.
  - intros S.
    destruct (dedup_increasing
                (SuperTrajectory.all_entries steps_of (Path.sort files)) None)
      as (St & _).
    + now rewrite all_entries_steps.
    + intros p [=].
    + split; [exact St|].
      apply Sorted_StronglySorted in St; [|intros x y z; lia].
      clear - St. induction St as [|x l St IH H]; constructor; [|exact IH].
      intros I. rewrite Forall_forall in H. specialize (H x I). lia.
Qed.

Lemma super_trajectory_steps_increase_witness :
  exists self,
    SuperTrajectory.__init__ (fs := Memory.any_path)
      (tc := Memory.one_frame_files) (fh := Memory.file_handle (frame Q))
      ["run/c.xyz"; "run/a.xyz"; "run/b.xyz"]%string "r"
    = Return self
    /\ TrajectoryBase.steps self = [0; 10]
    /\ Sorted Z.lt (TrajectoryBase.steps self)
    /\ NoDup (TrajectoryBase.steps self).
Proof.
  destruct (super_trajectory_steps_increase Memory.any_path
              Memory.one_frame_files (Memory.file_handle (frame Q))
              ["run/c.xyz"; "run/a.xyz"; "run/b.xyz"]%string "r"%string
              (fun f => if String.eqb f "run/a.xyz" then [0] else [10]))
    as (self & I & _ & H).
  - discriminate.
  - reflexivity.
  - intros f [<- | [<- | [<- | []]]]; eexists; repeat split; reflexivity.
  - exists self. split; [exact I|]. split.
    + vm_compute in I. injection I as <-. reflexivity.
    + apply H. cbn. repeat constructor; lia.
Defined.
